(** * psutil: process identity, registry, CPU accounting, descendants, waiting

    A shallow embedding of the portable core of [psutil/__init__.py]
    (version 1.3.0): [Process.__eq__], [Process.__hash__],
    [Process.__init__], [Process.is_running], [Process.send_signal],
    [process_iter], [cpu_percent], [cpu_times_percent],
    [Process.get_cpu_percent], [Process.get_children] and [wait_procs];
    then the signals ([terminate], [kill], [suspend], [resume]),
    [Process.parent], [Process.as_dict], [Process.name],
    [Process.get_memory_percent], [Process.get_memory_maps],
    [disk_io_counters] and [net_io_counters].

    Conventions of the embedding.
    - Python exceptions are results: a computation returns [Ok v] or
      [Raise e], and always returns the state it reached.
    - The platform module [_psplatform] is an oracle [env : nat -> World]:
      the answer to the n-th platform call is read from [env n], so the
      operating system may change between any two calls.
    - A [Process] object is a record; a method is a computation over the
      pair (self, module state), so that what a method writes to [self]
      survives an exception raised afterwards.
    - Timestamps and CPU times are Python floats; they are embedded as
      exact numbers: creation times (only compared with [==] and [<=]) as
      integers in clock ticks, CPU times as rationals.
    - A generator is embedded by the list of what it yields when run to
      its end, and a loop over it runs after it; every platform call reads
      a tick of its own, so this only renumbers the ticks.
    - A set of handles is a list without two members equal by [__eq__],
      in the order of insertion; a callback is embedded by the list of
      the handles it is called on.
    - A dictionary keyed by names is a finite map over strings; where the
      code goes through a set or a dictionary, the order is that of the
      list handed to the loop.
    - The functions that only reshape what one platform call answers
      ([as_dict], [name], [get_memory_percent], [get_memory_maps], the I/O
      counters) take that answer as an argument. *)

From Stdlib Require Import ZArith QArith Qround Lia Lqa List Bool.
From stdpp Require Import strings gmap list sorting.

Set Default Proof Using "Type".
Local Open Scope Z_scope.

(* ================================================================== *)
(** * Exceptions and the state-and-exception monad                      *)
(* ================================================================== *)

Inductive Exn : Type :=
| NoSuchProcess
| AccessDenied
| TimeoutExpired
| ValueError
| ZeroDivisionError
| AttributeError.

Inductive Res (A : Type) : Type :=
| Ok (a : A)
| Raise (e : Exn).
Arguments Ok {A} a.
Arguments Raise {A} e.

Definition Mon (S A : Type) : Type := S -> Res A * S.

Definition ret {S A : Type} (a : A) : Mon S A := fun s => (Ok a, s).

Definition bind {S A B : Type} (m : Mon S A) (k : A -> Mon S B) : Mon S B :=
  fun s =>
    match m s with
    | (Ok a, s') => k a s'
    | (Raise e, s') => (Raise e, s')
    end.

Definition raise {S A : Type} (e : Exn) : Mon S A := fun s => (Raise e, s).

(** [try: m except e: h e]; a handler that answers [None] does not catch. *)
Definition try_except {S A : Type} (m : Mon S A) (h : Exn -> option (Mon S A))
  : Mon S A :=
  fun s =>
    match m s with
    | (Ok a, s') => (Ok a, s')
    | (Raise e, s') =>
        match h e with
        | Some k => k s'
        | None => (Raise e, s')
        end
    end.

Definition get {S : Type} : Mon S S := fun s => (Ok s, s).
Definition modify {S : Type} (f : S -> S) : Mon S unit := fun s => (Ok tt, f s).

Declare Scope mon_scope.
Delimit Scope mon_scope with mon.
Notation "'let*' x ':=' m 'in' k" := (bind m (fun x => k))
  (at level 10, x binder, m at level 100, k at level 200) : mon_scope.
Notation "m ;;; k" := (bind m (fun _ => k))
  (at level 100, k at level 200, right associativity) : mon_scope.

(* ================================================================== *)
(** * The platform backend                                              *)
(* ================================================================== *)

(** What a per-process platform call answers: a value, or one of the two
    failure signals. *)
Inductive Backend (A : Type) : Type :=
| BOk (a : A)
| BNoSuchProcess
| BAccessDenied.
Arguments BOk {A} a.
Arguments BNoSuchProcess {A}.
Arguments BAccessDenied {A}.

(** The namedtuple of [cpu_times()]: its fields are [user], [system],
    [idle] and the platform's further ones ([nice], [iowait], ...). *)
Record cputimes : Type := mkCpuTimes {
  user : Q;
  system : Q;
  idle : Q;
  others : list Q;
}.

(** The namedtuple of [Process.get_cpu_times()]. *)
Record pcputimes : Type := mkPCpuTimes {
  p_user : Q;
  p_system : Q;
}.

(** [_proc.process_wait(timeout)]: the exit code ([None] when unknown), or
    [TimeoutExpired]. *)
Inductive WaitRes : Type :=
| Exited (rc : option Z)
| WaitTimeout.

(** [os.kill(pid, sig)]: done, or an [OSError] with its [errno]. *)
Inductive KillRes : Type :=
| Killed
| ESRCH
| EPERM.

Record World : Type := mkWorld {
  w_get_pids : list Z;                          (* _psplatform.get_pids() *)
  w_Process : Z -> Backend unit;                (* _psplatform.Process(pid) *)
  w_get_create_time : Z -> Backend Z;           (* _proc.get_create_time() *)
  w_get_ppid : Z -> Backend Z;                  (* _proc.get_ppid() *)
  w_get_ppid_map : list (Z * Z);                (* _psplatform.get_ppid_map() *)
  w_kill : Z -> Z -> KillRes;                   (* os.kill(pid, sig) *)
  w_process_wait : Z -> option Q -> WaitRes;    (* _proc.process_wait(timeout) *)
  w_timer : Q;                                  (* time.monotonic() / time.time() *)
  w_get_system_cpu_times : cputimes;            (* get_system_cpu_times() *)
  w_get_system_per_cpu_times : list cputimes;   (* get_system_per_cpu_times() *)
  w_get_cpu_times : Z -> Backend pcputimes;     (* _proc.get_cpu_times() *)
}.

(** What the interpreter and the platform fix once and for all. *)
Record Platform : Type := mkPlatform {
  posix : bool;            (* os.name == 'posix' *)
  WINDOWS : bool;          (* os.name == 'nt' *)
  has_ppid_map : bool;     (* hasattr(_psplatform, 'get_ppid_map') *)
  num_cpus : Z;            (* _psplatform.get_num_cpus() *)
}.

(* ================================================================== *)
(** * Process objects and the module state                              *)
(* ================================================================== *)

Record Process : Type := mkProcess {
  pid : Z;                                   (* self._pid *)
  create_time : option Z;                    (* self.__dict__.get('create_time') *)
  _gone : bool;                              (* self._gone *)
  _ppid : option Z;                          (* self._ppid *)
  _last_sys_cpu_times : option Q;            (* self._last_sys_cpu_times *)
  _last_proc_cpu_times : option pcputimes;   (* self._last_proc_cpu_times *)
  retcode : option (option Z);               (* self.retcode, once assigned *)
}.

Definition set_gone (p : Process) : Process :=
  mkProcess (pid p) (create_time p) true (_ppid p)
            (_last_sys_cpu_times p) (_last_proc_cpu_times p) (retcode p).

Definition set_create_time (t : Z) (p : Process) : Process :=
  mkProcess (pid p) (Some t) (_gone p) (_ppid p)
            (_last_sys_cpu_times p) (_last_proc_cpu_times p) (retcode p).

Definition set_ppid (v : Z) (p : Process) : Process :=
  mkProcess (pid p) (create_time p) (_gone p) (Some v)
            (_last_sys_cpu_times p) (_last_proc_cpu_times p) (retcode p).

Definition set_last_cpu_times (st : Q) (pt : pcputimes) (p : Process) : Process :=
  mkProcess (pid p) (create_time p) (_gone p) (_ppid p)
            (Some st) (Some pt) (retcode p).

Definition set_retcode (rc : option Z) (p : Process) : Process :=
  mkProcess (pid p) (create_time p) (_gone p) (_ppid p)
            (_last_sys_cpu_times p) (_last_proc_cpu_times p) (Some rc).

(** The values [__eq__] may be handed as [other]. *)
Inductive PyObj : Type :=
| PyProcess (p : Process)
| PyNone
| PyInt (z : Z).

(** [Process.__eq__]. *)
Definition __eq__ (self : Process) (other : PyObj) : bool :=
  match other with
  | PyProcess q =>
      let p1 := (pid self, create_time self) in
      let p2 := (pid q, create_time q) in
      bool_decide (p1 = p2)
  | _ => false
  end.

Arguments __eq__ : simpl never.

(** [Process.__hash__]. *)
Definition __hash__ (self : Process) : Z := pid self.

(** The module's global variables, and the count of platform calls made. *)
Record St : Type := mkSt {
  tick : nat;
  _pmap : gmap Z Process;
  _last_cpu_times : cputimes;
  _last_per_cpu_times : list cputimes;
  _last_cpu_times_2 : cputimes;
  _last_per_cpu_times_2 : list cputimes;
}.

Definition next_tick (s : St) : St :=
  mkSt (S (tick s)) (_pmap s) (_last_cpu_times s) (_last_per_cpu_times s)
       (_last_cpu_times_2 s) (_last_per_cpu_times_2 s).

Definition set_pmap (m : gmap Z Process) (s : St) : St :=
  mkSt (tick s) m (_last_cpu_times s) (_last_per_cpu_times s)
       (_last_cpu_times_2 s) (_last_per_cpu_times_2 s).

(** Module-level code runs in [M]; a method of [Process] runs in [Method],
    whose state also holds [self]. *)
Definition M (A : Type) : Type := Mon St A.
Definition Method (A : Type) : Type := Mon (Process * St) A.

Definition lift {A : Type} (m : M A) : Method A :=
  fun ps => let (r, s') := m (snd ps) in (r, (fst ps, s')).

Definition self : Method Process := fun ps => (Ok (fst ps), ps).
Definition set_self (f : Process -> Process) : Method unit :=
  fun ps => (Ok tt, (f (fst ps), snd ps)).

(** [p.meth(...)] called from module-level code: the outcome of the call
    and the object as the call left it. *)
Definition call {A : Type} (p : Process) (m : Method A) : St -> Res A * Process * St :=
  fun s => let '(r, (p', s')) := m (p, s) in (r, p', s').

(* ================================================================== *)
(** * Float arithmetic on exact numbers                                 *)
(* ================================================================== *)

Definition Qlt_bool (x y : Q) : bool := negb (Qle_bool y x).

(** [x / y], which raises [ZeroDivisionError] when [y] is zero. *)
Definition py_div (x y : Q) : Res Q :=
  if Qeq_bool y 0 then Raise ZeroDivisionError else Ok (x / y)%Q.

(** [round(x, 1)]: the nearest multiple of one tenth, a tie going away
    from zero (Python 2; Python 3 sends a tie to the even neighbour). *)
Definition round1 (x : Q) : Q :=
  if Qle_bool 0 x
  then (inject_Z (Qfloor (x * 10 + (1 # 2))) / 10)%Q
  else (- (inject_Z (Qfloor (- x * 10 + (1 # 2))) / 10))%Q.

(** The fields of the namedtuple, and [sum(t)]. *)
Definition fields (t : cputimes) : list Q :=
  user t :: system t :: idle t :: others t.

Definition sum_floats (l : list Q) : Q := foldl Qplus 0%Q l.

Definition lift_res {S A : Type} (r : Res A) : Mon S A := fun s => (r, s).

Section Model.

Variable env : nat -> World.
Variable plat : Platform.

(** One platform call: read the world as it is now; the world moves on. *)
Definition platform {A : Type} (f : World -> A) : M A :=
  fun s => (Ok (f (env (tick s))), next_tick s).

Definition of_backend {S A : Type} (b : Backend A) : Mon S A :=
  match b with
  | BOk a => ret a
  | BNoSuchProcess => raise NoSuchProcess
  | BAccessDenied => raise AccessDenied
  end.

(** [Process.__init__(pid)] for an integer [pid]. *)
Definition Process_init (pid0 : Z) : M Process :=
  (if pid0 <? 0 then raise ValueError
   else
     let* b := platform (fun w => w_Process w pid0) in
     of_backend b ;;;
     let p := mkProcess pid0 None false None None None None in
     let* c := platform (fun w => w_get_create_time w pid0) in
     match c with
     | BOk t => ret (set_create_time t p)
     | BAccessDenied => ret p
     | BNoSuchProcess => raise NoSuchProcess
     end)%mon.

(** [Process.is_running]. *)
Definition is_running : Method bool :=
  (let* p := self in
   if _gone p then ret false
   else
     try_except
       (let* q := lift (Process_init (pid p)) in
        ret (__eq__ p (PyProcess q)))
       (fun e => match e with
                 | NoSuchProcess => Some (set_self set_gone ;;; ret false)
                 | _ => None
                 end))%mon.

(** The decorator [_assert_pid_not_reused]. *)
Definition _assert_pid_not_reused {A : Type} (f : Method A) : Method A :=
  (let* r := is_running in
   if negb r then raise NoSuchProcess else f)%mon.

(** [Process.send_signal]: [os.kill] on POSIX; elsewhere only [SIGTERM]
    is accepted and handed to [_proc.kill_process()], which raises what
    the platform signals. *)
Definition SIGTERM : Z := 15.

Definition send_signal (sig : Z) : Method unit :=
  _assert_pid_not_reused
    (if posix plat then
       let* p := self in
       let* k := lift (platform (fun w => w_kill w (pid p) sig)) in
       match k with
       | Killed => ret tt
       | ESRCH => set_self set_gone ;;; raise NoSuchProcess
       | EPERM => raise AccessDenied
       end
     else if sig =? SIGTERM then
       let* p := self in
       let* k := lift (platform (fun w => w_kill w (pid p) sig)) in
       match k with
       | Killed => ret tt
       | ESRCH => raise NoSuchProcess
       | EPERM => raise AccessDenied
       end
     else raise ValueError)%mon.

(** ** The registry and [process_iter] *)

(** [for x in l: body(x)]. *)
Fixpoint for_each {S A : Type} (l : list A) (body : A -> Mon S unit) : Mon S unit :=
  match l with
  | [] => ret tt
  | x :: l' => (body x ;;; for_each l' body)%mon
  end.

(** A loop of a generator: what the body yields for each element, in
    order. An exception the body lets through ends the generator. *)
Fixpoint for_yield {S A B : Type} (l : list A) (body : A -> Mon S (list B))
  : Mon S (list B) :=
  match l with
  | [] => ret []
  | x :: l' =>
      (let* ys := body x in
       let* zs := for_yield l' body in
       ret (ys ++ zs))%mon
  end.

(** The helpers [add] and [remove] of [process_iter]. *)
Definition add (pid0 : Z) : M Process :=
  (let* proc := Process_init pid0 in
   modify (fun s => set_pmap (<[pid proc := proc]> (_pmap s)) s) ;;;
   ret proc)%mon.

Definition remove (pid0 : Z) : M unit :=
  modify (fun s => set_pmap (delete pid0 (_pmap s)) s).

(** The order of [sorted] on the pairs [(pid, proc)]: the pids decide, as
    no two pairs of the list have the same pid. *)
Definition by_pid : relation (Z * option Process) := fun x y => fst x <= fst y.

#[global] Instance by_pid_dec (x y : Z * option Process) : Decision (by_pid x y) :=
  Z_le_dec (fst x) (fst y).

(** The [try] block of the loop of [process_iter] for one [(pid, proc)];
    [r] is what [proc.is_running()] answered, for a cached [proc]. *)
Definition process_iter_try (pid0 : Z) (proc : option Process) (r : Res bool)
  : M (list (option Process)) :=
  match proc with
  | None => (let* p := add pid0 in ret [Some p])%mon
  | Some pr =>
      match r with
      | Ok true => ret [Some pr]
      | Ok false => (let* p := add pid0 in ret [Some p])%mon
      | Raise e => raise e
      end
  end.

(** The liveness check that opens the loop body for a cached [proc]. The
    cached [proc] is the very object the registry holds, so what
    [is_running] wrote to it shows in the registry and in [yield proc]. *)
Definition process_iter_check (pid0 : Z) (proc : option Process)
  : St -> Res bool * option Process * St :=
  fun s =>
    match proc with
    | None => (Ok false, None, s)
    | Some pr =>
        let '(r, pr', s1) := call pr is_running s in
        (r, Some pr', set_pmap (<[pid0 := pr']> (_pmap s1)) s1)
    end.

(** The loop body of [process_iter] with its two handlers. *)
Definition process_iter_step (item : Z * option Process)
  : M (list (option Process)) :=
  let '(pid0, proc) := item in
  fun s =>
    let '(r, proc', s1) := process_iter_check pid0 proc s in
    try_except (process_iter_try pid0 proc' r)
      (fun e => match e with
                | NoSuchProcess => Some (remove pid0 ;;; ret [])%mon
                | AccessDenied => Some (ret [proc'])
                | _ => None
                end) s1.

(** [process_iter], run to its end: the sequence it yields. *)
Definition process_iter : M (list (option Process)) :=
  (let* pids := platform w_get_pids in
   let* s := get in
   let a : gset Z := list_to_set pids in
   let b : gset Z := dom (_pmap s) in
   let new_pids := a ∖ b in
   let gone_pids := b ∖ a in
   for_each (elements gone_pids) remove ;;;
   let* s := get in
   let items :=
     merge_sort by_pid
       (((fun kv => (fst kv, Some (snd kv))) <$> map_to_list (_pmap s)) ++
        ((fun k => (k, None)) <$> elements new_pids)) in
   for_yield items process_iter_step)%mon.

(** ** CPU accounting *)

Definition set_last_cpu (t : cputimes) (s : St) : St :=
  mkSt (tick s) (_pmap s) t (_last_per_cpu_times s)
       (_last_cpu_times_2 s) (_last_per_cpu_times_2 s).

Definition set_last_per_cpu (ts : list cputimes) (s : St) : St :=
  mkSt (tick s) (_pmap s) (_last_cpu_times s) ts
       (_last_cpu_times_2 s) (_last_per_cpu_times_2 s).

Definition set_last_cpu_2 (t : cputimes) (s : St) : St :=
  mkSt (tick s) (_pmap s) (_last_cpu_times s) (_last_per_cpu_times s)
       t (_last_per_cpu_times_2 s).

Definition set_last_per_cpu_2 (ts : list cputimes) (s : St) : St :=
  mkSt (tick s) (_pmap s) (_last_cpu_times s) (_last_per_cpu_times s)
       (_last_cpu_times_2 s) ts.

(** [cpu_times(percpu=False)] and [cpu_times(percpu=True)]. *)
Definition cpu_times : M cputimes := platform w_get_system_cpu_times.
Definition per_cpu_times : M (list cputimes) := platform w_get_system_per_cpu_times.

(** [time.sleep(interval)]: the world moves on. *)
Definition sleep : M unit := platform (fun _ => tt).

(** The state the import of the module leaves: the registry is empty and
    both snapshot windows hold the samples read at import. *)
Definition import_psutil : St :=
  let t := w_get_system_cpu_times (env 0) in
  let ts := w_get_system_per_cpu_times (env 1) in
  mkSt 2 ∅ t ts t ts.

Definition blocking (interval : option Q) : bool :=
  match interval with
  | Some i => Qlt_bool 0 i
  | None => false
  end.

(** [calculate] of [cpu_percent]. *)
Definition cpu_percent_calculate (t1 t2 : cputimes) : Res Q :=
  let t1_all := sum_floats (fields t1) in
  let t1_busy := (t1_all - idle t1)%Q in
  let t2_all := sum_floats (fields t2) in
  let t2_busy := (t2_all - idle t2)%Q in
  if Qle_bool t2_busy t1_busy then Ok 0%Q
  else
    let busy_delta := (t2_busy - t1_busy)%Q in
    let all_delta := (t2_all - t1_all)%Q in
    match py_div busy_delta all_delta with
    | Ok q => Ok (round1 (q * 100))
    | Raise e => Raise e
    end.

(** [for t1, t2 in zip(tot1, tot2): ret.append(calculate(t1, t2))]. *)
Fixpoint zip_calculate {A : Type} (calculate : cputimes -> cputimes -> Res A)
    (tot1 tot2 : list cputimes) : Res (list A) :=
  match tot1, tot2 with
  | t1 :: tot1', t2 :: tot2' =>
      match calculate t1 t2 with
      | Ok x =>
          match zip_calculate calculate tot1' tot2' with
          | Ok xs => Ok (x :: xs)
          | Raise e => Raise e
          end
      | Raise e => Raise e
      end
  | _, _ => Ok []
  end.

(** [cpu_percent(interval, percpu)]: a float, or a list of floats. *)
Definition cpu_percent (interval : option Q) (percpu : bool) : M (Q + list Q) :=
  (if negb percpu then
     let* t1 :=
       (if blocking interval
        then let* t := cpu_times in sleep ;;; ret t
        else let* s := get in ret (_last_cpu_times s)) in
     let* t2 := cpu_times in
     modify (set_last_cpu t2) ;;;
     let* r := lift_res (cpu_percent_calculate t1 t2) in
     ret (inl r)
   else
     let* tot1 :=
       (if blocking interval
        then let* t := per_cpu_times in sleep ;;; ret t
        else let* s := get in ret (_last_per_cpu_times s)) in
     let* tot2 := per_cpu_times in
     modify (set_last_per_cpu tot2) ;;;
     let* r := lift_res (zip_calculate cpu_percent_calculate tot1 tot2) in
     ret (inr r))%mon.

(** One field of [calculate] of [cpu_times_percent]. *)
Definition field_percent (all_delta f1 f2 : Q) : Q :=
  let field_delta := (f2 - f1)%Q in
  let field_perc :=
    match py_div (100 * field_delta) all_delta with
    | Ok q => q
    | Raise _ => 0%Q
    end in
  let field_perc := round1 field_perc in
  if WINDOWS plat then
    if Qlt_bool 100 field_perc then 100%Q
    else if Qlt_bool field_perc 0 then 0%Q
    else field_perc
  else field_perc.

(** [calculate] of [cpu_times_percent]: one percentage per field of [t1];
    both samples are namedtuples of one platform, with the same fields. *)
Definition cpu_times_percent_calculate (t1 t2 : cputimes) : Res cputimes :=
  let all_delta := (sum_floats (fields t2) - sum_floats (fields t1))%Q in
  Ok (mkCpuTimes
        (field_percent all_delta (user t1) (user t2))
        (field_percent all_delta (system t1) (system t2))
        (field_percent all_delta (idle t1) (idle t2))
        (zip_with (field_percent all_delta) (others t1) (others t2))).

(** [cpu_times_percent(interval, percpu)]. *)
Definition cpu_times_percent (interval : option Q) (percpu : bool)
  : M (cputimes + list cputimes) :=
  (if negb percpu then
     let* t1 :=
       (if blocking interval
        then let* t := cpu_times in sleep ;;; ret t
        else let* s := get in ret (_last_cpu_times_2 s)) in
     let* t2 := cpu_times in
     modify (set_last_cpu_2 t2) ;;;
     let* r := lift_res (cpu_times_percent_calculate t1 t2) in
     ret (inl r)
   else
     let* tot1 :=
       (if blocking interval
        then let* t := per_cpu_times in sleep ;;; ret t
        else let* s := get in ret (_last_per_cpu_times_2 s)) in
     let* tot2 := per_cpu_times in
     modify (set_last_per_cpu_2 tot2) ;;;
     let* r := lift_res (zip_calculate cpu_times_percent_calculate tot1 tot2) in
     ret (inr r))%mon.

(** [self._proc.get_cpu_times()]. *)
Definition proc_get_cpu_times : Method pcputimes :=
  (let* p := self in
   let* b := lift (platform (fun w => w_get_cpu_times w (pid p))) in
   of_backend b)%mon.

(** The end of [Process.get_cpu_percent], from [delta_proc] on. *)
Definition get_cpu_percent_deltas (st1 : Q) (pt1 : pcputimes) (st2 : Q) (pt2 : pcputimes)
  : Method Q :=
  let delta_proc := ((p_user pt2 - p_user pt1) + (p_system pt2 - p_system pt1))%Q in
  let delta_time := (st2 - st1)%Q in
  (set_self (set_last_cpu_times st2 pt2) ;;;
   match py_div delta_proc delta_time with
   | Raise _ => ret 0%Q
   | Ok q =>
       let overall_percent := (q * 100)%Q in
       let single_cpu_percent := (overall_percent * inject_Z (num_cpus plat))%Q in
       if negb (posix plat) && Qlt_bool 100 single_cpu_percent then ret 100%Q
       else ret (round1 single_cpu_percent)
   end)%mon.

(** [Process.get_cpu_percent(interval)]. *)
Definition get_cpu_percent (interval : option Q) : Method Q :=
  (if blocking interval then
     let* t1 := lift cpu_times in
     let st1 := sum_floats (fields t1) in
     let* pt1 := proc_get_cpu_times in
     lift sleep ;;;
     let* t2 := lift cpu_times in
     let st2 := sum_floats (fields t2) in
     let* pt2 := proc_get_cpu_times in
     get_cpu_percent_deltas st1 pt1 st2 pt2
   else
     let* p := self in
     let st1 := _last_sys_cpu_times p in
     let pt1 := _last_proc_cpu_times p in
     let* t2 := lift cpu_times in
     let st2 := sum_floats (fields t2) in
     let* pt2 := proc_get_cpu_times in
     match st1, pt1 with
     | Some st1, Some pt1 => get_cpu_percent_deltas st1 pt1 st2 pt2
     | _, _ => set_self (set_last_cpu_times st2 pt2) ;;; ret 0%Q
     end)%mon.

(** ** Descendants: [Process.get_children] *)

(** [for x in l: acc = body(x, acc)]. *)
Fixpoint for_fold {S A B : Type} (l : list A) (body : A -> B -> Mon S B) (acc : B)
  : Mon S B :=
  match l with
  | [] => ret acc
  | x :: l' => (let* acc' := body x acc in for_fold l' body acc')%mon
  end.

(** The cached property [Process.create_time]: the value of the instance
    dictionary when there is one, else the platform's, stored on success. *)
Definition get_create_time : Method Z :=
  (let* p := self in
   match create_time p with
   | Some t => ret t
   | None =>
       let* b := lift (platform (fun w => w_get_create_time w (pid p))) in
       let* t := of_backend b in
       set_self (set_create_time t) ;;; ret t
   end)%mon.

(** The property [Process.ppid]. *)
Definition ppid : Method Z :=
  (let* p := self in
   if posix plat then
     let* b := lift (platform (fun w => w_get_ppid w (pid p))) in
     of_backend b
   else
     match _ppid p with
     | Some v => ret v
     | None =>
         let* b := lift (platform (fun w => w_get_ppid w (pid p))) in
         let* v := of_backend b in
         set_self (set_ppid v) ;;; ret v
     end)%mon.

(** A method [m] called, inside a method of [self], on another object
    [p]. When [p] is an object the registry holds ([cached]), what [m]
    writes to it shows in the registry. The answer comes with [p] as the
    call left it. *)
Definition call_other {A : Type} (cached : bool) (p : Process) (m : Method A)
  : Method (A * Process) :=
  fun ps =>
    let '(r, (p', s')) := m (p, snd ps) in
    let s'' := if cached then set_pmap (<[pid p' := p']> (_pmap s')) s' else s' in
    match r with
    | Ok a => (Ok (a, p'), (fst ps, s''))
    | Raise e => (Raise e, (fst ps, s''))
    end.

Definition except_NoSuchProcess {S A : Type} (h : Mon S A) (e : Exn) : option (Mon S A) :=
  match e with
  | NoSuchProcess => Some h
  | _ => None
  end.

(** [self.create_time <= child.create_time], with [child] as the
    comparison left it. *)
Definition not_older (cached : bool) (child : Process) : Method (bool * Process) :=
  (let* sc := get_create_time in
   let* cc := call_other cached child get_create_time in
   ret (sc <=? fst cc, snd cc))%mon.

(** Direct children, for a platform without [get_ppid_map]: the body of
    the loop over what [process_iter()] yields. *)
Definition children_slow (o : option Process) : Method (list Process) :=
  match o with
  | None => raise AttributeError
  | Some p =>
      try_except
        (let* pp := call_other true p ppid in
         let* slf := self in
         if fst pp =? pid slf then
           let* r := not_older true (snd pp) in
           if fst r then ret [snd r] else ret []
         else ret [])%mon
        (except_NoSuchProcess (ret []))
  end.

(** Direct children, from the items [(pid, ppid)] of [get_ppid_map()]. *)
Definition children_fast (item : Z * Z) : Method (list Process) :=
  (let* slf := self in
   if snd item =? pid slf then
     try_except
       (let* child := lift (Process_init (fst item)) in
        let* r := not_older false child in
        if fst r then ret [snd r] else ret [])
       (except_NoSuchProcess (ret []))
   else ret [])%mon.

(** The appends [table[key].append(p)], in order, as pairs [(key, p)]. *)
Definition table_slow (o : option Process) : Method (list (Z * Process)) :=
  match o with
  | None => raise AttributeError
  | Some p =>
      try_except
        (let* pp := call_other true p ppid in ret [(fst pp, snd pp)])%mon
        (except_NoSuchProcess (ret []))
  end.

Definition table_fast (item : Z * Z) : Method (list (Z * Process)) :=
  try_except
    (let* p := lift (Process_init (fst item)) in ret [(snd item, p)])%mon
    (except_NoSuchProcess (ret [])).

(** [table[pid]]. *)
Definition table_get (table : list (Z * Process)) (k : Z) : list Process :=
  snd <$> filter (fun e => fst e = k) table.

(** The body of [for child in table[pid]]; [acc] is [(ret, checkpids)]. *)
Definition visit (cached : bool) (child : Process) (acc : list Process * list Z)
  : Method (list Process * list Z) :=
  (let* r := try_except
               (let* r := not_older cached child in ret (Some r))
               (except_NoSuchProcess (ret None)) in
   match r with
   | Some (true, child') =>
       ret (fst acc ++ [child'],
            if bool_decide (pid child' ∈ snd acc) then snd acc
            else snd acc ++ [pid child'])
   | _ => ret acc
   end)%mon.

(** [for pid in checkpids], a list that grows while the loop runs: the
    loop is at index [i]. It ends when [i] is past the end; the answer
    says so with [true], and [false] means [fuel] ran out first. *)
Fixpoint traverse (cached : bool) (table : list (Z * Process)) (fuel i : nat)
    (acc : list Process * list Z) : Method (list Process * list Z * bool) :=
  match snd acc !! i with
  | None => ret (acc, true)
  | Some pid0 =>
      match fuel with
      | O => ret (acc, false)
      | S fuel' =>
          (let* acc' := for_fold (table_get table pid0) (visit cached) acc in
           traverse cached table fuel' (S i) acc')%mon
      end
  end.

(** The table of [get_children(recursive=True)]: for every process, the
    pair of the parent pid read for it and its handle. *)
Definition build_table : Method (list (Z * Process)) :=
  (if negb (has_ppid_map plat) then
     let* ys := lift process_iter in
     for_yield ys table_slow
   else
     let* ppid_map := lift (platform w_get_ppid_map) in
     for_yield ppid_map table_fast)%mon.

(** The descendants found in [table], breadth first from [self.pid]. *)
Definition descendants (table : list (Z * Process)) : Method (list Process) :=
  (let* slf := self in
   let* r := traverse (negb (has_ppid_map plat)) table
                      (S (length table)) 0 ([], [pid slf]) in
   ret (fst (fst r)))%mon.

(** [Process.get_children(recursive)]. *)
Definition get_children (recursive : bool) : Method (list Process) :=
  _assert_pid_not_reused
    (if negb recursive then
       if negb (has_ppid_map plat) then
         let* ys := lift process_iter in
         for_yield ys children_slow
       else
         let* ppid_map := lift (platform w_get_ppid_map) in
         for_yield ppid_map children_fast
     else
       let* table := build_table in
       descendants table)%mon.

(** ** Waiting for processes: [wait_procs] *)

(** Sets of [Process] objects, hashed by [__hash__] and compared by
    [__eq__], as lists without two equal members. *)
Definition set_mem (p : Process) (l : list Process) : bool :=
  existsb (fun q => __eq__ q (PyProcess p)) l.

Definition set_add (p : Process) (l : list Process) : list Process :=
  if set_mem p l then l else l ++ [p].

Definition set_of (l : list Process) : list Process :=
  foldl (fun acc p => set_add p acc) [] l.

Definition set_diff (a g : list Process) : list Process :=
  filter (fun p => set_mem p g = false) a.

(** [Process.wait(timeout)]. *)
Definition wait (timeout : option Q) : Method (option Z) :=
  (if match timeout with
      | Some t => negb (Qle_bool 0 t)
      | None => false
      end
   then raise ValueError
   else
     let* p := self in
     let* w := lift (platform (fun w => w_process_wait w (pid p) timeout)) in
     match w with
     | Exited rc => ret rc
     | WaitTimeout => raise TimeoutExpired
     end)%mon.

(** [assert_gone(proc, timeout)] of [wait_procs]. [callback] says whether
    a callback was passed; [acc] is the set [gone] and the handles the
    callback was called on, in order. *)
Definition assert_gone (callback : bool) (proc : Process) (timeout : Q)
    (acc : list Process * list Process) : M (list Process * list Process) :=
  fun s =>
    let '(r, proc1, s1) := call proc (wait (Some timeout)) s in
    match r with
    | Raise TimeoutExpired => (Ok acc, s1)
    | Raise e => (Raise e, s1)
    | Ok retcode =>
        let '(running, proc2, s2) :=
          match retcode with
          | Some _ => (Ok false, proc1, s1)
          | None => call proc1 is_running s1
          end in
        match running with
        | Raise e => (Raise e, s2)
        | Ok true => (Ok acc, s2)
        | Ok false =>
            let proc3 := set_retcode retcode proc2 in
            (Ok (set_add proc3 (fst acc),
                 if callback then snd acc ++ [proc3] else snd acc), s2)
        end
    end.

(** [min(a, b)]. *)
Definition py_min (a b : Q) : Q := if Qlt_bool b a then b else a.

(** [1.0 / (len(alive) - len(gone))], or [1.0] on [ZeroDivisionError]. *)
Definition max_timeout_of (alive gone : list Process) : Q :=
  match py_div 1 (inject_Z (Z.of_nat (length alive) - Z.of_nat (length gone))) with
  | Ok q => q
  | Raise _ => 1%Q
  end.

(** What the loops of [wait_procs] carry along: the variable [timeout],
    the set [gone], and the handles the callback was called on. *)
Definition WaitSt : Type := option Q * (list Process * list Process).

(** [for proc in alive: ...] of the main loop; [rest] is what is left of
    [alive] to go through. The loop ends early on [break]. *)
Fixpoint sweep (callback : bool) (deadline : Q) (alive rest : list Process)
    (st : WaitSt) : M WaitSt :=
  match rest with
  | [] => ret st
  | proc :: rest' =>
      let max_timeout := max_timeout_of alive (fst (snd st)) in
      match fst st with
      | Some _ =>
          (let* now := platform w_timer in
           let timeout := py_min (deadline - now) max_timeout in
           if Qle_bool timeout 0 then ret (Some timeout, snd st)
           else
             let* acc := assert_gone callback proc timeout (snd st) in
             sweep callback deadline alive rest' (Some timeout, acc))%mon
      | None =>
          (let* acc := assert_gone callback proc max_timeout (snd st) in
           sweep callback deadline alive rest' (None, acc))%mon
      end
  end.

Definition timed_out (timeout : option Q) : bool :=
  match timeout with
  | Some t => Qle_bool t 0
  | None => false
  end.

(** [while alive: ...]. The answer is [alive] and the carried state when
    the loop ends, and [None] when [fuel] sweeps were not enough. *)
Fixpoint wait_loop (fuel : nat) (callback : bool) (deadline : Q)
    (alive : list Process) (st : WaitSt) : M (option (list Process * WaitSt)) :=
  match alive with
  | [] => ret (Some (alive, st))
  | _ :: _ =>
      if timed_out (fst st) then ret (Some (alive, st))
      else
        match fuel with
        | O => ret None
        | S fuel' =>
            (let* st' := sweep callback deadline alive alive st in
             wait_loop fuel' callback deadline
                       (set_diff alive (fst (snd st'))) st')%mon
        end
  end.

(** The last attempt: [for proc in alive: assert_gone(proc, 0)]. *)
Definition last_sweep (callback : bool) (alive : list Process)
    (acc : list Process * list Process) : M (list Process * list Process) :=
  for_fold alive (fun proc acc => assert_gone callback proc 0 acc) acc.

(** [wait_procs(procs, timeout, callback)]: the lists [gone] and [alive],
    and the handles the callback was called on. *)
Definition wait_procs (fuel : nat) (procs : list Process) (timeout : option Q)
    (callback : bool) : M (option (list Process * list Process * list Process)) :=
  (if match timeout with
      | Some t => negb (Qle_bool 0 t)
      | None => false
      end
   then raise ValueError
   else
     let alive := set_of procs in
     let* deadline :=
       (match timeout with
        | Some t => let* now := platform w_timer in ret (now + t)%Q
        | None => ret 0%Q
        end) in
     let* r := wait_loop fuel callback deadline alive (timeout, ([], [])) in
     match r with
     | None => ret None
     | Some (alive, st) =>
         match alive with
         | [] => ret (Some (fst (snd st), alive, snd (snd st)))
         | _ :: _ =>
             let* acc := last_sweep callback alive (snd st) in
             ret (Some (fst acc, set_diff alive (fst acc), snd acc))
         end
     end)%mon.

End Model.

(* ================================================================== *)
(** * A world from a table of processes                                 *)
(* ================================================================== *)

Definition no_cpu : cputimes := mkCpuTimes 0 0 0 [].

(** A world with the live processes [procs], given as (pid, creation
    time, parent pid). *)
Fixpoint lookup_proc (procs : list (Z * Z * Z)) (k : Z) : option (Z * Z) :=
  match procs with
  | [] => None
  | (k', t, pp) :: rest => if k' =? k then Some (t, pp) else lookup_proc rest k
  end.

Definition world_of (procs : list (Z * Z * Z)) : World :=
  mkWorld
    ((fun x => fst (fst x)) <$> procs)
    (fun k => match lookup_proc procs k with Some _ => BOk tt | None => BNoSuchProcess end)
    (fun k => match lookup_proc procs k with Some (t, _) => BOk t | None => BNoSuchProcess end)
    (fun k => match lookup_proc procs k with Some (_, pp) => BOk pp | None => BNoSuchProcess end)
    ((fun x => (fst (fst x), snd x)) <$> procs)
    (fun k _ => match lookup_proc procs k with Some _ => Killed | None => ESRCH end)
    (fun k _ => match lookup_proc procs k with Some _ => WaitTimeout | None => Exited None end)
    0%Q no_cpu [] (fun _ => BNoSuchProcess).

Definition st0 : St := mkSt 0 ∅ no_cpu [] no_cpu [].

Definition linux : Platform := mkPlatform true false false 4.

(* ================================================================== *)
(** * The vocabulary of the statements, and the worlds of the examples  *)
(* ================================================================== *)

(** Process 7, created at time 100 by process 1, stays as it is. *)
Definition env_static7 : nat -> World := fun _ => world_of [(1, 10, 0); (7, 100, 1)].

Definition handle7 : Process := mkProcess 7 (Some 100) false None None None None.

(** The pid 7 reused by a process created at time 200. *)
Definition handle7' : Process := mkProcess 7 (Some 200) false None None None None.

(** The pid 7 is first held by the process created at time 100 and then,
    from the second platform call on, by one created at time 200. *)
Definition env_reuse7 : nat -> World := fun n =>
  match n with
  | O => world_of [(1, 10, 0); (7, 100, 1)]
  | _ => world_of [(1, 10, 0); (7, 200, 1)]
  end.

(** Process 7 exits: the handle is marked gone, and stays so when the pid
    comes back, even with the old creation time. *)
Definition env_exit7 : nat -> World := fun n =>
  match n with
  | O => world_of [(1, 10, 0)]
  | _ => world_of [(1, 10, 0); (7, 100, 1)]
  end.

(** Every key of the registry is the pid of its handle, and no key is
    negative: [add] is the only writer. *)
Definition registry_ok (m : gmap Z Process) : Prop :=
  forall k p, m !! k = Some p -> pid p = k /\ 0 <= k.

(** The parts of one run of [process_iter] from the state [s]: the live
    pids the platform lists, the registry once the vanished pids are
    evicted, and the sorted pairs the loop goes through. *)
Definition live_pids (env : nat -> World) (s : St) : gset Z :=
  list_to_set (w_get_pids (env (tick s))).

Definition evicted (env : nat -> World) (s : St) : gmap Z Process :=
  foldl (fun m k => delete k m) (_pmap s)
        (elements (dom (_pmap s) ∖ live_pids env s)).

Definition unsorted_items (env : nat -> World) (s : St) : list (Z * option Process) :=
  ((fun kv => (fst kv, Some (snd kv))) <$> map_to_list (evicted env s)) ++
  ((fun k => (k, None)) <$> elements (live_pids env s ∖ dom (_pmap s))).

Definition items (env : nat -> World) (s : St) : list (Z * option Process) :=
  merge_sort by_pid (unsorted_items env s).

(** The platform lists the pids 1 and 7, and process 7 is gone by the time
    it is probed: the enumeration yields the handle of process 1 alone. *)
Definition env_vanish7 : nat -> World := fun n =>
  match n with
  | O => world_of [(1, 10, 0); (7, 100, 1)]
  | _ => world_of [(1, 10, 0)]
  end.

(** The platform refuses to open process 7: the cached handle is yielded. *)
Definition world_denied7 : World :=
  mkWorld [7] (fun _ => BAccessDenied) (fun _ => BOk 100) (fun _ => BOk 1) []
          (fun _ _ => EPERM) (fun _ _ => WaitTimeout) 0%Q no_cpu []
          (fun _ => BAccessDenied).







(** The scenario of two enumerations around a change of the live set:
    from [{5, 7}] to [{7, 9}]. The second run evicts 5, yields the cached
    handle of 7 and a new handle for 9. *)
Definition env57_79 : nat -> World := fun n =>
  if (n <? 5)%nat then world_of [(5, 50, 1); (7, 70, 1)]
  else world_of [(7, 70, 1); (9, 90, 1)].

Definition pids_of (r : Res (list (option Process))) : list (option Z) :=
  match r with
  | Ok ys => List.map (option_map pid) ys
  | Raise _ => []
  end.

(** The import of the module reads the system times first: the first
    call finds a stored sample in either window. *)
Definition cpu_world (t : cputimes) (pt : pcputimes) : World :=
  mkWorld [7] (fun _ => BOk tt) (fun _ => BOk 100) (fun _ => BOk 1) []
          (fun _ _ => Killed) (fun _ _ => WaitTimeout) 0%Q t [t]
          (fun _ => BOk pt).

(** At import no CPU time has been spent; by the first call one second
    was spent busy and one idle. *)
Definition env_half_busy : nat -> World := fun n =>
  match n with
  | O | 1%nat => cpu_world (mkCpuTimes 0 0 0 []) (mkPCpuTimes 0 0)
  | _ => cpu_world (mkCpuTimes 1 0 1 []) (mkPCpuTimes 0 0)
  end.

(** The system spent 1000 time units, and the process is read a moment
    later with 1001 units to its name. *)
Definition env_skew : nat -> World := fun _ =>
  cpu_world (mkCpuTimes 1000 0 0 []) (mkPCpuTimes 1001 0).

Definition sampled7 : Process :=
  mkProcess 7 (Some 100) false None (Some 0%Q) (Some (mkPCpuTimes 0 0)) None.

Definition fresh7 : Process := mkProcess 7 (Some 100) false None None None None.

(** On Windows the process times read are smaller than the stored ones. *)
Definition windows : Platform := mkPlatform false true true 4.

Definition env_regress : nat -> World := fun _ =>
  cpu_world (mkCpuTimes 10 0 0 []) (mkPCpuTimes 1 1).

Definition sampled7' : Process :=
  mkProcess 7 (Some 100) false None (Some 0%Q) (Some (mkPCpuTimes 2 2)) None.

(** Once cached, the creation time of a handle stays. *)
Definition ct_stable (p p' : Process) : Prop :=
  forall sc, create_time p = Some sc -> create_time p' = Some sc.

(** The handle [c] is not older than the handle [slf]. *)
Definition not_older_than (slf c : Process) : Prop :=
  exists sc cc, create_time slf = Some sc /\ create_time c = Some cc /\ sc <= cc.

(** What the methods at hand keep of [self]: its pid and, once cached,
    its creation time. *)
Definition same_handle (p p' : Process) : Prop := pid p' = pid p /\ ct_stable p p'.

(** What holds of [(ret, checkpids)] all along the traversal of [table]
    from the pid [root], for the target [p]: every handle returned is not
    older than the target and was filed under a pid of [checkpids]; every
    pid of [checkpids] is the root or the pid of a handle returned; and
    [checkpids] lists pids of [table], each once. *)
Definition trav_inv (table : list (Z * Process)) (root : Z) (p : Process)
    (acc : list Process * list Z) : Prop :=
  Forall (not_older_than p) (fst acc) /\
  (forall c, c ∈ fst acc ->
             exists k c0, (k, c0) ∈ table /\ pid c0 = pid c /\ k ∈ snd acc) /\
  (forall k, k ∈ snd acc -> k = root \/ exists c, c ∈ fst acc /\ pid c = k) /\
  NoDup (snd acc) /\
  (forall k, k ∈ snd acc -> k ∈ root :: ((fun e => pid (snd e)) <$> table)).

(** The pids below [x] in the parent relation recorded in [table]. *)
Inductive below (table : list (Z * Process)) (x : Z) : Z -> Prop :=
| below_child (c : Process) :
    (x, c) ∈ table -> below table x (pid c)
| below_step (k : Z) (c : Process) :
    below table x k -> (k, c) ∈ table -> below table x (pid c).

(** Process 3 was created at time 20, before process 2, which is its
    parent by pid and was created at time 30: the pid 2 was reused. *)
Definition world_reused_parent : World := world_of [(1, 10, 0); (2, 30, 1); (3, 20, 2)].

Definition handle1 : Process := mkProcess 1 (Some 10) false None None None None.

(** Process 5, the child of 2 and the parent of 6, is no longer live. *)
Definition world_lost5 : World :=
  world_of [(1, 10, 0); (2, 20, 1); (3, 21, 1); (4, 22, 1); (6, 40, 5)].

Definition children_of_1 : Res (list Process) * (Process * St) :=
  get_children (fun _ => world_lost5) linux true (handle1, st0).

Definition ok_list {A : Type} (r : Res (list A)) : list A :=
  match r with
  | Ok l => l
  | Raise _ => []
  end.

(** Process 7 is not a child of the caller: the wait returns at once with
    no exit code, and process 7 is still there. *)
Definition world_wait_none : World :=
  mkWorld [7] (fun _ => BOk tt) (fun _ => BOk 100) (fun _ => BOk 1) []
          (fun _ _ => Killed) (fun _ _ => Exited None) 0%Q no_cpu []
          (fun _ => BNoSuchProcess).

(** What [__eq__] compares. *)
Definition key (p : Process) : Z * option Z := (pid p, create_time p).

(** What holds of [gone] all along, for the input set [a]: no two equal
    members, every member equal to one of [a], and every member with a
    [retcode]. *)
Definition gone_ok (a gone : list Process) : Prop :=
  NoDup (key <$> gone) /\
  (forall k, k ∈ key <$> gone -> k ∈ key <$> a) /\
  Forall (fun g => retcode g <> None) gone.

Definition handle10 : Process := mkProcess 10 (Some 1) false None None None None.
Definition handle20 : Process := mkProcess 20 (Some 2) false None None None None.
Definition handle30 : Process := mkProcess 30 (Some 3) false None None None None.

(** The processes 10 and 30 stay, process 20 exits before the third
    platform call, and the timer advances by a quarter at every call. *)
Definition env_exit20 : nat -> World := fun n =>
  let w := world_of (if (n <? 3)%nat then [(10, 1, 0); (20, 2, 0); (30, 3, 0)]
                     else [(10, 1, 0); (30, 3, 0)]) in
  mkWorld (w_get_pids w) (w_Process w) (w_get_create_time w) (w_get_ppid w)
          (w_get_ppid_map w) (w_kill w) (w_process_wait w)
          (inject_Z (Z.of_nat n) / 4)%Q no_cpu [] (fun _ => BNoSuchProcess).

(** The run of the scenario above, and the two lists it returns. *)
Definition run20 : Res (option (list Process * list Process * list Process)) * St :=
  wait_procs env_exit20 20 [handle10; handle20; handle30] (Some 2%Q) true st0.

Definition returned20 : list Process * list Process * list Process :=
  match fst run20 with
  | Ok (Some r) => r
  | _ => ([], [], [])
  end.

(* ================================================================== *)
(** * Further methods of [Process]: signals and the parent              *)
(* ================================================================== *)

(** [signal.SIGKILL], [signal.SIGSTOP] and [signal.SIGCONT], with their
    numbers on Linux. *)
Definition SIGKILL : Z := 9.
Definition SIGSTOP : Z := 19.
Definition SIGCONT : Z := 18.

Section Methods.

Variable env : nat -> World.
Variable plat : Platform.

(** [self._proc.kill_process()], the call [send_signal] makes off POSIX. *)
Definition kill_process : Method unit :=
  (let* p := self in
   let* k := lift (platform env (fun w => w_kill w (pid p) SIGTERM)) in
   match k with
   | Killed => ret tt
   | ESRCH => raise NoSuchProcess
   | EPERM => raise AccessDenied
   end)%mon.

(** [Process.terminate]. *)
Definition terminate : Method unit := send_signal env plat SIGTERM.

(** [Process.kill]. *)
Definition kill : Method unit :=
  _assert_pid_not_reused env
    (if posix plat then send_signal env plat SIGKILL else kill_process).

(** Whether the platform's process class has [suspend_process] and
    [resume_process], and what these do when it has them. *)
Variable has_suspend_process has_resume_process : bool.
Variable suspend_process resume_process : Method unit.

(** [Process.suspend] and [Process.resume]. *)
Definition suspend : Method unit :=
  _assert_pid_not_reused env
    (if has_suspend_process then suspend_process
     else send_signal env plat SIGSTOP).

Definition resume : Method unit :=
  _assert_pid_not_reused env
    (if has_resume_process then resume_process
     else send_signal env plat SIGCONT).

(** The property [Process.parent]: [Some] handle, or [None]. The platform
    answers [get_ppid()] with an integer, so that [ppid is not None]. *)
Definition parent : Method (option Process) :=
  _assert_pid_not_reused env
    (let* pp := ppid env plat in
     try_except
       (let* parent := lift (Process_init env pp) in
        let* pc := call_other false parent (get_create_time env) in
        let* sc := get_create_time env in
        if fst pc <=? sc then ret (Some (snd pc)) else ret None)
       (except_NoSuchProcess (ret None)))%mon.

End Methods.

(** Process 7 is there while its identity is checked and has exited by
    the time the signal is sent. *)
Definition env_exit7_late : nat -> World := fun n =>
  if (n <? 2)%nat then world_of [(1, 10, 0); (7, 100, 1)]
  else world_of [(1, 10, 0)].

(* ================================================================== *)
(** * [Process.as_dict]                                                 *)
(* ================================================================== *)

(** What ends the retrieval of an attribute, and [as_dict] itself: the
    exceptions of psutil, and two of Python's. *)
Inductive PyExn : Type :=
| Psutil (e : Exn)
| NotImplementedError
| IndexError.

Inductive Outcome (A : Type) : Type :=
| Returned (a : A)
| Raised (e : PyExn).
Arguments Returned {A} a.
Arguments Raised {A} e.

Definition excluded_names : list string :=
  ["send_signal"; "suspend"; "resume"; "terminate"; "kill"; "wait";
   "is_running"; "as_dict"; "parent"; "get_children"; "nice";
   "get_rlimit"; "getcwd"]%string.

(** The three tests that skip a name. *)
Definition skipped (name : string) : bool :=
  String.prefix "_" name || String.prefix "set_" name ||
  bool_decide (name ∈ excluded_names).

(** The character ['_']. *)
Definition underscore : Ascii.ascii := default Ascii.zero (String.get 0 "_").

(** The key a retrieved name is filed under; [name[3]] raises
    [IndexError] on the name ["get"]. *)
Definition dict_key (name : string) : Outcome string :=
  if String.prefix "get" name then
    match String.get 3 name with
    | None => Raised IndexError
    | Some c =>
        if Ascii.eqb c underscore
        then Returned (String.substring 4 (String.length name - 4) name)
        else if String.eqb name "getcwd" then Returned "cwd"%string
        else Returned name
    end
  else Returned name.

Section AsDict.

(** The values of the attributes, the state their retrieval works on,
    and the retrieval: [getattr(self, name)], called when it is callable,
    with [interval=0] for [get_cpu_percent]. *)
Context {V State : Type}.
Variable retrieve : string -> State -> Outcome V * State.

(** Whether [attrs] is a list with members, and [ad_value]. *)
Variable attrs_given : bool.
Variable ad_value : V.

(** [for name in names: ...], for [names] in the order the set is gone
    through. *)
Fixpoint as_dict_loop (names : list string) (retdict : gmap string V)
  : State -> Outcome (gmap string V) * State :=
  match names with
  | [] => fun st => (Returned retdict, st)
  | name :: names' =>
      if skipped name then as_dict_loop names' retdict
      else fun st =>
        let '(r, st') := retrieve name st in
        let file (ret : V) :=
          match dict_key name with
          | Returned k => as_dict_loop names' (<[k := ret]> retdict) st'
          | Raised e => (Raised e, st')
          end in
        match r with
        | Returned v => file v
        | Raised (Psutil AccessDenied) => file ad_value
        | Raised NotImplementedError =>
            if attrs_given then (Raised NotImplementedError, st')
            else as_dict_loop names' retdict st'
        | Raised e => (Raised e, st')
        end
  end.

End AsDict.

(** [Process.as_dict(attrs, ad_value)]: [dir_self] is [dir(self)], and
    [iter_set l] the order in which [set(l)] is gone through. *)
Definition as_dict {V State : Type} (retrieve : string -> State -> Outcome V * State)
    (iter_set : list string -> list string) (dir_self : list string)
    (attrs : list string) (ad_value : V) : State -> Outcome (gmap string V) * State :=
  let attrs_given := negb (bool_decide (attrs = [])) in
  as_dict_loop retrieve attrs_given ad_value
    (iter_set (if attrs_given then attrs else dir_self)) ∅.

(* ================================================================== *)
(** * System-wide counters: [disk_io_counters], [net_io_counters]       *)
(* ================================================================== *)

(** [zip] of the unpacked [rows]: the columns, as many as the shortest
    row has fields. *)
Fixpoint zip_star (rows : list (list Z)) : list (list Z) :=
  match rows with
  | [] => []
  | r :: rows' =>
      match rows' with
      | [] => (fun x => [x]) <$> r
      | _ :: _ => zip_with cons r (zip_star rows')
      end
  end.

(** [sum(x)]. *)
Definition py_sum (x : list Z) : Z := foldl Z.add 0 x.

Inductive IoExn : Type :=
| RuntimeError
| TypeError.

(** A namedtuple class of [n] fields, called on [fields]. *)
Definition namedtuple (n : nat) (fields : list Z) : IoExn + list Z :=
  if bool_decide (length fields = n) then inr fields else inl TypeError.

(** [for disk, fields in rawdict.items()]: the namedtuple of the unpacked
    [fields] replaces them. *)
Fixpoint io_counters_each (n : nat) (items : list (string * list Z))
    (rawdict : gmap string (list Z)) : IoExn + gmap string (list Z) :=
  match items with
  | [] => inr rawdict
  | (disk, fields) :: items' =>
      match namedtuple n fields with
      | inl e => inl e
      | inr t => io_counters_each n items' (<[disk := t]> rawdict)
      end
  end.

(** [disk_io_counters(perdisk)] for [n = 6] and [net_io_counters(pernic)]
    for [n = 8], on what the platform answers: one namedtuple, or a
    dictionary of them. *)
Definition io_counters (n : nat) (rawdict : gmap string (list Z)) (per : bool)
  : IoExn + (list Z + gmap string (list Z)) :=
  if bool_decide (rawdict = ∅) then inl RuntimeError
  else if per then
    match io_counters_each n (map_to_list rawdict) rawdict with
    | inl e => inl e
    | inr d => inr (inr d)
    end
  else
    match namedtuple n (py_sum <$> zip_star (map_to_list rawdict).*2) with
    | inl e => inl e
    | inr t => inr (inl t)
    end.

Definition disk_io_counters : gmap string (list Z) -> bool -> _ := io_counters 6.
Definition net_io_counters : gmap string (list Z) -> bool -> _ := io_counters 8.

(** The field [i] of a tuple of numbers, and its sum over the tuples of a
    dictionary. *)
Definition field (i : nat) (t : list Z) : Z := default 0 (t !! i).

Definition field_total (i : nat) (d : gmap string (list Z)) : Z :=
  py_sum (field i <$> (map_to_list d).*2).

(* ================================================================== *)
(** * [Process.get_memory_maps(grouped=True)]                           *)
(* ================================================================== *)

(** A mapped region as the platform gives it: address, permissions,
    path, and the numbers. *)
Record region : Type := mkRegion {
  addr : string;
  perms : string;
  path : string;
  nums : list Z;
}.

(** The body of [for tupl in it]; the regions of one platform have the
    same number of fields, which [map] adds up one by one. *)
Definition group_region (d : gmap string (list Z)) (tupl : region)
  : gmap string (list Z) :=
  match d !! path tupl with
  | Some old => <[path tupl := zip_with Z.add old (nums tupl)]> d
  | None => <[path tupl := nums tupl]> d
  end.

(** The dictionary [d] when the loop ends; the method returns one
    namedtuple of [path] and the numbers [d[path]] for each of its keys. *)
Definition get_memory_maps_grouped (it : list region) : gmap string (list Z) :=
  foldl group_region ∅ it.

(* ================================================================== *)
(** * [Process.name]                                                    *)
(* ================================================================== *)

(** The body of the cached property [name], on what [_proc.get_name()]
    and [self.cmdline] answer; [basename] is [os.path.basename]. *)
Definition process_name (posix : bool) (basename : string -> string)
    (get_name : string) (cmdline : Backend (list string)) : Res string :=
  if posix && bool_decide (15 <= String.length get_name)%nat then
    match cmdline with
    | BAccessDenied => Ok get_name
    | BNoSuchProcess => Raise NoSuchProcess
    | BOk [] => Ok get_name
    | BOk (arg0 :: _) =>
        let extended_name := basename arg0 in
        if String.prefix get_name extended_name then Ok extended_name
        else Ok get_name
    end
  else Ok get_name.

(* ================================================================== *)
(** * [Process.get_memory_percent]                                      *)
(* ================================================================== *)

(** [_TOTAL_PHYMEM or virtual_memory().total]: the cached total unless it
    is [None] or zero; [virtual_memory()] stores the total it reads. The
    answer is the total to divide by and the new [_TOTAL_PHYMEM]. *)
Definition total_phymem (_TOTAL_PHYMEM : option Z) (virtual_memory_total : Z)
  : Z * option Z :=
  match _TOTAL_PHYMEM with
  | Some t => if t =? 0 then (virtual_memory_total, Some virtual_memory_total)
              else (t, Some t)
  | None => (virtual_memory_total, Some virtual_memory_total)
  end.

(** [Process.get_memory_percent], for the resident set size [rss] the
    platform reports. *)
Definition get_memory_percent (rss : Z) (_TOTAL_PHYMEM : option Z)
    (virtual_memory_total : Z) : Q * option Z :=
  let '(total, cache) := total_phymem _TOTAL_PHYMEM virtual_memory_total in
  (match py_div (inject_Z rss) (inject_Z total) with
   | Ok q => (q * 100)%Q
   | Raise _ => 0%Q
   end, cache).

(** The evidence [get_children] has that [c] is a child of the process
    [root]: the platform answered [root] when asked for the parent of
    the pid of [c], or listed the pair in its map of parents, or the
    handle holds [root] as its cached parent pid. *)
Definition child_of (env : nat -> World) (root : Z) (c : Process) : Prop :=
  (exists n, w_get_ppid (env n) (pid c) = BOk root) \/
  (exists n, (pid c, root) ∈ w_get_ppid_map (env n)) \/
  _ppid c = Some root.

(** The world [w] with the creation time of every process denied. *)
Definition deny_create_time (w : World) : World :=
  mkWorld (w_get_pids w) (w_Process w) (fun _ => BAccessDenied) (w_get_ppid w)
          (w_get_ppid_map w) (w_kill w) (w_process_wait w) (w_timer w)
          (w_get_system_cpu_times w) (w_get_system_per_cpu_times w)
          (w_get_cpu_times w).

(** Process 7, created at time 100, lives on; its creation time is denied
    to the first two platform calls, those of one [Process(7)], and read
    from then on. *)
Definition env_denied_then_read7 : nat -> World := fun n =>
  if (n <? 2)%nat then deny_create_time (world_of [(1, 10, 0); (7, 100, 1)])
  else world_of [(1, 10, 0); (7, 100, 1)].

(** Process 7 lives on and can be opened, and its creation time is denied;
    the registry holds the handle built for it when the creation time
    could be read, with the CPU samples of an earlier call. *)
Definition env_ct_denied7 : nat -> World := fun _ =>
  deny_create_time (world_of [(7, 100, 1)]).

Definition st_cached7 : St := set_pmap {[7 := sampled7]} st0.

(** The handle [Process(7)] builds when the creation time is denied. *)
Definition blank7 : Process := mkProcess 7 None false None None None None.

(** Processes 10 and 20 have exited; process 30 is there for the five
    platform calls of the first sweep and has exited after them. *)
Definition env_exit30_late : nat -> World := fun n =>
  if (n <? 5)%nat then world_of [(30, 3, 0)] else world_of [].

(* ================================================================== *)
(** * Proof tools                                                       *)
(* ================================================================== *)

Ltac unmon :=
  unfold bind, ret, raise, try_except, lift, self, set_self, get, modify,
    platform, of_backend, call in *; simpl in *.

(** Case analysis on the next [match] or [if] scrutinee of the goal. *)
Ltac case_step :=
  match goal with
  | |- context [match ?x with _ => _ end] =>
      lazymatch x with
      | context [match _ with _ => _ end] => fail
      | _ => destruct x eqn:?
      end
  end; simpl in *.

(* ================================================================== *)
(** * Process identity: [__eq__], [__hash__], [__init__]                *)
(* ================================================================== *)

Lemma eq_Process_spec (p q : Process) :
  __eq__ p (PyProcess q) = true <-> pid p = pid q /\ create_time p = create_time q.
Proof.
  unfold __eq__. rewrite bool_decide_eq_true. split.
  - intros H. by inversion H.
  - intros [-> ->]. reflexivity.
Qed.

Lemma eq_Process_refl (p : Process) : __eq__ p (PyProcess p) = true.
Proof. by apply eq_Process_spec. Qed.

(** What [Process(pid)] returns is decided by the two platform answers it
    reads: the constructor's and the creation time's. *)
Lemma Process_init_Ok (env : nat -> World) (k : Z) (s s' : St) (p : Process) :
  Process_init env k s = (Ok p, s') ->
  0 <= k /\ pid p = k /\ _gone p = false /\ retcode p = None /\
  w_Process (env (tick s)) k = BOk tt /\
  s' = next_tick (next_tick s) /\
  match w_get_create_time (env (S (tick s))) k with
  | BOk t => create_time p = Some t
  | BAccessDenied => create_time p = None
  | BNoSuchProcess => False
  end.
Proof.
  unfold Process_init. destruct (k <? 0) eqn:Hk; unmon; [discriminate|].
  apply Z.ltb_ge in Hk.
  destruct (w_Process (env (tick s)) k) as [[]| |]; simpl; try discriminate.
  destruct (w_get_create_time (env (S (tick s))) k); simpl;
    intros H; inversion H; subst; simpl; auto 10.
Qed.

(** X22. Two handles compare equal exactly when their pids and their
    cached creation times are equal, a value that is not a Process never
    compares equal, and two handles built for one pid at two moments at
    which the platform gives the same answer for the creation time, the
    same value or a denial both times, compare equal. *)
Theorem X22_eq_iff_pid_and_create_time
    (env : nat -> World) (k : Z) (s1 s2 s1' s2' : St) (p1 p2 : Process) :
  (forall p q : Process,
      __eq__ p (PyProcess q) = true <->
      pid p = pid q /\ create_time p = create_time q) /\
  (forall (p : Process) (o : PyObj),
      (forall q, o <> PyProcess q) -> __eq__ p o = false) /\
  (Process_init env k s1 = (Ok p1, s1') ->
   Process_init env k s2 = (Ok p2, s2') ->
   w_get_create_time (env (S (tick s1))) k =
   w_get_create_time (env (S (tick s2))) k ->
   __eq__ p1 (PyProcess p2) = true).
Proof.
  split; [exact eq_Process_spec|]. split.
  - intros p [q| |z] Ho; try reflexivity. by destruct (Ho q).
  - intros H1 H2 Hw.
    apply Process_init_Ok in H1 as (_ & Hp1 & _ & _ & _ & _ & Hc1).
    apply Process_init_Ok in H2 as (_ & Hp2 & _ & _ & _ & _ & Hc2).
    apply eq_Process_spec. split; [congruence|].
    rewrite Hw in Hc1.
    destruct (w_get_create_time (env (S (tick s2))) k); try done; congruence.
Qed.

Lemma X22_witness :
  Process_init env_static7 7 st0 = (Ok handle7, next_tick (next_tick st0)) /\
  __eq__ handle7 (PyProcess handle7) = true.
Proof.
  split; [reflexivity|].
  apply (proj2 (proj2 (X22_eq_iff_pid_and_create_time
                         env_static7 7 st0 (next_tick st0)
                         (next_tick (next_tick st0))
                         (next_tick (next_tick (next_tick st0)))
                         handle7 handle7)));
    reflexivity.
Defined.

(** C1. Process 7 lives on, neither exiting nor giving up its pid; its
    creation time is denied to the first [Process(7)] and read by the
    second. The first handle caches no creation time, the second caches
    100, and the two handles of the one process compare unequal, from
    either side: [__eq__] compares [(7, None)] with [(7, 100)], where its
    comment has the comparison fall back on the pid alone once a creation
    time was denied. *)
Theorem C1_denied_then_read_compare_unequal :
  Process_init env_denied_then_read7 7 st0
  = (Ok blank7, next_tick (next_tick st0)) /\
  Process_init env_denied_then_read7 7 (next_tick (next_tick st0))
  = (Ok handle7, next_tick (next_tick (next_tick (next_tick st0)))) /\
  w_get_pids (env_denied_then_read7 0) = w_get_pids (env_denied_then_read7 2) /\
  pid blank7 = pid handle7 /\
  create_time blank7 = None /\ create_time handle7 = Some 100 /\
  __eq__ blank7 (PyProcess handle7) = false /\
  __eq__ handle7 (PyProcess blank7) = false.
Proof. repeat split; reflexivity. Qed.

(** C10. [hash(p)] is [p.pid]; equal handles have equal hashes; and two
    handles for one pid with different creation times have the same hash
    and compare unequal. *)
Theorem C10_hash_is_pid (p q : Process) :
  __hash__ p = pid p /\
  (__eq__ p (PyProcess q) = true -> __hash__ p = __hash__ q) /\
  (pid p = pid q -> create_time p <> create_time q ->
   __hash__ p = __hash__ q /\ __eq__ p (PyProcess q) = false).
Proof.
  split; [reflexivity|]. split.
  - intros H. apply eq_Process_spec in H as [H _]. exact H.
  - intros Hp Hc. split; [exact Hp|].
    destruct (__eq__ p (PyProcess q)) eqn:E; [|reflexivity].
    apply eq_Process_spec in E as [_ E]. contradiction.
Qed.

Lemma C10_witness :
  __hash__ handle7 = __hash__ handle7' /\ __eq__ handle7 (PyProcess handle7') = false.
Proof.
  apply (proj2 (proj2 (C10_hash_is_pid handle7 handle7'))).
  - reflexivity.
  - discriminate.
Defined.

(* ================================================================== *)
(** * Liveness: [is_running], [send_signal] and the [_gone] flag        *)
(* ================================================================== *)

(** A handle marked gone answers [False] without asking the platform. *)
Lemma is_running_gone (env : nat -> World) (p : Process) (s : St) :
  _gone p = true -> is_running env (p, s) = (Ok false, (p, s)).
Proof. intros H. unfold is_running. unmon. by rewrite H. Qed.

(** A handle not marked gone is compared with a fresh [Process(self.pid)]. *)
Lemma is_running_live (env : nat -> World) (p : Process) (s : St) :
  _gone p = false ->
  is_running env (p, s) =
  match Process_init env (pid p) s with
  | (Ok q, s') => (Ok (__eq__ p (PyProcess q)), (p, s'))
  | (Raise NoSuchProcess, s') => (Ok false, (set_gone p, s'))
  | (Raise e, s') => (Raise e, (p, s'))
  end.
Proof.
  intros H. unfold is_running. unmon. rewrite H. cbn.
  destruct (Process_init env (pid p) s) as [[q|e] s']; [reflexivity|].
  by destruct e.
Qed.

(** [is_running] writes nothing to [self] but [_gone := True]. *)
Lemma is_running_self (env : nat -> World) (p p' : Process) (s s' : St) (r : Res bool) :
  is_running env (p, s) = (r, (p', s')) ->
  p' = p \/ (p' = set_gone p /\ r = Ok false).
Proof.
  destruct (_gone p) eqn:Hg.
  - rewrite is_running_gone by done. intros H; inversion H; auto.
  - rewrite is_running_live by done.
    destruct (Process_init env (pid p) s) as [[q|e] s1].
    + intros H; inversion H; auto.
    + destruct e; intros H; inversion H; auto.
Qed.

Lemma is_running_keeps_gone (env : nat -> World) (p p' : Process) (s s' : St) (r : Res bool) :
  is_running env (p, s) = (r, (p', s')) -> _gone p = true -> _gone p' = true.
Proof.
  intros H Hg. apply is_running_self in H as [->|[-> _]]; [done|reflexivity].
Qed.

Lemma send_signal_keeps_gone (env : nat -> World) (plat : Platform) (sig : Z)
    (p p' : Process) (s s' : St) (r : Res unit) :
  send_signal env plat sig (p, s) = (r, (p', s')) -> _gone p = true -> _gone p' = true.
Proof.
  intros H Hg. unfold send_signal, _assert_pid_not_reused in H.
  unfold bind at 1 in H. rewrite is_running_gone in H by done.
  simpl in H. unmon. by inversion H; subst.
Qed.

(** C2, as stated, fails: the handle of the first process 7, asked after
    the pid was reused, answers [False] and is not marked gone. *)
Lemma C2_counterexample :
  is_running env_reuse7 (handle7, st0)
  = (Ok false, (handle7, next_tick (next_tick st0))) /\
  _gone handle7 = false.
Proof. by split. Qed.

(** C2, amended. Once [_gone] is set, [is_running] answers [False] and
    leaves the handle as it is, whatever the platform says; otherwise it
    builds a fresh handle for the pid and answers whether it equals the
    receiver, and when no process has the pid it answers [False] and sets
    [_gone]; neither [is_running] nor [send_signal] ever resets [_gone]. *)
Theorem C2_is_running_gone_is_final
    (env : nat -> World) (plat : Platform) (p : Process) (s : St) :
  (_gone p = true -> is_running env (p, s) = (Ok false, (p, s))) /\
  (_gone p = false ->
   is_running env (p, s) =
   match Process_init env (pid p) s with
   | (Ok q, s') => (Ok (__eq__ p (PyProcess q)), (p, s'))
   | (Raise NoSuchProcess, s') => (Ok false, (set_gone p, s'))
   | (Raise e, s') => (Raise e, (p, s'))
   end) /\
  (forall r p' s', is_running env (p, s) = (r, (p', s')) ->
                   _gone p = true -> _gone p' = true) /\
  (forall sig r p' s', send_signal env plat sig (p, s) = (r, (p', s')) ->
                       _gone p = true -> _gone p' = true).
Proof.
  split; [apply is_running_gone|].
  split; [apply is_running_live|].
  split.
  - intros r p' s'. apply is_running_keeps_gone.
  - intros sig r p' s'. apply send_signal_keeps_gone.
Qed.

Lemma C2_witness :
  is_running env_exit7 (handle7, st0) = (Ok false, (set_gone handle7, next_tick st0)) /\
  is_running env_exit7 (set_gone handle7, next_tick st0)
  = (Ok false, (set_gone handle7, next_tick st0)).
Proof.
  split; [reflexivity|].
  apply (proj1 (C2_is_running_gone_is_final env_exit7 linux (set_gone handle7) (next_tick st0))).
  reflexivity.
Defined.

(* ================================================================== *)
(** * The registry: [process_iter]                                      *)
(* ================================================================== *)

Lemma registry_ok_empty : registry_ok ∅.
Proof. intros k p H. by rewrite lookup_empty in H. Qed.

Lemma registry_ok_delete (m : gmap Z Process) (k : Z) :
  registry_ok m -> registry_ok (delete k m).
Proof.
  intros Hm k' p H. apply (Hm k' p).
  rewrite lookup_delete in H. by case_decide.
Qed.

Lemma registry_ok_insert (m : gmap Z Process) (p : Process) :
  registry_ok m -> 0 <= pid p -> registry_ok (<[pid p := p]> m).
Proof.
  intros Hm Hp k' p' H. rewrite lookup_insert in H. case_decide.
  - inversion H; subst. auto.
  - by apply Hm.
Qed.

(** [Process(pid)] raises [ValueError] for a negative pid, and otherwise
    only what the platform signals. *)
Lemma Process_init_Raise (env : nat -> World) (k : Z) (s s' : St) (e : Exn) :
  Process_init env k s = (Raise e, s') ->
  0 <= k -> e = NoSuchProcess \/ e = AccessDenied.
Proof.
  unfold Process_init. destruct (k <? 0) eqn:Hk; [lia|]. unmon.
  destruct (w_Process (env (tick s)) k) as [[]| |]; simpl.
  - destruct (w_get_create_time (env (S (tick s))) k); simpl;
      intros H; inversion H; auto.
  - intros H; inversion H; auto.
  - intros H; inversion H; auto.
Qed.

Lemma is_running_Raise (env : nat -> World) (p p' : Process) (s s' : St) (e : Exn) :
  is_running env (p, s) = (Raise e, (p', s')) ->
  0 <= pid p -> e = AccessDenied /\ p' = p.
Proof.
  intros H Hp. destruct (_gone p) eqn:Hg.
  - rewrite is_running_gone in H by done. discriminate.
  - rewrite is_running_live in H by done.
    destruct (Process_init env (pid p) s) as [[q|e'] s1] eqn:HI; [discriminate|].
    apply Process_init_Raise in HI as [->| ->]; [| |done]; by inversion H.
Qed.

Lemma add_Ok (env : nat -> World) (k : Z) (s s' : St) (p : Process) :
  add env k s = (Ok p, s') ->
  exists s1, Process_init env k s = (Ok p, s1) /\
             s' = set_pmap (<[k := p]> (_pmap s1)) s1.
Proof.
  unfold add. unmon.
  destruct (Process_init env k s) as [[q|e] s1] eqn:HI; [|discriminate].
  intros H; inversion H; subst. exists s1. split; [done|].
  apply Process_init_Ok in HI as (_ & -> & _). reflexivity.
Qed.

Lemma add_Raise (env : nat -> World) (k : Z) (s s' : St) (e : Exn) :
  add env k s = (Raise e, s') -> Process_init env k s = (Raise e, s').
Proof.
  unfold add. unmon.
  destruct (Process_init env k s) as [[q|e'] s1]; [discriminate|].
  by intros H; inversion H.
Qed.

(** The loop body raises nothing for a pid that is not negative. *)
Lemma process_iter_step_total (env : nat -> World) (item : Z * option Process) (s : St) :
  0 <= fst item ->
  (forall pr, snd item = Some pr -> pid pr = fst item) ->
  exists ys s', process_iter_step env item s = (Ok ys, s').
Proof.
  destruct item as [k proc]; simpl. intros Hk Hpr.
  unfold process_iter_step, process_iter_check.
  destruct proc as [pr|].
  - specialize (Hpr pr eq_refl). unfold call.
    destruct (is_running env (pr, s)) as [r [pr' s1]] eqn:Hr.
    destruct r as [[|]|e]; unfold try_except, process_iter_try, bind; simpl.
    + unmon. eauto.
    + match goal with |- context [add env k ?st] =>
        destruct (add env k st) as [[q|e] s2] eqn:Ha end; unmon; [eauto|].
      apply add_Raise, Process_init_Raise in Ha as [->| ->]; [| |done]; eauto.
    + apply is_running_Raise in Hr as [-> ->]; [|lia]. unmon. eauto.
  - unfold try_except, process_iter_try, bind; simpl.
    destruct (add env k s) as [[q|e] s2] eqn:Ha; unmon; [eauto|].
    apply add_Raise, Process_init_Raise in Ha as [->| ->]; [| |done]; eauto.
Qed.

Lemma for_yield_total {A B : Type} (body : A -> M (list B)) (l : list A) (s : St) :
  Forall (fun x => forall s, exists ys s', body x s = (Ok ys, s')) l ->
  exists ys s', for_yield l body s = (Ok ys, s').
Proof.
  intros H. revert s. induction H as [|x l Hx _ IH]; intros s; simpl.
  - unmon. eauto.
  - unfold bind. destruct (Hx s) as (ys & s1 & ->).
    destruct (IH s1) as (zs & s2 & ->). unmon. eauto.
Qed.

Lemma for_each_remove (env : nat -> World) (l : list Z) (s : St) :
  for_each l remove s = (Ok tt, set_pmap (foldl (fun m k => delete k m) (_pmap s) l) s).
Proof.
  revert s. induction l as [|k l IH]; intros s; simpl.
  - unmon. by destruct s.
  - unfold bind, remove, modify. rewrite IH. by destruct s.
Qed.

Lemma registry_ok_foldl_delete (m : gmap Z Process) (l : list Z) :
  registry_ok m -> registry_ok (foldl (fun m k => delete k m) m l).
Proof.
  revert m. induction l as [|k l IH]; intros m Hm; simpl; [done|].
  by apply IH, registry_ok_delete.
Qed.

Lemma process_iter_unfold (env : nat -> World) (s : St) :
  process_iter env s =
  for_yield (items env s) (process_iter_step env)
            (set_pmap (evicted env s) (next_tick s)).
Proof.
  unfold process_iter, platform, get. unfold bind at 1 2 3 4. simpl.
  rewrite for_each_remove by exact env. reflexivity.
Qed.

Lemma lookup_foldl_delete (m : gmap Z Process) (l : list Z) (k : Z) :
  foldl (fun m k => delete k m) m l !! k = if decide (k ∈ l) then None else m !! k.
Proof.
  revert m. induction l as [|x l IH]; intros m.
  - destruct (decide (k ∈ [])) as [H|H]; [|done]. by apply not_elem_of_nil in H.
  - cbn [foldl]. rewrite IH, lookup_delete.
    destruct (decide (k ∈ l)) as [Hl|Hl], (decide (k ∈ x :: l)) as [Hx|Hx];
      try done.
    + destruct Hx. by right.
    + apply elem_of_cons in Hx as [->|?]; [|done]. by rewrite decide_True.
    + rewrite decide_False; [done|]. intros ->. destruct Hx. by left.
Qed.

(** Eviction keeps exactly the cached pids that are still live. *)
Lemma lookup_evicted (env : nat -> World) (s : St) (k : Z) :
  evicted env s !! k = if decide (k ∈ live_pids env s) then _pmap s !! k else None.
Proof.
  unfold evicted. rewrite lookup_foldl_delete.
  destruct (decide (k ∈ elements (dom (_pmap s) ∖ live_pids env s))) as [H|H];
    rewrite elem_of_elements, elem_of_difference, elem_of_dom in H.
  - destruct H as [_ H]. by rewrite decide_False.
  - destruct (decide (k ∈ live_pids env s)); [done|].
    destruct (_pmap s !! k) eqn:E; [|done]. destruct H. eauto.
Qed.

Lemma elem_of_unsorted_items (env : nat -> World) (s : St) (k : Z) (o : option Process) :
  (k, o) ∈ unsorted_items env s <->
  k ∈ live_pids env s /\ o = _pmap s !! k.
Proof.
  unfold unsorted_items. rewrite elem_of_app, !list_elem_of_fmap. split.
  - intros [([k' p] & E & H)|(k' & E & H)]; simpl in E; inversion E; subst.
    + apply elem_of_map_to_list in H. rewrite lookup_evicted in H.
      case_decide; [auto|done].
    + rewrite elem_of_elements, elem_of_difference, not_elem_of_dom in H.
      destruct H as [? ->]. auto.
  - intros [Hk ->]. destruct (_pmap s !! k) as [p|] eqn:E.
    + left. exists (k, p). split; [done|].
      apply elem_of_map_to_list. rewrite lookup_evicted. by rewrite decide_True.
    + right. exists k. split; [done|].
      rewrite elem_of_elements, elem_of_difference, not_elem_of_dom. auto.
Qed.

Lemma elem_of_items (env : nat -> World) (s : St) (k : Z) (o : option Process) :
  (k, o) ∈ items env s <-> k ∈ live_pids env s /\ o = _pmap s !! k.
Proof.
  unfold items. rewrite merge_sort_Permutation. apply elem_of_unsorted_items.
Qed.

(** [process_iter] raises nothing, whatever the platform answers for each
    pid, as long as it lists no negative pid. *)
Lemma process_iter_total (env : nat -> World) (s : St) :
  registry_ok (_pmap s) ->
  Forall (fun k => 0 <= k) (w_get_pids (env (tick s))) ->
  exists ys s', process_iter env s = (Ok ys, s').
Proof.
  intros Hm Hp. rewrite process_iter_unfold. apply for_yield_total.
  apply Forall_forall. intros [k o] Hi s1.
  apply elem_of_items in Hi as [Hk ->].
  apply process_iter_step_total; simpl.
  - unfold live_pids in Hk. rewrite elem_of_list_to_set in Hk.
    rewrite Forall_forall in Hp. by apply Hp.
  - intros pr E. by apply Hm in E as [? _].
Qed.

(** X21. Whatever the platform answers for each pid, [process_iter] runs
    to its end without raising. For the pid at hand: a [NoSuchProcess]
    raised while its handle is built, be the pid new or its cached handle
    found not running, leaves the pid out of the registry and yields
    nothing; an [AccessDenied] that the liveness check of the cached
    handle itself raises, which it does when the platform refuses to open
    the process, yields that cached handle, which stays in the registry. *)
Theorem X21_per_pid_failure_is_contained
    (env : nat -> World) (s : St) (pid0 : Z) (pr : Process) :
  (registry_ok (_pmap s) ->
   Forall (fun k => 0 <= k) (w_get_pids (env (tick s))) ->
   exists ys s', process_iter env s = (Ok ys, s')) /\
  (forall s1,
      Process_init env pid0 s = (Raise NoSuchProcess, s1) ->
      exists s', process_iter_step env (pid0, None) s = (Ok [], s') /\
                 _pmap s' !! pid0 = None) /\
  (forall pr' s1 s2,
      is_running env (pr, s) = (Ok false, (pr', s1)) ->
      Process_init env pid0 (set_pmap (<[pid0 := pr']> (_pmap s1)) s1)
      = (Raise NoSuchProcess, s2) ->
      exists s', process_iter_step env (pid0, Some pr) s = (Ok [], s') /\
                 _pmap s' !! pid0 = None) /\
  (forall pr' s1,
      is_running env (pr, s) = (Raise AccessDenied, (pr', s1)) ->
      exists s', process_iter_step env (pid0, Some pr) s = (Ok [Some pr], s') /\
                 _pmap s' !! pid0 = Some pr).
Proof.
  split; [apply process_iter_total|]. split; [|split].
  - intros s1 HI.
    unfold process_iter_step, process_iter_check, try_except, process_iter_try,
      add, bind. rewrite HI. unmon.
    eexists. split; [reflexivity|]. apply lookup_delete_eq.
  - intros pr' s1 s2 Hr HI.
    unfold process_iter_step, process_iter_check, call. rewrite Hr.
    unfold try_except, process_iter_try, add, bind. rewrite HI. unmon.
    eexists. split; [reflexivity|]. apply lookup_delete_eq.
  - intros pr' s1 Hr.
    assert (pr' = pr) as ->.
    { apply is_running_self in Hr as [?|[_ ?]]; [done|discriminate]. }
    unfold process_iter_step, process_iter_check, call. rewrite Hr.
    unfold try_except, process_iter_try. unmon.
    eexists. split; [reflexivity|]. apply lookup_insert_eq.
Qed.

Example process_iter_vanish7 :
  fst (process_iter env_vanish7 st0)
  = Ok [Some (mkProcess 1 (Some 10) false None None None None)].
Proof. vm_compute. reflexivity. Qed.

Lemma X21_witness : exists ys s', process_iter env_vanish7 st0 = (Ok ys, s').
Proof.
  apply (proj1 (X21_per_pid_failure_is_contained env_vanish7 st0 7 handle7)).
  - apply registry_ok_empty.
  - simpl. repeat (apply List.Forall_cons; [lia|]). apply List.Forall_nil.
Defined.

(** C4. Process 7 lives on and can be opened, but its creation time can
    no longer be read. [Process(7)] swallows the [AccessDenied], so the
    liveness check of the cached handle raises nothing: it compares
    [(7, 100)] with [(7, None)] and answers [False]. [process_iter] then
    builds a new handle, without creation time and without the samples of
    the cached one, yields it and files it in place of the cached handle:
    the handler of [AccessDenied], which is there to yield the cached
    handle when the creation time cannot be determined, is not reached. *)
Theorem C4_denied_creation_time_replaces_the_cached_handle :
  _pmap st_cached7 !! 7 = Some sampled7 /\
  is_running env_ct_denied7 (sampled7, next_tick st_cached7)
  = (Ok false, (sampled7, next_tick (next_tick (next_tick st_cached7)))) /\
  fst (process_iter env_ct_denied7 st_cached7) = Ok [Some blank7] /\
  _pmap (snd (process_iter env_ct_denied7 st_cached7)) !! 7 = Some blank7 /\
  create_time blank7 = None /\ _last_proc_cpu_times blank7 = None /\
  create_time sampled7 = Some 100 /\ _last_proc_cpu_times sampled7 <> None.
Proof.
  split; [by vm_compute|]. split; [reflexivity|].
  split; [by vm_compute|]. split; [by vm_compute|].
  repeat split; done.
Qed.

Example process_iter_denied7 :
  fst (process_iter (fun _ => world_denied7)
         (set_pmap (<[7 := handle7]> ∅) st0))
  = Ok [Some handle7].
Proof. vm_compute. reflexivity. Qed.

(** ** A static process set *)










#[global] Instance by_pid_total : Total by_pid.
Proof. intros x y. unfold by_pid. lia. Qed.

#[global] Instance by_pid_trans : Transitive by_pid.
Proof. intros x y z. unfold by_pid. lia. Qed.

(** The pids the loop goes through: the live ones, each once, ascending. *)
Lemma elem_of_items_keys (env : nat -> World) (s : St) (k : Z) :
  k ∈ (items env s).*1 <-> k ∈ live_pids env s.
Proof.
  rewrite list_elem_of_fmap. split.
  - intros ([k' o] & -> & H). by apply elem_of_items in H as [? _].
  - intros H. exists (k, _pmap s !! k). split; [done|]. by apply elem_of_items.
Qed.

Lemma items_keys_NoDup (env : nat -> World) (s : St) : NoDup (items env s).*1.
Proof.
  unfold items. rewrite merge_sort_Permutation. unfold unsorted_items.
  rewrite fmap_app, <- !list_fmap_compose. apply NoDup_app. split; [|split].
  - apply (NoDup_fst_map_to_list (evicted env s)).
  - intros k H1 H2. apply list_elem_of_fmap in H1 as ([k' p] & -> & H1).
    apply list_elem_of_fmap in H2 as (k'' & E & H2). simpl in E. subst k''.
    apply elem_of_map_to_list in H1. rewrite lookup_evicted in H1.
    rewrite elem_of_elements, elem_of_difference, not_elem_of_dom in H2.
    destruct H2 as [_ H2]. simpl in H2. case_decide; congruence.
  - rewrite (list_fmap_ext _ id), list_fmap_id; [apply NoDup_elements|done].
Qed.




(** ** The handles of one enumeration have pairwise different pids *)

Lemma for_yield_sublist {S A B C : Type} (body : A -> Mon S (list B))
    (f : A -> option C) (h : B -> option C) (l : list A) :
  Forall (fun x => forall s ys s', body x s = (Ok ys, s') ->
                                   omap h ys `sublist_of` omap f [x]) l ->
  forall s ys s', for_yield l body s = (Ok ys, s') ->
                  omap h ys `sublist_of` omap f l.
Proof.
  induction 1 as [|x l Hx _ IH]; intros s ys s' H; simpl in H.
  - unmon. inversion H; subst. constructor.
  - unfold bind at 1 in H. destruct (body x s) as [[ys1|e] s1] eqn:E1; [|discriminate].
    unfold bind at 1 in H.
    destruct (for_yield l body s1) as [[ys2|e] s2] eqn:E2; [|discriminate].
    change (x :: l) with ([x] ++ l). rewrite omap_app.
    unfold ret in H. inversion H; subst. rewrite omap_app.
    apply sublist_app; eauto.
Qed.

Lemma omap_Some_fmap {A B : Type} (g : A -> B) (l : list A) :
  omap (fun x => Some (g x)) l = g <$> l.
Proof. induction l as [|x l IH]; [done|]. cbn. by rewrite IH. Qed.

Lemma is_running_pid (env : nat -> World) (p p' : Process) (s s' : St) (r : Res bool) :
  is_running env (p, s) = (r, (p', s')) -> pid p' = pid p.
Proof. intros H. by apply is_running_self in H as [->|[-> _]]. Qed.

(** The loop body of [process_iter] yields at most one handle, and its
    pid is the pid at hand. *)
Lemma process_iter_step_pid (env : nat -> World) (k : Z) (o : option Process)
    (s s' : St) (ys : list (option Process)) :
  (forall pr, o = Some pr -> pid pr = k) ->
  process_iter_step env (k, o) s = (Ok ys, s') ->
  omap (fmap pid) ys `sublist_of` [k].
Proof.
  intros Hpid. unfold process_iter_step, process_iter_check.
  assert (Hadd : forall st r st' proc',
    (forall pr, proc' = Some pr -> pid pr = k) ->
    try_except (let* p := add env k in ret [Some p])%mon
      (fun e => match e with
                | NoSuchProcess => Some (remove k;;; ret [])%mon
                | AccessDenied => Some (ret [proc'])
                | _ => None
                end) st = (Ok r, st') ->
    omap (fmap pid) r `sublist_of` [k]).
  { intros st r st' proc' Hproc'. unfold try_except, bind.
    destruct (add env k st) as [[q|e] st1] eqn:Ea.
    - apply add_Ok in Ea as (st2 & Ei & _).
      apply Process_init_Ok in Ei as (_ & Hq & _). unmon.
      intros [= <- <-]. cbn. by rewrite Hq.
    - destruct e; unmon; intros H; inversion H; subst; cbn.
      + apply sublist_nil_l.
      + destruct proc' as [pr|]; cbn; [|apply sublist_nil_l].
        by rewrite (Hproc' pr eq_refl). }
  destruct o as [pr|].
  - specialize (Hpid pr eq_refl). unfold call.
    destruct (is_running env (pr, s)) as [r [pr' s1]] eqn:Hr.
    apply is_running_pid in Hr. rewrite Hpid in Hr.
    destruct r as [[|]|e]; unfold process_iter_try.
    + unfold try_except. unmon. intros H; inversion H; subst. cbn. by rewrite Hr.
    + apply Hadd. intros q E; by inversion E; subst.
    + unfold try_except. unmon. destruct e; intros H; inversion H; subst; cbn.
      * apply sublist_nil_l.
      * by rewrite Hr.
  - unfold process_iter_try. apply Hadd. done.
Qed.

(** In any world, the handles of one run of [process_iter] have pids that
    ascend strictly. *)
Lemma process_iter_pids (env : nat -> World) (s s' : St) (ys : list (option Process)) :
  registry_ok (_pmap s) ->
  process_iter env s = (Ok ys, s') ->
  omap (fmap pid) ys `sublist_of` (items env s).*1.
Proof.
  intros Hreg. rewrite process_iter_unfold. intros H.
  apply (for_yield_sublist _ (fun item => Some (fst item)) (fmap pid)) in H.
  - by rewrite omap_Some_fmap in H.
  - apply Forall_forall. intros [k o] Hi st zs st' Hz. cbn.
    apply (process_iter_step_pid env k o st st' zs); [|done].
    intros pr ->. apply elem_of_items in Hi as [_ Hi]. symmetry in Hi.
    by apply Hreg in Hi as [? _].
Qed.






Example process_iter_57_then_79 :
  let '(r1, s1) := process_iter env57_79 st0 in
  let '(r2, s2) := process_iter env57_79 s1 in
  pids_of r1 = [Some 5; Some 7] /\ pids_of r2 = [Some 7; Some 9] /\
  _pmap s2 !! 5 = None.
Proof. vm_compute. done. Qed.

(* ================================================================== *)
(** * CPU accounting                                                    *)
(* ================================================================== *)

Lemma Qlt_bool_true (x y : Q) : Qlt_bool x y = true <-> (x < y)%Q.
Proof.
  unfold Qlt_bool. rewrite negb_true_iff, <- not_true_iff_false, Qle_bool_iff.
  split; [apply Qnot_le_lt|apply Qlt_not_le].
Qed.

Lemma Qlt_bool_false (x y : Q) : Qlt_bool x y = false <-> (y <= x)%Q.
Proof.
  unfold Qlt_bool. by rewrite negb_false_iff, Qle_bool_iff.
Qed.

Lemma Qle_bool_false (x y : Q) : Qle_bool x y = false <-> (y < x)%Q.
Proof.
  rewrite <- not_true_iff_false, Qle_bool_iff.
  split; [apply Qnot_le_lt|apply Qlt_not_le].
Qed.

Lemma py_div_Ok (x y q : Q) : py_div x y = Ok q -> ~ (y == 0)%Q /\ q = (x / y)%Q.
Proof.
  unfold py_div. destruct (Qeq_bool y 0) eqn:E; [discriminate|].
  intros H; inversion H. split; [|done].
  by apply Qeq_bool_neq.
Qed.

Lemma py_div_zero (x y : Q) : (y == 0)%Q -> py_div x y = Raise ZeroDivisionError.
Proof. intros H. unfold py_div. by rewrite (proj2 (Qeq_bool_iff y 0) H). Qed.

(** Rounding to one decimal keeps a number between 0 and an integer there. *)
Lemma round1_bounds (x : Q) (n : Z) :
  (0 <= x)%Q -> (x <= inject_Z n)%Q ->
  (0 <= round1 x)%Q /\ (round1 x <= inject_Z n)%Q.
Proof.
  intros H0 Hn. unfold round1. rewrite (proj2 (Qle_bool_iff 0 x) H0).
  set (y := (x * 10 + (1 # 2))%Q).
  assert (Hy0 : (0 <= Qfloor y)%Z).
  { change 0%Z with (Qfloor 0). apply Qfloor_resp_le. unfold y. lra. }
  assert (Hyn : (Qfloor y <= n * 10)%Z).
  { apply Z.lt_succ_r. rewrite Zlt_Qlt.
    apply Qle_lt_trans with y; [apply Qfloor_le|].
    unfold y, Z.succ. rewrite inject_Z_plus, inject_Z_mult.
    change (inject_Z 10) with 10%Q. change (inject_Z 1) with 1%Q. lra. }
  rewrite Zle_Qle in Hy0, Hyn. rewrite inject_Z_mult in Hyn.
  change (inject_Z 10) with 10%Q in Hyn. change (inject_Z 0) with 0%Q in Hy0.
  split.
  - apply Qle_shift_div_l; lra.
  - apply Qle_shift_div_r; lra.
Qed.

Lemma round1_zero (x : Q) : (x == 0)%Q -> (round1 x == 0)%Q.
Proof.
  intros H.
  assert (H0 : (0 <= x)%Q) by lra.
  assert (Hn : (x <= inject_Z 0)%Q) by (change (inject_Z 0) with 0%Q; lra).
  destruct (round1_bounds x 0 H0 Hn) as [H1 H2].
  change (inject_Z 0) with 0%Q in H2. lra.
Qed.

Lemma round1_upper (x : Q) (n : Z) :
  (0 <= n)%Z -> (x <= inject_Z n)%Q -> (round1 x <= inject_Z n)%Q.
Proof.
  intros Hn0 Hn. destruct (Qle_bool 0 x) eqn:E.
  - apply Qle_bool_iff in E. by apply round1_bounds.
  - unfold round1. rewrite E. apply Qle_bool_false in E.
    set (y := (- x * 10 + (1 # 2))%Q).
    assert (Hy0 : (0 <= Qfloor y)%Z).
    { change 0%Z with (Qfloor 0). apply Qfloor_resp_le. unfold y. lra. }
    rewrite Zle_Qle in Hy0, Hn0. change (inject_Z 0) with 0%Q in Hy0, Hn0.
    apply Qle_trans with 0%Q; [|done].
    assert (0 <= inject_Z (Qfloor y) / 10)%Q by (apply Qle_shift_div_l; lra).
    lra.
Qed.

(** [calculate] of [cpu_percent] on samples whose idle time did not
    regress: a percentage. *)
Lemma cpu_percent_calculate_range (t1 t2 : cputimes) :
  (idle t1 <= idle t2)%Q ->
  exists r, cpu_percent_calculate t1 t2 = Ok r /\ (0 <= r)%Q /\ (r <= 100)%Q.
Proof.
  intros Hidle. unfold cpu_percent_calculate.
  set (a1 := sum_floats (fields t1)). set (a2 := sum_floats (fields t2)).
  destruct (Qle_bool (a2 - idle t2) (a1 - idle t1)) eqn:E.
  - exists 0%Q. repeat split; lra.
  - apply Qle_bool_false in E.
    assert (Hd : (0 < a2 - a1)%Q) by lra.
    unfold py_div. destruct (Qeq_bool (a2 - a1) 0) eqn:Ez.
    { apply Qeq_bool_iff in Ez. lra. }
    set (q := ((a2 - idle t2 - (a1 - idle t1)) / (a2 - a1))%Q).
    assert (Hq0 : (0 <= q)%Q) by (apply Qle_shift_div_l; lra).
    assert (Hq1 : (q <= 1)%Q) by (apply Qle_shift_div_r; lra).
    destruct (round1_bounds (q * 100) 100) as [H1 H2].
    + lra.
    + change (inject_Z 100) with 100%Q. lra.
    + change (inject_Z 100) with 100%Q in H2. eauto.
Qed.

(** [calculate] of [cpu_percent] when the busy time did not increase. *)
Lemma cpu_percent_calculate_not_busier (t1 t2 : cputimes) :
  (sum_floats (fields t2) - idle t2 <= sum_floats (fields t1) - idle t1)%Q ->
  cpu_percent_calculate t1 t2 = Ok 0%Q.
Proof.
  intros H. unfold cpu_percent_calculate.
  by rewrite (proj2 (Qle_bool_iff _ _) H).
Qed.

(** One field of [cpu_times_percent]: zero when no time elapsed, and
    within 0 and 100 on Windows. *)
Lemma field_percent_zero_delta (plat : Platform) (all_delta f1 f2 : Q) :
  (all_delta == 0)%Q -> (field_percent plat all_delta f1 f2 == 0)%Q.
Proof.
  intros H. unfold field_percent. rewrite py_div_zero by done.
  assert (Hr : (round1 0 == 0)%Q) by (by apply round1_zero).
  destruct (WINDOWS plat); [|done].
  destruct (Qlt_bool 100 (round1 0)) eqn:E1.
  { apply Qlt_bool_true in E1. lra. }
  destruct (Qlt_bool (round1 0) 0) eqn:E2; [reflexivity|done].
Qed.

Lemma field_percent_windows (plat : Platform) (all_delta f1 f2 : Q) :
  WINDOWS plat = true ->
  (0 <= field_percent plat all_delta f1 f2)%Q /\
  (field_percent plat all_delta f1 f2 <= 100)%Q.
Proof.
  intros HW. unfold field_percent. rewrite HW.
  set (fp := round1 _).
  destruct (Qlt_bool 100 fp) eqn:E1; [split; lra|].
  apply Qlt_bool_false in E1.
  destruct (Qlt_bool fp 0) eqn:E2; [split; lra|].
  apply Qlt_bool_false in E2. by split.
Qed.

(** The end of [get_cpu_percent]. *)
Lemma get_cpu_percent_deltas_zero_time (plat : Platform)
    (st1 st2 : Q) (pt1 pt2 : pcputimes) (p : Process) (s : St) :
  (st2 - st1 == 0)%Q ->
  get_cpu_percent_deltas plat st1 pt1 st2 pt2 (p, s)
  = (Ok 0%Q, (set_last_cpu_times st2 pt2 p, s)).
Proof.
  intros H. unfold get_cpu_percent_deltas. unmon. by rewrite py_div_zero.
Qed.

Lemma get_cpu_percent_deltas_Ok (plat : Platform)
    (st1 st2 : Q) (pt1 pt2 : pcputimes) (p : Process) (s : St) :
  exists r, get_cpu_percent_deltas plat st1 pt1 st2 pt2 (p, s)
            = (Ok r, (set_last_cpu_times st2 pt2 p, s)) /\
            (posix plat = false -> (r <= 100)%Q) /\
            ((0 <= num_cpus plat)%Z ->
             (0 <= (p_user pt2 - p_user pt1) + (p_system pt2 - p_system pt1))%Q ->
             ((p_user pt2 - p_user pt1) + (p_system pt2 - p_system pt1) <= st2 - st1)%Q ->
             (0 <= r)%Q /\ (r <= inject_Z (100 * num_cpus plat))%Q).
Proof.
  unfold get_cpu_percent_deltas. unmon.
  set (dp := ((p_user pt2 - p_user pt1) + (p_system pt2 - p_system pt1))%Q).
  set (dt := (st2 - st1)%Q).
  destruct (py_div dp dt) as [q|e] eqn:Ed.
  - apply py_div_Ok in Ed as [Hdt ->].
    set (single := (dp / dt * 100 * inject_Z (num_cpus plat))%Q).
    assert (Hrange : (0 <= num_cpus plat)%Z -> (0 <= dp)%Q -> (dp <= dt)%Q ->
                     (0 <= single)%Q /\ (single <= inject_Z (100 * num_cpus plat))%Q).
    { intros Hn H0 H1. rewrite inject_Z_mult. change (inject_Z 100) with 100%Q.
      rewrite Zle_Qle in Hn. change (inject_Z 0) with 0%Q in Hn.
      assert (Hpos : (0 < dt)%Q).
      { destruct (Qlt_le_dec 0 dt); [done|]. destruct Hdt. lra. }
      assert (Hq0 : (0 <= dp / dt)%Q) by (apply Qle_shift_div_l; lra).
      assert (Hq1 : (dp / dt <= 1)%Q) by (apply Qle_shift_div_r; lra).
      unfold single. split; [nra|nra]. }
    destruct (negb (posix plat) && Qlt_bool 100 single) eqn:Ec.
    + exists 100%Q. split; [reflexivity|]. split; [intros; lra|].
      intros Hn H0 H1. apply andb_true_iff in Ec as [_ Ec].
      apply Qlt_bool_true in Ec. destruct (Hrange Hn H0 H1). split; lra.
    + exists (round1 single). split; [reflexivity|]. split.
      * intros Hp. rewrite Hp in Ec. simpl in Ec. apply Qlt_bool_false in Ec.
        apply (round1_upper single 100); [lia|done].
      * intros Hn H0 H1. destruct (Hrange Hn H0 H1).
        by apply round1_bounds.
  - exists 0%Q. split; [reflexivity|]. split; [intros; lra|].
    intros Hn _ _. rewrite inject_Z_mult. change (inject_Z 100) with 100%Q.
    rewrite Zle_Qle in Hn. change (inject_Z 0) with 0%Q in Hn. split; lra.
Qed.

(** A non-blocking [get_cpu_percent] reads the system and the process
    times, then either bootstraps or compares with the stored sample. *)
Lemma get_cpu_percent_nonblocking (env : nat -> World) (plat : Platform)
    (interval : option Q) (p : Process) (s : St) (pt2 : pcputimes) :
  blocking interval = false ->
  w_get_cpu_times (env (S (tick s))) (pid p) = BOk pt2 ->
  get_cpu_percent env plat interval (p, s) =
  let st2 := sum_floats (fields (w_get_system_cpu_times (env (tick s)))) in
  let s2 := next_tick (next_tick s) in
  match _last_sys_cpu_times p, _last_proc_cpu_times p with
  | Some st1, Some pt1 => get_cpu_percent_deltas plat st1 pt1 st2 pt2 (p, s2)
  | _, _ => (Ok 0%Q, (set_last_cpu_times st2 pt2 p, s2))
  end.
Proof.
  intros Hb Hpt. unfold get_cpu_percent, proc_get_cpu_times, cpu_times.
  rewrite Hb. unmon. rewrite Hpt. simpl.
  by destruct (_last_sys_cpu_times p), (_last_proc_cpu_times p).
Qed.

Lemma Forall_zip_with_fields (P : Q -> Prop) (f : Q -> Q -> Q) (l1 l2 : list Q) :
  (forall x y, P (f x y)) -> Forall P (zip_with f l1 l2).
Proof.
  intros H. revert l2. induction l1 as [|x l1 IH]; intros [|y l2]; simpl;
    constructor; auto.
Qed.

(** C5, as stated, fails. The first non-blocking [cpu_percent()] after the
    import compares with the sample of the import and answers 50.0, not
    0.0; and a later non-blocking [get_cpu_percent()] of a process, on 4
    CPUs, answers 400.4, above 100 times the number of CPUs. *)
Lemma C5_counterexample :
  (exists r, fst (cpu_percent env_half_busy None false (import_psutil env_half_busy))
             = Ok (inl r) /\ (r == 50)%Q /\ ~ (r == 0)%Q) /\
  (exists r, fst (get_cpu_percent env_skew linux None (sampled7, st0)) = Ok r /\
             (r == 4004 # 10)%Q /\
             ~ (r <= inject_Z (100 * num_cpus linux))%Q).
Proof.
  split; eexists; (split; [vm_compute; reflexivity|]); split; try done.
  intros H. vm_compute in H. by apply H.
Qed.

(** C5, amended. Non-blocking calls. A process with no stored sample
    stores the current one and gets exactly 0.0, no ratio being
    computed. The whole system and the single cores always have a stored
    sample, read at import, in both windows: their first call compares
    with it. A later call for a process answers at most 100 off POSIX,
    and within 0 and 100 times the number of CPUs when the process time
    it compares grew by no more than the system time; [calculate] of
    [cpu_percent] answers within 0 and 100 when the idle time did not
    regress. *)
Theorem C5_nonblocking_bootstrap_and_range
    (env : nat -> World) (plat : Platform) (interval : option Q)
    (p : Process) (s : St) (pt2 : pcputimes) (t1 t2 : cputimes) :
  let st2 := sum_floats (fields (w_get_system_cpu_times (env (tick s)))) in
  let now := w_get_system_cpu_times (env 2%nat) in
  let cores := w_get_system_per_cpu_times (env 2%nat) in
  blocking interval = false ->
  w_get_cpu_times (env (S (tick s))) (pid p) = BOk pt2 ->
  (_last_sys_cpu_times p = None \/ _last_proc_cpu_times p = None ->
   get_cpu_percent env plat interval (p, s)
   = (Ok 0%Q, (set_last_cpu_times st2 pt2 p, next_tick (next_tick s)))) /\
  cpu_percent env interval false (import_psutil env)
  = (match cpu_percent_calculate (w_get_system_cpu_times (env 0%nat)) now with
     | Ok r => Ok (inl r)
     | Raise e => Raise e
     end, set_last_cpu now (next_tick (import_psutil env))) /\
  cpu_percent env interval true (import_psutil env)
  = (match zip_calculate cpu_percent_calculate
             (w_get_system_per_cpu_times (env 1%nat)) cores with
     | Ok r => Ok (inr r)
     | Raise e => Raise e
     end, set_last_per_cpu cores (next_tick (import_psutil env))) /\
  cpu_times_percent env plat interval false (import_psutil env)
  = (match cpu_times_percent_calculate plat (w_get_system_cpu_times (env 0%nat)) now with
     | Ok r => Ok (inl r)
     | Raise e => Raise e
     end, set_last_cpu_2 now (next_tick (import_psutil env))) /\
  (forall st1 pt1,
      _last_sys_cpu_times p = Some st1 -> _last_proc_cpu_times p = Some pt1 ->
      exists r,
        get_cpu_percent env plat interval (p, s)
        = (Ok r, (set_last_cpu_times st2 pt2 p, next_tick (next_tick s))) /\
        (posix plat = false -> (r <= 100)%Q) /\
        ((0 <= num_cpus plat)%Z ->
         (0 <= (p_user pt2 - p_user pt1) + (p_system pt2 - p_system pt1))%Q ->
         ((p_user pt2 - p_user pt1) + (p_system pt2 - p_system pt1) <= st2 - st1)%Q ->
         (0 <= r)%Q /\ (r <= inject_Z (100 * num_cpus plat))%Q)) /\
  ((idle t1 <= idle t2)%Q ->
   exists r, cpu_percent_calculate t1 t2 = Ok r /\ (0 <= r)%Q /\ (r <= 100)%Q).
Proof.
  intros st2 now cores Hb Hpt.
  split; [|split; [|split; [|split; [|split]]]].
  - intros Hnone. rewrite (get_cpu_percent_nonblocking env plat interval p s pt2) by done.
    destruct Hnone as [-> | ->]; [done|]. by destruct (_last_sys_cpu_times p).
  - unfold cpu_percent, cpu_times, lift_res. rewrite Hb. unmon.
    fold now. by destruct (cpu_percent_calculate _ now).
  - unfold cpu_percent, per_cpu_times, lift_res. rewrite Hb. unmon.
    fold cores. by destruct (zip_calculate _ _ cores).
  - unfold cpu_times_percent, cpu_times, lift_res. rewrite Hb. by unmon.
  - intros st1 pt1 H1 H2.
    rewrite (get_cpu_percent_nonblocking env plat interval p s pt2) by done.
    rewrite H1, H2. apply get_cpu_percent_deltas_Ok.
  - apply cpu_percent_calculate_range.
Qed.

Lemma C5_witness :
  get_cpu_percent env_skew linux None (fresh7, st0)
  = (Ok 0%Q, (set_last_cpu_times 1000 (mkPCpuTimes 1001 0) fresh7,
              next_tick (next_tick st0))).
Proof.
  apply (proj1 (C5_nonblocking_bootstrap_and_range env_skew linux None fresh7 st0
                  (mkPCpuTimes 1001 0) no_cpu no_cpu eq_refl eq_refl)).
  by left.
Defined.

(** C6, as stated, fails: on Windows [get_cpu_percent] compares a process
    time that did not increase (it fell by 2 while the system time grew by
    10) and answers -80.0: neither 0.0 nor within 0 and 100. *)
Lemma C6_counterexample :
  exists r, fst (get_cpu_percent env_regress windows None (sampled7', st0)) = Ok r /\
            (r == -80)%Q /\ ~ (r == 0)%Q /\ ~ (0 <= r)%Q.
Proof.
  eexists. split; [vm_compute; reflexivity|]. split; [done|]. split; [done|].
  intros H. vm_compute in H. by apply H.
Qed.

(** The sibling defect: [calculate] of [cpu_percent] divides unguarded.
    With the idle time fallen by as much as the busy time grew, the
    elapsed total is zero and [ZeroDivisionError] escapes. *)
Example cpu_percent_calculate_divides_by_zero :
  cpu_percent_calculate (mkCpuTimes 1 0 2 []) (mkCpuTimes 2 0 1 [])
  = Raise ZeroDivisionError.
Proof. reflexivity. Qed.

(** C6, amended. [calculate] of [cpu_percent] answers 0.0 when the busy
    time did not increase. [calculate] of [cpu_times_percent] never
    raises, answers 0.0 for every field when the elapsed total is zero,
    and on Windows keeps every field within 0 and 100. The comparison of
    [get_cpu_percent] never raises, answers 0.0 when the elapsed total is
    zero, and off POSIX answers at most 100. *)
Theorem C6_zero_results_and_clamps
    (plat : Platform) (t1 t2 : cputimes)
    (st1 st2 : Q) (pt1 pt2 : pcputimes) (p : Process) (s : St) :
  ((sum_floats (fields t2) - idle t2 <= sum_floats (fields t1) - idle t1)%Q ->
   cpu_percent_calculate t1 t2 = Ok 0%Q) /\
  (exists r, cpu_times_percent_calculate plat t1 t2 = Ok r /\
             ((sum_floats (fields t2) - sum_floats (fields t1) == 0)%Q ->
              Forall (fun x => (x == 0)%Q) (fields r)) /\
             (WINDOWS plat = true ->
              Forall (fun x => (0 <= x)%Q /\ (x <= 100)%Q) (fields r))) /\
  (exists r, get_cpu_percent_deltas plat st1 pt1 st2 pt2 (p, s)
             = (Ok r, (set_last_cpu_times st2 pt2 p, s)) /\
             ((st2 - st1 == 0)%Q -> r = 0%Q) /\
             (posix plat = false -> (r <= 100)%Q)).
Proof.
  split; [apply cpu_percent_calculate_not_busier|]. split.
  - eexists. split; [reflexivity|]. unfold fields; simpl. split.
    + intros Hz. repeat (apply List.Forall_cons; [by apply field_percent_zero_delta|]).
      apply Forall_zip_with_fields. intros x y. by apply field_percent_zero_delta.
    + intros HW. repeat (apply List.Forall_cons; [by apply field_percent_windows|]).
      apply Forall_zip_with_fields. intros x y. by apply field_percent_windows.
  - destruct (get_cpu_percent_deltas_Ok plat st1 st2 pt1 pt2 p s) as (r & E & Hcap & _).
    exists r. split; [done|]. split; [|done].
    intros Hz. rewrite get_cpu_percent_deltas_zero_time in E by done.
    by inversion E.
Qed.

Lemma C6_witness :
  cpu_percent_calculate (mkCpuTimes 2 0 1 []) (mkCpuTimes 1 0 2 []) = Ok 0%Q.
Proof.
  apply (proj1 (C6_zero_results_and_clamps linux
                  (mkCpuTimes 2 0 1 []) (mkCpuTimes 1 0 2 [])
                  0 0 (mkPCpuTimes 0 0) (mkPCpuTimes 0 0) fresh7 st0)).
  vm_compute. discriminate.
Defined.

(* ================================================================== *)
(** * Descendants: [get_children]                                       *)
(* ================================================================== *)

Lemma ct_stable_refl (p : Process) : ct_stable p p.
Proof. by intros sc. Qed.

Lemma ct_stable_trans (p q r : Process) : ct_stable p q -> ct_stable q r -> ct_stable p r.
Proof. intros H1 H2 sc H. by apply H2, H1. Qed.

Lemma not_older_than_stable (p p' c : Process) :
  not_older_than p c -> ct_stable p p' -> not_older_than p' c.
Proof. intros (sc & cc & H1 & H2 & H3) H. exists sc, cc. auto. Qed.

Lemma get_create_time_spec (env : nat -> World) (p p' : Process) (s s' : St) (r : Res Z) :
  get_create_time env (p, s) = (r, (p', s')) ->
  pid p' = pid p /\ ct_stable p p' /\
  (forall t, r = Ok t -> create_time p' = Some t).
Proof.
  unfold get_create_time. unmon. destruct (create_time p) as [t0|] eqn:Hc.
  - intros H; inversion H; subst. split; [done|]. split; [apply ct_stable_refl|].
    intros t Ht. by inversion Ht; subst.
  - cbn. destruct (w_get_create_time (env (tick s)) (pid p)); cbn;
      intros H; inversion H; subst; cbn;
      (split; [done|]); (split; [intros sc; congruence|]);
      intros t' Ht; by inversion Ht.
Qed.

Lemma call_other_spec {A : Type} (cached : bool) (c : Process) (m : Method A)
    (p p' : Process) (s s' : St) (r : Res (A * Process)) :
  call_other cached c m (p, s) = (r, (p', s')) ->
  p' = p /\
  (forall a c', r = Ok (a, c') -> exists s1, m (c, s) = (Ok a, (c', s1))).
Proof.
  unfold call_other. simpl. destruct (m (c, s)) as [[a|e] [c1 s1]];
    intros H; inversion H; subst; (split; [done|]); intros a' c' E; inversion E; subst.
  eauto.
Qed.

(** The comparison [self.create_time <= child.create_time]. *)
Lemma not_older_spec (env : nat -> World) (cached : bool) (child : Process)
    (p p' : Process) (s s' : St) (r : Res (bool * Process)) :
  not_older env cached child (p, s) = (r, (p', s')) ->
  pid p' = pid p /\ ct_stable p p' /\
  (forall b child', r = Ok (b, child') ->
                    pid child' = pid child /\ (b = true -> not_older_than p' child')).
Proof.
  unfold not_older. unfold bind at 1.
  destruct (get_create_time env (p, s)) as [[sc|e] [p1 s1]] eqn:E1.
  2:{ intros H; inversion H; subst.
      apply get_create_time_spec in E1 as (Hp & Hs & _). by repeat split. }
  apply get_create_time_spec in E1 as (Hp & Hs & Hsc). specialize (Hsc sc eq_refl).
  unfold bind at 1.
  destruct (call_other cached child (get_create_time env) (p1, s1))
    as [[[cc child1]|e] [p2 s2]] eqn:E2.
  2:{ intros H; inversion H; subst.
      apply call_other_spec in E2 as [-> _]. by repeat split. }
  apply call_other_spec in E2 as [-> Hc]. destruct (Hc cc child1 eq_refl) as (s3 & E3).
  apply get_create_time_spec in E3 as (Hcp & _ & Hcc). specialize (Hcc cc eq_refl).
  unmon. intros H; inversion H; subst. split; [done|]. split; [done|].
  intros b child' E; inversion E; subst. split; [done|].
  intros Hle. apply Z.leb_le in Hle. by exists sc, cc.
Qed.

Lemma same_handle_refl (p : Process) : same_handle p p.
Proof. split; [done|apply ct_stable_refl]. Qed.

Lemma same_handle_trans (p q r : Process) :
  same_handle p q -> same_handle q r -> same_handle p r.
Proof.
  intros [H1 H2] [H3 H4]. split; [congruence|by eapply ct_stable_trans].
Qed.

Lemma for_yield_self {A B : Type} (body : A -> Method (list B)) (P : Process -> B -> Prop) :
  (forall x p s r p' s', body x (p, s) = (r, (p', s')) ->
      same_handle p p' /\ forall ys, r = Ok ys -> Forall (P p') ys) ->
  (forall p p' y, P p y -> same_handle p p' -> P p' y) ->
  forall l p s r p' s', for_yield l body (p, s) = (r, (p', s')) ->
      same_handle p p' /\ forall ys, r = Ok ys -> Forall (P p') ys.
Proof.
  intros Hbody Hmono. induction l as [|x l IH]; intros p s r p' s'; simpl.
  - unmon. intros H; inversion H; subst. split; [apply same_handle_refl|].
    intros ys E; inversion E. constructor.
  - unfold bind at 1. destruct (body x (p, s)) as [[ys|e] [p1 s1]] eqn:E1.
    2:{ intros H; inversion H; subst. apply Hbody in E1 as [? _]. by split. }
    apply Hbody in E1 as [H1 Hys]. specialize (Hys ys eq_refl).
    unfold bind at 1. destruct (for_yield l body (p1, s1)) as [[zs|e] [p2 s2]] eqn:E2.
    2:{ intros H; inversion H; subst. apply IH in E2 as [? _]. split; [|done].
        by eapply same_handle_trans. }
    apply IH in E2 as [H2 Hzs]. specialize (Hzs zs eq_refl).
    unmon. intros H; inversion H; subst. split; [by eapply same_handle_trans|].
    intros ys' E; inversion E; subst. apply Forall_app. split; [|done].
    eapply Forall_impl; [exact Hys|]. intros y Hy. by eapply Hmono.
Qed.

Lemma try_except_NoSuchProcess {S A : Type} (m h : Mon S A) (s s' : S) (r : Res A) :
  try_except m (except_NoSuchProcess h) s = (r, s') ->
  m s = (r, s') \/ exists s1, m s = (Raise NoSuchProcess, s1) /\ h s1 = (r, s').
Proof.
  unfold try_except. destruct (m s) as [[a|e] s1]; [by left|].
  destruct e; simpl; auto. right. eauto.
Qed.

Lemma children_slow_spec (env : nat -> World) (plat : Platform) (o : option Process)
    (p p' : Process) (s s' : St) (r : Res (list Process)) :
  children_slow env plat o (p, s) = (r, (p', s')) ->
  same_handle p p' /\ forall ys, r = Ok ys -> Forall (not_older_than p') ys.
Proof.
  unfold children_slow. destruct o as [c|].
  2:{ unmon. intros H; inversion H; subst. split; [apply same_handle_refl|done]. }
  intros H. apply try_except_NoSuchProcess in H.
  assert (Hm : forall r p' s',
    (let* pp := call_other true c (ppid env plat) in
     let* slf := self in
     if fst pp =? pid slf
     then let* r := not_older env true (snd pp) in
          if fst r then ret [snd r] else ret []
     else ret [])%mon (p, s) = (r, (p', s')) ->
    same_handle p p' /\ forall ys, r = Ok ys -> Forall (not_older_than p') ys).
  { clear. intros r p' s'. unfold bind at 1.
    destruct (call_other true c (ppid env plat) (p, s)) as [[[pp c1]|e] [p1 s1]] eqn:E1;
      apply call_other_spec in E1 as [-> _].
    2:{ intros H; inversion H; subst. split; [apply same_handle_refl|done]. }
    unfold self, bind at 1. simpl.
    destruct (pp =? pid p).
    2:{ unmon. intros H; inversion H; subst. split; [apply same_handle_refl|].
        intros ys E; inversion E. constructor. }
    unfold bind at 1.
    destruct (not_older env true c1 (p, s1)) as [[[b c2]|e] [p2 s2]] eqn:E2;
      apply not_older_spec in E2 as (Hp & Hs & Hc).
    2:{ intros H; inversion H; subst. by repeat split. }
    destruct (Hc b c2 eq_refl) as [_ Hb]. simpl.
    destruct b; unmon; intros H; inversion H; subst; (split; [by split|]);
      intros ys E; inversion E; subst; repeat constructor. by apply Hb. }
  destruct H as [H|([p1 s1] & H & Hh)].
  - by apply (Hm _ _ _ H).
  - apply Hm in H as [H _]. unmon. inversion Hh; subst. split; [done|].
    intros ys E; inversion E. constructor.
Qed.

Lemma children_fast_spec (env : nat -> World) (item : Z * Z)
    (p p' : Process) (s s' : St) (r : Res (list Process)) :
  children_fast env item (p, s) = (r, (p', s')) ->
  same_handle p p' /\ forall ys, r = Ok ys -> Forall (not_older_than p') ys.
Proof.
  unfold children_fast. unfold self, bind at 1. simpl.
  destruct (snd item =? pid p).
  2:{ unmon. intros H; inversion H; subst. split; [apply same_handle_refl|].
      intros ys E; inversion E. constructor. }
  intros H. apply try_except_NoSuchProcess in H.
  assert (Hm : forall r p' s',
    (let* child := lift (Process_init env (fst item)) in
     let* r := not_older env false child in
     if fst r then ret [snd r] else ret [])%mon (p, s) = (r, (p', s')) ->
    same_handle p p' /\ forall ys, r = Ok ys -> Forall (not_older_than p') ys).
  { clear. intros r p' s'. unfold bind at 1, lift. simpl.
    destruct (Process_init env (fst item) s) as [[c|e] s1].
    2:{ intros H; inversion H; subst. split; [apply same_handle_refl|done]. }
    unfold bind at 1.
    destruct (not_older env false c (p, s1)) as [[[b c2]|e] [p2 s2]] eqn:E2;
      apply not_older_spec in E2 as (Hp & Hs & Hc).
    2:{ intros H; inversion H; subst. by repeat split. }
    destruct (Hc b c2 eq_refl) as [_ Hb]. simpl.
    destruct b; unmon; intros H; inversion H; subst; (split; [by split|]);
      intros ys E; inversion E; subst; repeat constructor. by apply Hb. }
  destruct H as [H|([p1 s1] & H & Hh)].
  - by apply (Hm _ _ _ H).
  - apply Hm in H as [H _]. unmon. inversion Hh; subst. split; [done|].
    intros ys E; inversion E. constructor.
Qed.

(** ** The breadth-first traversal *)

Lemma trav_inv_stable (table : list (Z * Process)) (root : Z) (p p' : Process)
    (acc : list Process * list Z) :
  trav_inv table root p acc -> same_handle p p' -> trav_inv table root p' acc.
Proof.
  intros (F & I1 & I2 & I3 & I4) [_ Hs]. split; [|done].
  eapply Forall_impl; [exact F|]. intros c Hc. by eapply not_older_than_stable.
Qed.

Lemma visit_spec (env : nat -> World) (cached : bool) (table : list (Z * Process))
    (root k : Z) (child : Process) (acc acc' : list Process * list Z)
    (p p' : Process) (s s' : St) :
  visit env cached child acc (p, s) = (Ok acc', (p', s')) ->
  trav_inv table root p acc -> (k, child) ∈ table -> k ∈ snd acc ->
  same_handle p p' /\ trav_inv table root p' acc' /\ snd acc `prefix_of` snd acc'.
Proof.
  intros H Hinv Hk Hkin. unfold visit in H. unfold bind at 1 in H.
  destruct (try_except _ _ (p, s)) as [[o|e] [p1 s1]] eqn:E; [|discriminate].
  apply try_except_NoSuchProcess in E.
  assert (Hsame : same_handle p p1 /\
            forall b c', o = Some (b, c') ->
                         pid c' = pid child /\ (b = true -> not_older_than p1 c')).
  { destruct E as [E|([p2 s2] & E & Eh)].
    - unfold bind at 1 in E.
      destruct (not_older env cached child (p, s)) as [[[b c']|e] [p2 s2]] eqn:E2;
        [|discriminate].
      apply not_older_spec in E2 as (Hp & Hs & Hc). unmon. inversion E; subst.
      split; [by split|]. intros b0 c0 Eo; inversion Eo; subst. by apply Hc.
    - unfold bind at 1 in E.
      destruct (not_older env cached child (p, s)) as [[[b c']|e] [p3 s3]] eqn:E2;
        [unmon; discriminate|].
      apply not_older_spec in E2 as (Hp & Hs & _). unmon.
      inversion E; subst. inversion Eh; subst. split; [by split|]. done. }
  destruct Hsame as [Hsame Ho].
  assert (Hkeep : (Ok acc, (p1, s1)) = (Ok acc', (p', s')) ->
            same_handle p p' /\ trav_inv table root p' acc' /\ snd acc `prefix_of` snd acc').
  { intros E'; inversion E'; subst. split; [done|].
    split; [by eapply trav_inv_stable|done]. }
  destruct o as [[[|] c']|]; unmon; try by apply Hkeep.
  inversion H; subst. clear H Hkeep.
  destruct (Ho true c' eq_refl) as [Hpid Hold]. specialize (Hold eq_refl).
  apply (trav_inv_stable _ _ _ _ _ Hinv) in Hsame as Hinv'.
  destruct Hinv' as (F & I1 & I2 & I3 & I4). destruct acc as [ret0 checkpids]. simpl in *.
  split; [done|]. split; [|case_bool_decide; [done|by apply prefix_app_r]].
  assert (Hsub : forall x, x ∈ checkpids ->
            x ∈ (if bool_decide (pid c' ∈ checkpids) then checkpids
                 else checkpids ++ [pid c'])).
  { intros x Hx. case_bool_decide; [done|]. apply elem_of_app. by left. }
  repeat split; simpl.
  - apply Forall_app. split; [done|]. by repeat constructor.
  - intros c Hc. apply elem_of_app in Hc as [Hc|Hc].
    + destruct (I1 c Hc) as (k0 & c0 & ? & ? & ?). exists k0, c0. auto.
    + apply list_elem_of_singleton in Hc as ->. exists k, child. auto.
  - intros x Hx.
    assert (Hx' : x ∈ checkpids \/ x = pid c').
    { case_bool_decide; [by left|]. apply elem_of_app in Hx as [?|Hx]; [by left|].
      apply list_elem_of_singleton in Hx. by right. }
    destruct Hx' as [Hx'| ->].
    + destruct (I2 x Hx') as [?|(c & ? & ?)]; [by left|].
      right. exists c. split; [|done]. apply elem_of_app. by left.
    + right. exists c'. split; [|done]. apply elem_of_app. right. by left.
  - case_bool_decide; [done|]. apply NoDup_app. split; [done|].
    split; [|apply NoDup_singleton].
    intros x Hx Hx'. apply list_elem_of_singleton in Hx' as ->. done.
  - intros x Hx.
    assert (Hx' : x ∈ checkpids \/ x = pid c').
    { case_bool_decide; [by left|]. apply elem_of_app in Hx as [?|Hx]; [by left|].
      apply list_elem_of_singleton in Hx. by right. }
    destruct Hx' as [Hx'| ->]; [by apply I4|].
    right. rewrite Hpid. apply list_elem_of_fmap. by exists (k, child).
Qed.

Lemma for_fold_visit (env : nat -> World) (cached : bool) (table : list (Z * Process))
    (root k : Z) (cs : list Process) :
  (forall c, c ∈ cs -> (k, c) ∈ table) ->
  forall (acc acc' : list Process * list Z) (p p' : Process) (s s' : St),
    for_fold cs (visit env cached) acc (p, s) = (Ok acc', (p', s')) ->
    trav_inv table root p acc -> k ∈ snd acc ->
    same_handle p p' /\ trav_inv table root p' acc' /\ snd acc `prefix_of` snd acc'.
Proof.
  induction cs as [|c cs IH]; intros Hcs acc acc' p p' s s' H Hinv Hk; simpl in H.
  - unmon. inversion H; subst. split; [apply same_handle_refl|]. by split.
  - unfold bind at 1 in H.
    destruct (visit env cached c acc (p, s)) as [[acc1|e] [p1 s1]] eqn:E1; [|discriminate].
    eapply visit_spec in E1 as (H1 & Hinv1 & Hpre1); [|done|apply Hcs; by left|done].
    apply IH in H as (H2 & Hinv2 & Hpre2); [| |done|].
    + split; [by eapply same_handle_trans|]. split; [done|].
      by etrans.
    + intros c' Hc'. apply Hcs. by right.
    + destruct Hpre1 as [l ->]. apply elem_of_app. by left.
Qed.

Lemma elem_of_table_get (table : list (Z * Process)) (k : Z) (c : Process) :
  c ∈ table_get table k <-> (k, c) ∈ table.
Proof.
  unfold table_get. rewrite list_elem_of_fmap. split.
  - intros ([k' c'] & -> & H). apply list_elem_of_filter in H as [E H].
    simpl in E. by subst.
  - intros H. exists (k, c). split; [done|]. by apply list_elem_of_filter.
Qed.

(** [checkpids] is never longer than the table and the root. *)
Lemma trav_inv_length (table : list (Z * Process)) (root : Z) (p : Process)
    (acc : list Process * list Z) :
  trav_inv table root p acc -> (length (snd acc) <= S (length table))%nat.
Proof.
  intros (_ & _ & _ & Hnd & Hsub).
  assert (H : snd acc ⊆+ root :: ((fun e => pid (snd e)) <$> table)).
  { apply NoDup_submseteq; [done|]. intros x Hx. by apply Hsub. }
  apply submseteq_length in H. simpl in H. by rewrite length_fmap in H.
Qed.

(** With fuel for every pid of the table the loop reaches the end of
    [checkpids]. *)
Lemma traverse_spec (env : nat -> World) (cached : bool) (table : list (Z * Process))
    (root : Z) (fuel : nat) :
  forall (i : nat) (acc acc' : list Process * list Z) (fin : bool)
         (p p' : Process) (s s' : St),
    traverse env cached table fuel i acc (p, s) = (Ok (acc', fin), (p', s')) ->
    trav_inv table root p acc ->
    (S (length table) <= fuel + i)%nat ->
    same_handle p p' /\ trav_inv table root p' acc' /\ fin = true.
Proof.
  induction fuel as [|fuel IH]; intros i acc acc' fin p p' s s' H Hinv Hfuel;
    simpl in H; destruct (snd acc !! i) as [pid0|] eqn:Ei.
  - apply lookup_lt_Some in Ei. apply trav_inv_length in Hinv. lia.
  - unmon. inversion H; subst. split; [apply same_handle_refl|]. by split.
  - unfold bind at 1 in H.
    destruct (for_fold _ _ acc (p, s)) as [[acc1|e] [p1 s1]] eqn:E1; [|discriminate].
    eapply (for_fold_visit env cached table root pid0) in E1 as (H1 & Hinv1 & Hpre1);
      [|intros c; apply elem_of_table_get|done|by eapply list_elem_of_lookup_2].
    apply IH in H as (H2 & Hinv2 & Hfin); [|done|lia].
    split; [by eapply same_handle_trans|]. by split.
  - unmon. inversion H; subst. split; [apply same_handle_refl|]. by split.
Qed.

#[local] Arguments traverse : simpl never.

(** What [descendants] returns: handles not older than the target, each
    filed under the target's pid or under the pid of a handle returned;
    hence nothing below a pid that no handle of the table has. *)
Lemma descendants_spec (env : nat -> World) (plat : Platform)
    (table : list (Z * Process)) (p p' : Process) (s s' : St) (ret : list Process) :
  descendants env plat table (p, s) = (Ok ret, (p', s')) ->
  same_handle p p' /\
  Forall (not_older_than p') ret /\
  (forall c, c ∈ ret ->
             exists k c0, (k, c0) ∈ table /\ pid c0 = pid c /\
                          (k = pid p \/ exists c', c' ∈ ret /\ pid c' = k)).
Proof.
  unfold descendants. unfold self, bind at 1. simpl. unfold bind at 1.
  destruct (traverse env (negb (has_ppid_map plat)) table (S (length table)) 0
              ([], [pid p]) (p, s)) as [[[[ret1 cp] fin]|e] [p1 s1]] eqn:E;
    [|discriminate].
  unmon. intros H; inversion H; subst.
  apply (traverse_spec env _ table (pid p)) in E as (Hs & (F & I1 & I2 & _) & _);
    [| |lia].
  - split; [done|]. split; [done|]. simpl in *. intros c Hc.
    destruct (I1 c Hc) as (k & c0 & Hk & Hp & Hin). exists k, c0.
    split; [done|]. split; [done|]. by apply I2.
  - repeat split; simpl.
    + constructor.
    + intros c Hc. by apply not_elem_of_nil in Hc.
    + intros k Hk. apply list_elem_of_singleton in Hk. by left.
    + apply NoDup_singleton.
    + intros k Hk. apply list_elem_of_singleton in Hk as ->. by left.
Qed.

Lemma NoDup_fmap_inj {A B : Type} (f : A -> B) (l : list A) (x y : A) :
  NoDup (f <$> l) -> x ∈ l -> y ∈ l -> f x = f y -> x = y.
Proof.
  induction l as [|a l IH]; intros Hnd Hx Hy E.
  - by apply not_elem_of_nil in Hx.
  - rewrite fmap_cons in Hnd. apply NoDup_cons in Hnd as [Ha Hnd].
    apply elem_of_cons in Hx as [->|Hx], Hy as [->|Hy]; auto.
    + destruct Ha. rewrite E. by apply list_elem_of_fmap_2.
    + destruct Ha. rewrite <- E. by apply list_elem_of_fmap_2.
Qed.

Lemma descendants_skip_subtree (table : list (Z * Process)) (root x : Z)
    (ret : list Process) :
  (forall c, c ∈ ret ->
             exists k c0, (k, c0) ∈ table /\ pid c0 = pid c /\
                          (k = root \/ exists c', c' ∈ ret /\ pid c' = k)) ->
  NoDup ((fun e => pid (snd e)) <$> table) ->
  x <> root ->
  x ∉ (fun e => pid (snd e)) <$> table ->
  ~ below table x root ->
  forall y, below table x y -> forall c, c ∈ ret -> pid c <> y.
Proof.
  intros Hret Hnd Hx Hgone Hroot.
  assert (Hkey : forall k1 c1 k2 c2,
             (k1, c1) ∈ table -> (k2, c2) ∈ table -> pid c1 = pid c2 -> k1 = k2).
  { intros k1 c1 k2 c2 H1 H2 Hp.
    assert (E : (k1, c1) = (k2, c2)); [|by inversion E].
    eapply (NoDup_fmap_inj (fun e : Z * Process => pid (snd e))); eauto. }
  assert (Hhandle : forall c, c ∈ ret -> pid c ∈ (fun e => pid (snd e)) <$> table).
  { intros c Hc. destruct (Hret c Hc) as (k & c0 & Hk & Hp & _).
    apply list_elem_of_fmap. exists (k, c0). by split. }
  induction 1 as [c0 Hc0|k c0 Hbelow IH Hc0]; intros c Hc Hp.
  - destruct (Hret c Hc) as (k' & c1 & Hk' & Hp1 & Hpar).
    assert (k' = x) as -> by (eapply Hkey; eauto; congruence).
    destruct Hpar as [?|(c' & Hc' & Hp')]; [done|].
    apply Hgone. rewrite <- Hp'. by apply Hhandle.
  - destruct (Hret c Hc) as (k' & c1 & Hk' & Hp1 & Hpar).
    assert (k' = k) as -> by (eapply Hkey; eauto; congruence).
    destruct Hpar as [->|(c' & Hc' & Hp')]; [done|].
    by apply (IH c' Hc').
Qed.

(** ** [get_children] as a whole *)

Lemma assert_pid_not_reused_Ok {A : Type} (env : nat -> World) (f : Method A)
    (p p' : Process) (s s' : St) (a : A) :
  _assert_pid_not_reused env f (p, s) = (Ok a, (p', s')) ->
  exists p1 s1, same_handle p p1 /\ f (p1, s1) = (Ok a, (p', s')).
Proof.
  unfold _assert_pid_not_reused. unfold bind at 1.
  destruct (is_running env (p, s)) as [[[|]|e] [p1 s1]] eqn:E; simpl;
    [|unmon; discriminate|discriminate].
  intros H. exists p1, s1. split; [|done].
  apply is_running_self in E as [->|[_ ?]]; [apply same_handle_refl|discriminate].
Qed.

Lemma lift_bind_self {A B : Type} (m : M A) (k : A -> Method B)
    (p p' : Process) (s s' : St) (r : Res B) :
  (let* x := lift m in k x)%mon (p, s) = (r, (p', s')) ->
  (exists e, m s = (Raise e, s') /\ r = Raise e /\ p' = p) \/
  (exists x s1, m s = (Ok x, s1) /\ k x (p, s1) = (r, (p', s'))).
Proof.
  unfold bind, lift. simpl. destruct (m s) as [[x|e] s1].
  - intros H. right. eauto.
  - intros H; inversion H; subst. left. eauto.
Qed.

Lemma table_slow_spec (env : nat -> World) (plat : Platform) (o : option Process)
    (p p' : Process) (s s' : St) (r : Res (list (Z * Process))) :
  table_slow env plat o (p, s) = (r, (p', s')) ->
  same_handle p p' /\ forall ys, r = Ok ys -> Forall (fun _ => True) ys.
Proof.
  intros H. split; [|intros; by apply Forall_forall].
  unfold table_slow in H. destruct o as [c|]; [|unmon; inversion H; apply same_handle_refl].
  apply try_except_NoSuchProcess in H as [H|([p1 s1] & H & Hh)]; unfold bind in H;
    destruct (call_other true c (ppid env plat) (p, s)) as [[[pp c1]|e] [p2 s2]] eqn:E1;
    apply call_other_spec in E1 as [-> _]; unmon;
    inversion H; subst; try (inversion Hh; subst); apply same_handle_refl.
Qed.

Lemma table_fast_spec (env : nat -> World) (item : Z * Z)
    (p p' : Process) (s s' : St) (r : Res (list (Z * Process))) :
  table_fast env item (p, s) = (r, (p', s')) ->
  same_handle p p' /\ forall ys, r = Ok ys -> Forall (fun _ => True) ys.
Proof.
  intros H. split; [|intros; by apply Forall_forall].
  unfold table_fast in H.
  apply try_except_NoSuchProcess in H as [H|([p1 s1] & H & Hh)]; unfold bind, lift in H;
    simpl in H; destruct (Process_init env (fst item) s) as [[c|e] s2]; unmon;
    inversion H; subst; try (inversion Hh; subst); apply same_handle_refl.
Qed.

Lemma build_table_spec (env : nat -> World) (plat : Platform)
    (p p' : Process) (s s' : St) (table : list (Z * Process)) :
  build_table env plat (p, s) = (Ok table, (p', s')) -> same_handle p p'.
Proof.
  unfold build_table. destruct (negb (has_ppid_map plat)); intros H;
    apply lift_bind_self in H as [(e & _ & ? & _)|(x & s1 & _ & H)]; try discriminate.
  - by apply (for_yield_self (table_slow env plat) (fun _ _ => True)
                (fun x p s r p' s' => table_slow_spec env plat x p p' s s' r)) in H as [? _].
  - by apply (for_yield_self (table_fast env) (fun _ _ => True)
                (fun x p s r p' s' => table_fast_spec env x p p' s s' r)) in H as [? _].
Qed.

(** Every handle [get_children] returns is not older than the target. *)
Lemma get_children_not_older (env : nat -> World) (plat : Platform) (recursive : bool)
    (p p' : Process) (s s' : St) (ret : list Process) :
  get_children env plat recursive (p, s) = (Ok ret, (p', s')) ->
  same_handle p p' /\ Forall (not_older_than p') ret.
Proof.
  unfold get_children. intros H.
  apply assert_pid_not_reused_Ok in H as (p1 & s1 & Hs1 & H).
  destruct recursive; simpl in H.
  - unfold bind at 1 in H.
    destruct (build_table env plat (p1, s1)) as [[table|e] [p2 s2]] eqn:Et; [|discriminate].
    apply build_table_spec in Et. apply descendants_spec in H as (Hs2 & F & _).
    split; [|done]. eapply same_handle_trans; [done|]. by eapply same_handle_trans.
  - destruct (negb (has_ppid_map plat));
      apply lift_bind_self in H as [(e & _ & ? & _)|(x & s2 & _ & H)]; try discriminate.
    + apply (for_yield_self (children_slow env plat) not_older_than
               (fun x p s r p' s' => children_slow_spec env plat x p p' s s' r)) in H as [Hs2 F].
      * split; [by eapply same_handle_trans|]. by apply F.
      * intros q q' y Hy [_ Hq]. by eapply not_older_than_stable.
    + apply (for_yield_self (children_fast env) not_older_than
               (fun x p s r p' s' => children_fast_spec env x p p' s s' r)) in H as [Hs2 F].
      * split; [by eapply same_handle_trans|]. by apply F.
      * intros q q' y Hy [_ Hq]. by eapply not_older_than_stable.
Qed.

(** ** The table of the recursive mode *)

Lemma table_slow_pid (env : nat -> World) (plat : Platform) (o : option Process)
    (ps ps' : Process * St) (es : list (Z * Process)) :
  table_slow env plat o ps = (Ok es, ps') ->
  omap (fun e => Some (pid (snd e))) es `sublist_of` omap (fmap pid) [o].
Proof.
  destruct ps as [p s], ps' as [p' s']. unfold table_slow.
  destruct o as [c|]; [|unmon; discriminate].
  intros H. apply try_except_NoSuchProcess in H as [H|([p1 s1] & _ & Hh)].
  - unfold bind in H.
    destruct (call_other true c (ppid env plat) (p, s)) as [[[pp c1]|e] [p2 s2]] eqn:E1;
      [|discriminate].
    apply call_other_spec in E1 as [-> Hc]. destruct (Hc pp c1 eq_refl) as (s3 & E3).
    assert (pid c1 = pid c) as Hp.
    { clear -E3. unfold ppid in E3. unmon. destruct (posix plat).
      - destruct (w_get_ppid _ _); cbn in E3; by inversion E3.
      - destruct (_ppid c); [by inversion E3|].
        cbn in E3. destruct (w_get_ppid _ _); cbn in E3; by inversion E3. }
    unmon. inversion H; subst. cbn. by rewrite Hp.
  - unmon. inversion Hh; subst. apply sublist_nil_l.
Qed.

Lemma table_fast_pid (env : nat -> World) (item : Z * Z)
    (ps ps' : Process * St) (es : list (Z * Process)) :
  table_fast env item ps = (Ok es, ps') ->
  omap (fun e => Some (pid (snd e))) es `sublist_of` omap (fun i => Some (fst i)) [item].
Proof.
  destruct ps as [p s], ps' as [p' s']. unfold table_fast.
  intros H. apply try_except_NoSuchProcess in H as [H|([p1 s1] & _ & Hh)].
  - unfold bind, lift in H. simpl in H.
    destruct (Process_init env (fst item) s) as [[c|e] s2] eqn:Ei; [|discriminate].
    apply Process_init_Ok in Ei as (_ & Hp & _).
    unmon. inversion H; subst. cbn. by rewrite Hp.
  - unmon. inversion Hh; subst. apply sublist_nil_l.
Qed.

(** The table of the recursive mode files every pid at most once. *)
Lemma build_table_NoDup (env : nat -> World) (plat : Platform)
    (p p' : Process) (s s' : St) (table : list (Z * Process)) :
  registry_ok (_pmap s) ->
  NoDup (w_get_ppid_map (env (tick s))).*1 ->
  build_table env plat (p, s) = (Ok table, (p', s')) ->
  NoDup ((fun e => pid (snd e)) <$> table).
Proof.
  intros Hreg Hmap. unfold build_table. destruct (negb (has_ppid_map plat)); intros H;
    apply lift_bind_self in H as [(e & _ & ? & _)|(x & s1 & Hx & H)]; try discriminate.
  - apply (for_yield_sublist _ (fmap pid) (fun e => Some (pid (snd e)))) in H.
    + rewrite omap_Some_fmap in H. eapply sublist_NoDup; [|exact H].
      eapply sublist_NoDup; [apply (items_keys_NoDup env s)|].
      by eapply process_iter_pids.
    + apply Forall_forall. intros o _ st es st'. apply table_slow_pid.
  - unfold platform in Hx. inversion Hx; subst.
    apply (for_yield_sublist _ (fun i => Some (fst i)) (fun e => Some (pid (snd e)))) in H.
    + rewrite !omap_Some_fmap in H. by eapply sublist_NoDup.
    + apply Forall_forall. intros o _ st es st'. apply table_fast_pid.
Qed.

Lemma Process_init_pmap (env : nat -> World) (k : Z) (s s' : St) (r : Res Process) :
  Process_init env k s = (r, s') -> _pmap s' = _pmap s.
Proof.
  unfold Process_init. destruct (k <? 0); unmon; [by intros [= _ <-]|].
  destruct (w_Process (env (tick s)) k) as [[]| |]; cbn; try by intros [= _ <-].
  destruct (w_get_create_time (env (S (tick s))) k); cbn; by intros [= _ <-].
Qed.

Lemma is_running_pmap (env : nat -> World) (p p' : Process) (s s' : St) (r : Res bool) :
  is_running env (p, s) = (r, (p', s')) -> _pmap s' = _pmap s.
Proof.
  destruct (_gone p) eqn:Hg.
  - rewrite is_running_gone by done. by intros [= _ _ <-].
  - rewrite is_running_live by done.
    destruct (Process_init env (pid p) s) as [[q|e] s1] eqn:E;
      apply Process_init_pmap in E; [by intros [= _ _ <-]|].
    destruct e; by intros [= _ _ <-].
Qed.

(** C7, as stated, fails: the recursive mode returns process 3 below
    process 2, although 3 was created before 2, its resolved parent. *)
Lemma C7_counterexample :
  exists b x,
    fst (get_children (fun _ => world_reused_parent) linux true (handle1, st0))
    = Ok [b; x] /\
    w_get_ppid world_reused_parent (pid x) = BOk (pid b) /\
    create_time b = Some 30 /\ create_time x = Some 20.
Proof. eexists _, _. split; [vm_compute; reflexivity|]. by repeat split. Qed.

(** C7, amended. No handle [get_children] returns, recursive or not, has a
    creation time earlier than the target's: each edge of the traversal
    is filtered against the creation time of the target. In the
    recursive mode a handle is returned only if the parent pid read for
    it is the target's pid or the pid of another handle returned; so
    when no enumerated process has the pid [x], nothing below [x] is
    returned. *)
Theorem C7_children_not_older_than_target
    (env : nat -> World) (plat : Platform) (recursive : bool)
    (p p' : Process) (s s' : St) (ret : list Process) :
  get_children env plat recursive (p, s) = (Ok ret, (p', s')) ->
  pid p' = pid p /\
  Forall (not_older_than p') ret /\
  (recursive = true ->
   exists p1 s1 p2 s2 table,
     build_table env plat (p1, s1) = (Ok table, (p2, s2)) /\
     (forall c, c ∈ ret ->
                exists k c0, (k, c0) ∈ table /\ pid c0 = pid c /\
                             (k = pid p \/ exists c', c' ∈ ret /\ pid c' = k)) /\
     (registry_ok (_pmap s) ->
      (forall t, NoDup (w_get_ppid_map (env t)).*1) ->
      forall x, x <> pid p ->
                x ∉ (fun e => pid (snd e)) <$> table ->
                ~ below table x (pid p) ->
                forall y, below table x y -> forall c, c ∈ ret -> pid c <> y)).
Proof.
  intros H. destruct (get_children_not_older _ _ _ _ _ _ _ _ H) as [[Hp _] F].
  split; [done|]. split; [done|]. intros ->.
  unfold get_children, _assert_pid_not_reused in H. unfold bind at 1 in H.
  destruct (is_running env (p, s)) as [[[|]|e] [p1 s1]] eqn:Er; simpl in H;
    [|unmon; discriminate|discriminate].
  apply is_running_pid in Er as Hp1. apply is_running_pmap in Er as Hm1.
  unfold bind at 1 in H.
  destruct (build_table env plat (p1, s1)) as [[table|e] [p2 s2]] eqn:Et; [|discriminate].
  apply build_table_spec in Et as Hs2. destruct Hs2 as [Hp2 _].
  apply descendants_spec in H as (_ & _ & Hret).
  assert (Hroot : pid p2 = pid p) by congruence. rewrite Hroot in Hret.
  exists p1, s1, p2, s2, table. split; [done|]. split; [done|].
  intros Hreg Hmap x Hx Hgone Hbelow.
  eapply descendants_skip_subtree; eauto.
  eapply build_table_NoDup; [| |exact Et]; [by rewrite Hm1|apply Hmap].
Qed.

Example children_of_1_pids : pid <$> ok_list (fst children_of_1) = [2; 3; 4].
Proof. vm_compute. reflexivity. Qed.

Lemma C7_witness :
  Forall (not_older_than (fst (snd children_of_1))) (ok_list (fst children_of_1)).
Proof.
  apply (C7_children_not_older_than_target (fun _ => world_lost5) linux true
           handle1 (fst (snd children_of_1)) st0 (snd (snd children_of_1))
           (ok_list (fst children_of_1))).
  vm_compute. reflexivity.
Defined.

(* ================================================================== *)
(** * Waiting for processes: [assert_gone] and [wait_procs]             *)
(* ================================================================== *)

Lemma wait_spec (env : nat -> World) (t : Q) (p : Process) (s : St) :
  (0 <= t)%Q ->
  wait env (Some t) (p, s) =
  (match w_process_wait (env (tick s)) (pid p) (Some t) with
   | Exited rc => Ok rc
   | WaitTimeout => Raise TimeoutExpired
   end, (p, next_tick s)).
Proof.
  intros Ht. unfold wait. rewrite (proj2 (Qle_bool_iff 0 t) Ht). unmon.
  by destruct (w_process_wait _ _ _).
Qed.

(** [assert_gone], by what the bounded wait answers. *)
Lemma assert_gone_spec (env : nat -> World) (callback : bool) (proc : Process)
    (t : Q) (acc : list Process * list Process) (s : St) :
  (0 <= t)%Q ->
  assert_gone env callback proc t acc s =
  match w_process_wait (env (tick s)) (pid proc) (Some t) with
  | WaitTimeout => (Ok acc, next_tick s)
  | Exited (Some rc) =>
      let proc' := set_retcode (Some rc) proc in
      (Ok (set_add proc' (fst acc),
           if callback then snd acc ++ [proc'] else snd acc), next_tick s)
  | Exited None =>
      match is_running env (proc, next_tick s) with
      | (Ok true, (_, s')) => (Ok acc, s')
      | (Ok false, (proc', s')) =>
          let proc'' := set_retcode None proc' in
          (Ok (set_add proc'' (fst acc),
               if callback then snd acc ++ [proc''] else snd acc), s')
      | (Raise e, (_, s')) => (Raise e, s')
      end
  end.
Proof.
  intros Ht. unfold assert_gone, call. rewrite wait_spec by done.
  destruct (w_process_wait _ _ _) as [[rc|]|]; try reflexivity.
  destruct (is_running env (proc, next_tick s)) as [[[|]|e] [p' s']]; reflexivity.
Qed.

(** C8, as stated, fails: the wait returns normally, with no exit code,
    for a process that is still running, and the handle is not moved to
    [gone] nor is the callback called. *)
Lemma C8_counterexample :
  w_process_wait world_wait_none (pid handle7) (Some 1%Q) = Exited None /\
  fst (assert_gone (fun _ => world_wait_none) true handle7 1 ([], []) st0)
  = Ok ([], []).
Proof. split; reflexivity. Qed.

(** C8, amended. In [assert_gone], with a timeout that is not negative: a
    [TimeoutExpired] of the wait is swallowed and [gone] stays as it is,
    so the handle stays in [alive]; a return with an exit code adds the
    handle, with the code as its [retcode], to [gone], and calls the
    callback on it if there is one; a return with no exit code does the
    same, with [retcode] None, when [is_running()] answers [False], and
    leaves the handle in [alive] when [is_running()] answers [True]. *)
Theorem C8_assert_gone_moves_or_keeps
    (env : nat -> World) (callback : bool) (proc : Process) (t : Q)
    (gone calls : list Process) (s : St) :
  (0 <= t)%Q ->
  let called proc' := if callback then calls ++ [proc'] else calls in
  (w_process_wait (env (tick s)) (pid proc) (Some t) = WaitTimeout ->
   assert_gone env callback proc t (gone, calls) s = (Ok (gone, calls), next_tick s)) /\
  (forall rc,
      w_process_wait (env (tick s)) (pid proc) (Some t) = Exited (Some rc) ->
      let proc' := set_retcode (Some rc) proc in
      assert_gone env callback proc t (gone, calls) s
      = (Ok (set_add proc' gone, called proc'), next_tick s) /\
      set_mem proc' (set_add proc' gone) = true) /\
  (forall proc' s',
      w_process_wait (env (tick s)) (pid proc) (Some t) = Exited None ->
      is_running env (proc, next_tick s) = (Ok false, (proc', s')) ->
      let proc'' := set_retcode None proc' in
      assert_gone env callback proc t (gone, calls) s
      = (Ok (set_add proc'' gone, called proc''), s') /\
      set_mem proc'' (set_add proc'' gone) = true) /\
  (forall proc' s',
      w_process_wait (env (tick s)) (pid proc) (Some t) = Exited None ->
      is_running env (proc, next_tick s) = (Ok true, (proc', s')) ->
      assert_gone env callback proc t (gone, calls) s = (Ok (gone, calls), s')).
Proof.
  intros Ht called.
  assert (Hmem : forall q, set_mem q (set_add q gone) = true).
  { intros q. unfold set_add. destruct (set_mem q gone) eqn:E; [done|].
    unfold set_mem. rewrite existsb_app. simpl.
    by rewrite eq_Process_refl, orb_true_r. }
  split; [|split; [|split]].
  - intros Hw. by rewrite assert_gone_spec, Hw.
  - intros rc Hw. simpl. by rewrite assert_gone_spec, Hw.
  - intros proc' s' Hw Hr. simpl. by rewrite assert_gone_spec, Hw, Hr.
  - intros proc' s' Hw Hr. by rewrite assert_gone_spec, Hw, Hr.
Qed.

(** Process 7 has exited: the wait returns no exit code and the handle is
    found not running. *)
Lemma C8_witness :
  assert_gone (fun _ => world_of [(1, 10, 0)]) true handle7 1 ([], []) st0
  = (Ok ([set_retcode None (set_gone handle7)], [set_retcode None (set_gone handle7)]),
     next_tick (next_tick st0)).
Proof.
  assert (H : (0 <= 1)%Q) by done.
  apply (proj1 (proj1 (proj2 (proj2
           (C8_assert_gone_moves_or_keeps (fun _ => world_of [(1, 10, 0)]) true
              handle7 1 [] [] st0 H)))
           (set_gone handle7) (next_tick (next_tick st0)) eq_refl eq_refl)).
Defined.

(** ** Sets of handles *)

Lemma eq_Process_key (p q : Process) : __eq__ p (PyProcess q) = true <-> key p = key q.
Proof. unfold __eq__, key. apply bool_decide_eq_true. Qed.

Lemma set_mem_key (p : Process) (l : list Process) :
  set_mem p l = true <-> key p ∈ key <$> l.
Proof.
  unfold set_mem. rewrite existsb_exists, list_elem_of_fmap. split.
  - intros (q & Hq & E). apply eq_Process_key in E.
    exists q. split; [done|]. by apply list_elem_of_In.
  - intros (q & E & Hq). exists q. split; [by apply list_elem_of_In|].
    by apply eq_Process_key.
Qed.

Lemma set_mem_false_key (p : Process) (l : list Process) :
  set_mem p l = false <-> key p ∉ key <$> l.
Proof. rewrite <- set_mem_key. by destruct (set_mem p l). Qed.

Lemma set_add_keys (p : Process) (l : list Process) :
  NoDup (key <$> l) ->
  NoDup (key <$> set_add p l) /\
  (forall k, k ∈ key <$> set_add p l <-> k = key p \/ k ∈ key <$> l).
Proof.
  intros Hnd. unfold set_add. destruct (set_mem p l) eqn:E.
  - apply set_mem_key in E. split; [done|]. intros k. split; [auto|].
    by intros [->|?].
  - apply set_mem_false_key in E. rewrite fmap_app. cbn. split.
    + apply NoDup_app. split; [done|]. split; [|apply NoDup_singleton].
      intros k Hk Hk'. apply list_elem_of_singleton in Hk' as ->. done.
    + intros k. rewrite elem_of_app, list_elem_of_singleton. tauto.
Qed.

Lemma set_of_NoDup (procs : list Process) : NoDup (key <$> set_of procs).
Proof.
  unfold set_of. assert (H : NoDup (key <$> ([] : list Process))) by constructor.
  revert H. generalize ([] : list Process).
  induction procs as [|p procs IH]; intros acc H; simpl; [done|].
  apply IH. by apply set_add_keys.
Qed.

Lemma elem_of_set_diff (p : Process) (a g : list Process) :
  p ∈ set_diff a g <-> p ∈ a /\ set_mem p g = false.
Proof. unfold set_diff. rewrite list_elem_of_filter. tauto. Qed.

(** Taking away more: [(a - g) - g'] is [a - g'] when [g'] holds [g]. *)
Lemma set_diff_diff (a g g' : list Process) :
  (forall k, k ∈ key <$> g -> k ∈ key <$> g') ->
  set_diff (set_diff a g) g' = set_diff a g'.
Proof.
  intros Hsub. unfold set_diff. rewrite list_filter_filter.
  apply list_filter_iff. intros p. split; [tauto|]. intros H. split; [done|].
  apply set_mem_false_key. apply set_mem_false_key in H. auto.
Qed.

(** [gone] and [a - gone] share out the members of [a]. *)
Lemma set_diff_length (a g : list Process) :
  NoDup (key <$> a) -> NoDup (key <$> g) ->
  (forall k, k ∈ key <$> g -> k ∈ key <$> a) ->
  (length g + length (set_diff a g) = length a)%nat.
Proof.
  intros Ha Hg Hsub.
  pose proof (filter_app_complement (fun p => set_mem p g = false) a) as Hperm.
  apply Permutation_length in Hperm. rewrite length_app in Hperm.
  fold (set_diff a g) in Hperm. rewrite <- Hperm.
  set (inside := filter (fun p => ~ set_mem p g = false) a).
  assert (Hin : key <$> inside ≡ₚ key <$> g).
  { apply NoDup_Permutation; [|done|].
    - apply NoDup_fmap_2_strong.
      + intros x y Hx Hy E. apply list_elem_of_filter in Hx as [_ Hx], Hy as [_ Hy].
        by apply (NoDup_fmap_inj key a).
      + apply NoDup_filter. by apply NoDup_fmap_1 in Ha.
    - intros k. unfold inside. rewrite !list_elem_of_fmap. split.
      + intros (p & -> & Hp). apply list_elem_of_filter in Hp as [Hp _].
        apply list_elem_of_fmap. apply set_mem_key.
        by destruct (set_mem p g).
      + intros (q & -> & Hq).
        assert (Hk : key q ∈ key <$> a) by (apply Hsub; by apply list_elem_of_fmap_2).
        apply list_elem_of_fmap in Hk as (p & E & Hp). exists p. split; [done|].
        apply list_elem_of_filter. split; [|done].
        assert (set_mem p g = true); [|congruence].
        apply set_mem_key. rewrite <- E. by apply list_elem_of_fmap_2. }
  apply Permutation_length in Hin. rewrite !length_fmap in Hin. lia.
Qed.

(** ** The partition kept by the loops of [wait_procs] *)

Lemma gone_ok_nil (a : list Process) : gone_ok a [].
Proof. repeat split; [constructor|intros k Hk; by apply not_elem_of_nil in Hk|constructor]. Qed.

Lemma wait_self (env : nat -> World) (timeout : option Q) (p p' : Process)
    (s s' : St) (r : Res (option Z)) :
  wait env timeout (p, s) = (r, (p', s')) -> p' = p /\ (tick s <= tick s')%nat.
Proof.
  unfold wait. destruct (match timeout with Some _ => _ | None => _ end); unmon.
  - intros [= _ <- <-]. auto.
  - destruct (w_process_wait _ _ _); intros [= _ <- <-]; simpl; auto.
Qed.

Lemma Process_init_tick (env : nat -> World) (k : Z) (s s' : St) (r : Res Process) :
  Process_init env k s = (r, s') -> (tick s <= tick s')%nat.
Proof.
  unfold Process_init. destruct (k <? 0); unmon; [by intros [= _ <-]|].
  destruct (w_Process (env (tick s)) k) as [[]| |]; cbn;
    try (intros [= _ <-]; simpl; lia).
  destruct (w_get_create_time (env (S (tick s))) k); cbn; intros [= _ <-]; simpl; lia.
Qed.

Lemma is_running_tick (env : nat -> World) (p p' : Process) (s s' : St) (r : Res bool) :
  is_running env (p, s) = (r, (p', s')) -> (tick s <= tick s')%nat.
Proof.
  destruct (_gone p) eqn:Hg.
  - rewrite is_running_gone by done. by intros [= _ _ <-].
  - rewrite is_running_live by done.
    destruct (Process_init env (pid p) s) as [[q|e] s1] eqn:E;
      apply Process_init_tick in E; [by intros [= _ _ <-]|].
    destruct e; by intros [= _ _ <-].
Qed.

Lemma is_running_key (env : nat -> World) (p p' : Process) (s s' : St) (r : Res bool) :
  is_running env (p, s) = (r, (p', s')) -> key p' = key p.
Proof. intros H. by apply is_running_self in H as [->|[-> _]]. Qed.

(** [assert_gone] leaves [gone] and the calls as they are, or adds to
    both one handle equal to [proc], with a [retcode]. *)
Lemma assert_gone_Ok (env : nat -> World) (callback : bool) (proc : Process) (t : Q)
    (acc acc' : list Process * list Process) (s s' : St) :
  assert_gone env callback proc t acc s = (Ok acc', s') ->
  (tick s <= tick s')%nat /\
  (acc' = acc \/
   exists proc', key proc' = key proc /\ retcode proc' <> None /\
                 acc' = (set_add proc' (fst acc),
                         if callback then snd acc ++ [proc'] else snd acc)).
Proof.
  unfold assert_gone, call.
  destruct (wait env (Some t) (proc, s)) as [[rc|e] [p1 s1]] eqn:Ew;
    apply wait_self in Ew as [-> Ht1].
  2:{ destruct e; try discriminate. intros [= <- <-]. auto. }
  destruct rc as [rc|].
  - intros [= <- <-]. split; [done|]. right. exists (set_retcode (Some rc) proc).
    by repeat split.
  - destruct (is_running env (proc, s1)) as [[[|]|e] [p2 s2]] eqn:Er;
      apply is_running_tick in Er as Ht2; apply is_running_key in Er;
      intros H; inversion H; subst; (split; [lia|]); [by left|].
    right. exists (set_retcode None p2). by repeat split.
Qed.

Lemma assert_gone_inv (env : nat -> World) (callback : bool) (a : list Process)
    (proc : Process) (t : Q) (acc acc' : list Process * list Process) (s s' : St) :
  assert_gone env callback proc t acc s = (Ok acc', s') ->
  key proc ∈ key <$> a -> gone_ok a (fst acc) ->
  (tick s <= tick s')%nat /\ gone_ok a (fst acc') /\
  (forall k, k ∈ key <$> fst acc -> k ∈ key <$> fst acc').
Proof.
  intros H Hp (Hnd & Hsub & Hrc). apply assert_gone_Ok in H as [Ht [->|(q & Hq & Hr & ->)]].
  - by repeat split.
  - simpl. destruct (set_add_keys q (fst acc) Hnd) as [Hnd' Hk].
    split; [done|]. split; [repeat split|].
    + done.
    + intros k Hk'. apply Hk in Hk' as [->|?]; [by rewrite Hq|auto].
    + unfold set_add. destruct (set_mem q (fst acc)); [done|].
      apply Forall_app. split; [done|]. by repeat constructor.
    + intros k Hk'. apply Hk. by right.
Qed.

(** One sweep of the main loop. *)
Lemma sweep_inv (env : nat -> World) (callback : bool) (deadline : Q)
    (a alive rest : list Process) :
  (forall p, p ∈ rest -> key p ∈ key <$> a) ->
  forall (st st' : WaitSt) (s s' : St),
    sweep env callback deadline alive rest st s = (Ok st', s') ->
    gone_ok a (fst (snd st)) ->
    (tick s <= tick s')%nat /\ gone_ok a (fst (snd st')) /\
    (forall k, k ∈ key <$> fst (snd st) -> k ∈ key <$> fst (snd st')) /\
    (is_Some (fst st) <-> is_Some (fst st')).
Proof.
  induction rest as [|proc rest IH]; intros Hrest [timeout acc] st' s s' H Hok;
    simpl in H.
  - unmon. inversion H; subst. split; [lia|]. split; [done|]. split; [auto|done].
  - assert (Hproc : key proc ∈ key <$> a) by (apply Hrest; by left).
    assert (Hrest' : forall p, p ∈ rest -> key p ∈ key <$> a).
    { intros p Hp. apply Hrest. by right. }
    destruct timeout as [t0|]; simpl in H.
    + unfold bind at 1, platform in H.
      set (t := py_min _ _) in H. destruct (Qle_bool t 0).
      * unfold ret in H. inversion H; subst. simpl in *.
        split; [lia|]. split; [done|]. split; [auto|]. split; eauto.
      * unfold bind at 1 in H.
        destruct (assert_gone env callback proc t acc (next_tick s))
          as [[acc1|e] s1] eqn:Ea; [|discriminate].
        eapply assert_gone_inv in Ea as (Ht1 & Hok1 & Hsub1); [|done|done].
        apply IH in H as (Ht2 & Hok2 & Hsub2 & Hsome); [|done|done].
        simpl in *. split; [lia|]. split; [done|]. split; [auto|].
        rewrite <- Hsome. split; eauto.
    + unfold bind at 1 in H.
      destruct (assert_gone env callback proc _ acc s) as [[acc1|e] s1] eqn:Ea;
        [|discriminate].
      eapply assert_gone_inv in Ea as (Ht1 & Hok1 & Hsub1); [|done|done].
      apply IH in H as (Ht2 & Hok2 & Hsub2 & Hsome); [|done|done].
      simpl in *. split; [lia|]. split; [done|]. split; [auto|done].
Qed.

(** The main loop keeps [alive] equal to the input set less [gone]. *)
Lemma wait_loop_inv (env : nat -> World) (callback : bool) (deadline : Q)
    (a : list Process) (fuel : nat) :
  forall (alive alive' : list Process) (st st' : WaitSt) (s s' : St),
    wait_loop env fuel callback deadline alive st s = (Ok (Some (alive', st')), s') ->
    alive = set_diff a (fst (snd st)) -> gone_ok a (fst (snd st)) ->
    alive' = set_diff a (fst (snd st')) /\ gone_ok a (fst (snd st')).
Proof.
  induction fuel as [|fuel IH]; intros alive alive' st st' s s' H Halive Hok;
    simpl in H; destruct alive as [|p0 alive0] eqn:Ea.
  - unmon. inversion H; subst. by rewrite <- Halive.
  - destruct (timed_out (fst st)); unmon; [|discriminate].
    inversion H; subst. by rewrite <- Halive.
  - unmon. inversion H; subst. by rewrite <- Halive.
  - destruct (timed_out (fst st)).
    { unmon. inversion H; subst. by rewrite <- Halive. }
    unfold bind at 1 in H. rewrite <- Ea in H.
    destruct (sweep env callback deadline alive alive st s) as [[st1|e] s1] eqn:Es;
      [|discriminate].
    eapply (sweep_inv env callback deadline a) in Es as (_ & Hok1 & Hsub1 & _); [| |done].
    + apply IH in H; [done| |done].
      subst alive. rewrite Halive. by apply set_diff_diff.
    + intros p Hp. rewrite Ea, Halive in Hp. apply elem_of_set_diff in Hp as [Hp _].
      by apply list_elem_of_fmap_2.
Qed.

Lemma last_sweep_inv (env : nat -> World) (callback : bool) (a alive : list Process) :
  (forall p, p ∈ alive -> key p ∈ key <$> a) ->
  forall (acc acc' : list Process * list Process) (s s' : St),
    last_sweep env callback alive acc s = (Ok acc', s') ->
    gone_ok a (fst acc) ->
    gone_ok a (fst acc') /\ (forall k, k ∈ key <$> fst acc -> k ∈ key <$> fst acc').
Proof.
  unfold last_sweep.
  induction alive as [|proc alive IH]; intros Halive acc acc' s s' H Hok; simpl in H.
  - unmon. inversion H; subst. by split.
  - unfold bind at 1 in H.
    destruct (assert_gone env callback proc 0 acc s) as [[acc1|e] s1] eqn:Ea;
      [|discriminate].
    eapply assert_gone_inv in Ea as (_ & Hok1 & Hsub1); [|apply Halive; by left|done].
    apply IH in H as [Hok2 Hsub2]; [|intros p Hp; apply Halive; by right|done].
    split; [done|auto].
Qed.

(** ** When [wait_procs] returns *)

Lemma wait_loop_timed_out (env : nat -> World) (fuel : nat) (callback : bool)
    (deadline : Q) (alive : list Process) (st : WaitSt) (s : St) :
  timed_out (fst st) = true ->
  wait_loop env fuel callback deadline alive st s = (Ok (Some (alive, st)), s).
Proof. intros H. destruct fuel, alive; simpl; by rewrite ?H. Qed.

Lemma py_min_le_l (a b : Q) : (py_min a b <= a)%Q.
Proof.
  unfold py_min. destruct (Qlt_bool b a) eqn:E; [|lra].
  apply Qlt_bool_true in E. lra.
Qed.

(** Past the deadline a sweep stops at its first handle. *)
Lemma sweep_past_deadline (env : nat -> World) (callback : bool) (deadline t0 : Q)
    (alive rest : list Process) (proc : Process)
    (acc : list Process * list Process) (s : St) :
  (deadline <= w_timer (env (tick s)))%Q ->
  exists t, sweep env callback deadline alive (proc :: rest) (Some t0, acc) s
            = (Ok (Some t, acc), next_tick s) /\
            timed_out (Some t) = true.
Proof.
  intros Hd. simpl. unfold bind, platform.
  set (t := py_min _ _).
  assert (Ht : Qle_bool t 0 = true).
  { apply Qle_bool_iff. pose proof (py_min_le_l (deadline - w_timer (env (tick s)))
                                     (max_timeout_of alive (fst acc))) as Hm.
    fold t in Hm. lra. }
  exists t. rewrite Ht. by unmon.
Qed.

Lemma sweep_tick (env : nat -> World) (callback : bool) (deadline : Q)
    (alive rest : list Process) :
  forall (st st' : WaitSt) (s s' : St),
    sweep env callback deadline alive rest st s = (Ok st', s') ->
    (tick s <= tick s')%nat /\ (is_Some (fst st) <-> is_Some (fst st')).
Proof.
  induction rest as [|proc rest IH]; intros [timeout acc] st' s s' H; simpl in H.
  - unfold ret in H. inversion H; subst. by split.
  - destruct timeout as [t0|]; simpl in H.
    + unfold bind at 1, platform in H.
      set (t := py_min _ _) in H. destruct (Qle_bool t 0).
      * unfold ret in H. inversion H; subst. simpl. split; [lia|]. split; eauto.
      * unfold bind at 1 in H.
        destruct (assert_gone env callback proc t acc (next_tick s))
          as [[acc1|e] s1] eqn:Ea; [|discriminate].
        apply assert_gone_Ok in Ea as [Ht1 _].
        apply IH in H as [Ht2 Hs]. simpl in *. split; [lia|].
        rewrite <- Hs. split; eauto.
    + unfold bind at 1 in H.
      destruct (assert_gone env callback proc _ acc s) as [[acc1|e] s1] eqn:Ea;
        [|discriminate].
      apply assert_gone_Ok in Ea as [Ht1 _].
      apply IH in H as [Ht2 Hs]. simpl in *. split; [lia|done].
Qed.

(** A sweep with a deadline reads the timer: the count of platform calls
    grows. *)
Lemma sweep_reads_timer (env : nat -> World) (callback : bool) (deadline t0 : Q)
    (alive rest : list Process) (proc : Process)
    (acc : list Process * list Process) (st' : WaitSt) (s s' : St) :
  sweep env callback deadline alive (proc :: rest) (Some t0, acc) s = (Ok st', s') ->
  (tick s < tick s')%nat /\ is_Some (fst st').
Proof.
  simpl. unfold bind at 1, platform.
  set (t := py_min _ _). destruct (Qle_bool t 0).
  - unfold ret. intros [= <- <-]. simpl. split; [lia|eauto].
  - unfold bind at 1.
    destruct (assert_gone env callback proc t acc (next_tick s)) as [[acc1|e] s1] eqn:Ea;
      [|discriminate].
    apply assert_gone_Ok in Ea as [Ht1 _]. intros H.
    apply sweep_tick in H as [Ht2 Hs]. simpl in *. split; [lia|]. apply Hs. eauto.
Qed.

(** With a deadline that the timer passes from the [n0]-th platform call
    on, the main loop ends within [1 + (n0 - tick s)] sweeps. *)
Lemma wait_loop_ends (env : nat -> World) (callback : bool) (deadline : Q) (n0 : nat) :
  (forall n, (n0 <= n)%nat -> (deadline <= w_timer (env n))%Q) ->
  forall (fuel : nat) (alive : list Process) (st : WaitSt) (s s' : St),
    is_Some (fst st) ->
    (1 + (n0 - tick s) <= fuel)%nat ->
    wait_loop env fuel callback deadline alive st s <> (Ok None, s').
Proof.
  intros Hclock. induction fuel as [|fuel IH]; intros alive st s s' Hsome Hfuel; [lia|].
  simpl. destruct alive as [|p0 alive0] eqn:Ea; [unfold ret; congruence|].
  destruct (timed_out (fst st)) eqn:Eto; [unfold ret; congruence|].
  destruct st as [[t0|] acc]; [|by destruct Hsome]. rewrite <- Ea. unfold bind.
  destruct (sweep env callback deadline alive alive (Some t0, acc) s)
    as [[st1|e] s1] eqn:Es; [|congruence].
  destruct (le_lt_dec n0 (tick s)) as [Hpast|Hbefore].
  - rewrite Ea in Es at 2.
    destruct (sweep_past_deadline env callback deadline t0 alive alive0 p0 acc s
                (Hclock _ Hpast)) as (t & Esw & Hto).
    rewrite Esw in Es. inversion Es; subst st1 s1.
    rewrite wait_loop_timed_out by done. congruence.
  - rewrite Ea in Es at 2. apply sweep_reads_timer in Es as [Ht Hs].
    apply IH; [done|lia].
Qed.

(** With no deadline and a process that never exits, no number of sweeps
    is enough. *)
Lemma wait_loop_forever (fuel : nat) (s : St) :
  fst (wait_loop (fun _ => world_of [(7, 100, 1)]) fuel true 0 [handle7]
         (None, ([], [])) s) = Ok None.
Proof.
  revert s. induction fuel as [|fuel IH]; intros s; [reflexivity|].
  cbn -[wait_loop]. change (wait_loop ?e (S fuel) ?c ?d [handle7] ?st s)
    with ((let* st' := sweep e c d [handle7] [handle7] st in
           wait_loop e fuel c d (set_diff [handle7] (fst (snd st'))) st')%mon s).
  unfold bind.
  replace (sweep _ true 0 [handle7] [handle7] (None, ([], [])) s)
    with (Ok (None, ([], [])) : Res WaitSt, next_tick s) by reflexivity.
  apply IH.
Qed.

Lemma set_diff_nil (a : list Process) : set_diff a [] = a.
Proof.
  unfold set_diff. induction a as [|p a IH]; [done|].
  rewrite filter_cons_True by done. by rewrite IH.
Qed.

(** What [wait_procs] returns is the input set shared out. *)
Lemma wait_procs_Ok (env : nat -> World) (fuel : nat) (procs : list Process)
    (timeout : option Q) (callback : bool) (s s' : St)
    (gone alive calls : list Process) :
  wait_procs env fuel procs timeout callback s = (Ok (Some (gone, alive, calls)), s') ->
  alive = set_diff (set_of procs) gone /\ gone_ok (set_of procs) gone.
Proof.
  unfold wait_procs.
  destruct (match timeout with Some t => negb (Qle_bool 0 t) | None => false end);
    [discriminate|].
  unfold bind at 1.
  destruct ((match timeout with
             | Some t => (let* now := platform env w_timer in ret (now + t)%Q)%mon
             | None => ret 0%Q
             end) s) as [[deadline|e] s0]; [|discriminate].
  unfold bind at 1.
  destruct (wait_loop env fuel callback deadline (set_of procs) (timeout, ([], [])) s0)
    as [[[[alive1 st1]|]|e] s1] eqn:El; [|discriminate|discriminate].
  apply (wait_loop_inv env callback deadline (set_of procs)) in El as [Ha1 Hok1];
    [|by rewrite set_diff_nil|apply gone_ok_nil].
  destruct alive1 as [|p0 alive0] eqn:Ea.
  - unfold ret. intros [= <- <- <- <-]. by split.
  - rewrite <- Ea. unfold bind at 1.
    destruct (last_sweep env callback alive1 (snd st1) s1) as [[acc|e] s2] eqn:Els;
      [|discriminate].
    apply (last_sweep_inv env callback (set_of procs)) in Els as [Hok2 Hsub2]; [| |done].
    + unfold ret. intros [= <- <- <- <-]. split; [|done].
      subst alive1. rewrite Ha1. by apply set_diff_diff.
    + intros p Hp. subst alive1. rewrite Ha1 in Hp.
      apply elem_of_set_diff in Hp as [Hp _]. by apply list_elem_of_fmap_2.
Qed.

(** The scenario of three handles with a deadline of 2.0: process 20 is
    found gone, with its [retcode] recorded, and 10 and 30 stay alive. *)
Example wait_procs_exit20 :
  exists g s',
    wait_procs env_exit20 20 [handle10; handle20; handle30] (Some 2%Q) true st0
    = (Ok (Some ([g], [handle10; handle30], [g])), s') /\
    pid g = 20 /\ retcode g = Some None.
Proof. eexists _, _. split; [vm_compute; reflexivity|]. by split. Qed.

(** The defect of the per-handle timeout [1.0 / (len(alive) - len(gone))]:
    with no deadline, once two of three processes are gone the next
    sweep hands the negative timeout -1.0 to [proc.wait], which raises
    [ValueError]. *)
Example wait_procs_negative_max_timeout :
  fst (wait_procs (fun _ => world_of [(30, 3, 0)]) 5
         [handle10; handle20; handle30] None true st0)
  = Raise ValueError.
Proof. vm_compute. reflexivity. Qed.

(** By design, a negative timeout makes [wait_procs] raise [ValueError],
    and with no deadline and a process that never exits no number of
    sweeps is enough for it to return. *)
Example wait_procs_negative_timeout_and_no_deadline :
  fst (wait_procs env_exit20 20 [handle10; handle20; handle30] (Some (-1)%Q) true st0)
  = Raise ValueError /\
  forall fuel,
    fst (wait_procs (fun _ => world_of [(7, 100, 1)]) fuel [handle7] None true st0)
    = Ok None.
Proof.
  split; [reflexivity|]. intros fuel.
  unfold wait_procs. cbn -[wait_loop]. unfold bind, ret. cbn -[wait_loop].
  pose proof (wait_loop_forever fuel st0) as H.
  change (set_of [handle7]) with [handle7].
  destruct (wait_loop _ fuel true 0 [handle7] (None, ([], [])) st0) as [r s1].
  simpl in H. by subst r.
Qed.

(** With a deadline that the timer passes from the [n0]-th platform call
    on, more than [n0] sweeps are never needed. *)
Lemma wait_procs_ends (env : nat -> World) (fuel : nat) (procs : list Process)
    (t : Q) (callback : bool) (s : St) (n0 : nat) (s' : St) :
  (0 <= t)%Q ->
  (forall n, (n0 <= n)%nat -> (w_timer (env (tick s)) + t <= w_timer (env n))%Q) ->
  (n0 < fuel)%nat ->
  wait_procs env fuel procs (Some t) callback s <> (Ok None, s').
Proof.
  intros Ht Hclock Hfuel. unfold wait_procs.
  rewrite (proj2 (Qle_bool_iff 0 t) Ht). cbn [negb].
  unfold bind at 1 2, platform, ret at 1. unfold bind at 1.
  destruct (wait_loop env fuel callback (w_timer (env (tick s)) + t) (set_of procs)
              (Some t, ([], [])) (next_tick s)) as [[[[alive1 st1]|]|e] s1] eqn:El.
  - destruct alive1; [unfold ret; congruence|]. unfold bind.
    destruct (last_sweep _ _ _ _ _) as [[acc|e] s2]; unfold ret; congruence.
  - exfalso. revert El. apply (wait_loop_ends env callback _ n0 Hclock);
      [simpl; eauto|simpl; lia].
  - congruence.
Qed.

(** With no deadline the main loop ends only when [alive] is empty. *)
Lemma wait_loop_no_deadline (env : nat -> World) (callback : bool) (deadline : Q)
    (fuel : nat) :
  forall (alive alive' : list Process) (st st' : WaitSt) (s s' : St),
    fst st = None ->
    wait_loop env fuel callback deadline alive st s = (Ok (Some (alive', st')), s') ->
    alive' = [].
Proof.
  induction fuel as [|fuel IH]; intros alive alive' st st' s s' Hnone H;
    simpl in H; destruct alive as [|p0 alive0] eqn:Ea.
  - unfold ret in H. by inversion H.
  - rewrite Hnone in H. simpl in H. unfold ret in H. discriminate.
  - unfold ret in H. by inversion H.
  - rewrite Hnone in H. cbn [timed_out] in H. rewrite <- Ea in H.
    unfold bind at 1 in H.
    destruct (sweep env callback deadline alive alive st s) as [[st1|e] s1] eqn:Es;
      [|discriminate].
    apply sweep_tick in Es as [_ Hs]. apply IH in H; [done|].
    destruct (fst st1) eqn:E1; [|done].
    assert (Hsome : is_Some (fst st)) by (apply Hs; eauto).
    rewrite Hnone in Hsome. by destruct Hsome.
Qed.

Lemma wait_procs_no_deadline (env : nat -> World) (fuel : nat) (procs : list Process)
    (callback : bool) (s s' : St) (gone alive calls : list Process) :
  wait_procs env fuel procs None callback s = (Ok (Some (gone, alive, calls)), s') ->
  alive = [].
Proof.
  unfold wait_procs. unfold bind at 1, ret at 1. unfold bind at 1.
  destruct (wait_loop env fuel callback 0 (set_of procs) (None, ([], [])) s)
    as [[[[alive1 st1]|]|e] s1] eqn:El; [|discriminate|discriminate].
  apply wait_loop_no_deadline in El; [|done]. subst alive1.
  unfold ret. by intros [= _ <- _ _].
Qed.

Lemma wait_procs_negative (env : nat -> World) (fuel : nat) (procs : list Process)
    (t : Q) (callback : bool) (s : St) :
  (t < 0)%Q -> wait_procs env fuel procs (Some t) callback s = (Raise ValueError, s).
Proof.
  intros Ht. unfold wait_procs. by rewrite (proj2 (Qle_bool_false 0 t) Ht).
Qed.

(** X20. A negative timeout raises [ValueError]. For a timeout
    that is None or not negative: whenever [wait_procs] returns, [alive]
    is the input set less [gone], every member of the input set is in
    exactly one of the two, so their sizes add up to the size of the
    input set, and every member of [gone] has a [retcode]; with no
    deadline it returns only with [alive] empty; with a timeout of zero
    there is no timed sweep, and what is returned is what the one
    zero-timeout sweep over the input set leaves; and with a deadline
    that the timer passes, [wait_procs] does not run on for ever. *)
Theorem X20_wait_procs_partition_on_return
    (env : nat -> World) (fuel : nat) (procs : list Process)
    (timeout : option Q) (callback : bool) (s : St) :
  (forall t, timeout = Some t -> (t < 0)%Q ->
             wait_procs env fuel procs timeout callback s = (Raise ValueError, s)) /\
  (forall gone alive calls s',
      wait_procs env fuel procs timeout callback s
      = (Ok (Some (gone, alive, calls)), s') ->
      alive = set_diff (set_of procs) gone /\
      (length gone + length alive = length (set_of procs))%nat /\
      (forall p, p ∈ set_of procs ->
                 (set_mem p gone = true /\ p ∉ alive) \/
                 (set_mem p gone = false /\ p ∈ alive)) /\
      Forall (fun g => retcode g <> None) gone /\
      (timeout = None -> alive = [])) /\
  (forall t,
      timeout = Some t -> (t == 0)%Q ->
      wait_procs env fuel procs timeout callback s =
      match set_of procs with
      | [] => (Ok (Some ([], [], [])), next_tick s)
      | _ :: _ =>
          match last_sweep env callback (set_of procs) ([], []) (next_tick s) with
          | (Ok acc, s') =>
              (Ok (Some (fst acc, set_diff (set_of procs) (fst acc), snd acc)), s')
          | (Raise e, s') => (Raise e, s')
          end
      end) /\
  (forall t n0 s',
      timeout = Some t -> (0 <= t)%Q ->
      (forall n, (n0 <= n)%nat -> (w_timer (env (tick s)) + t <= w_timer (env n))%Q) ->
      (n0 < fuel)%nat ->
      wait_procs env fuel procs timeout callback s <> (Ok None, s')).
Proof.
  split; [|split; [|split]].
  - intros t -> Ht. by apply wait_procs_negative.
  - intros gone alive calls s' H.
    assert (Hnone : timeout = None -> alive = []).
    { intros ->. by eapply wait_procs_no_deadline. }
    apply wait_procs_Ok in H as [-> (Hnd & Hsub & Hrc)].
    split; [done|]. split; [|split; [|done]].
    + apply set_diff_length; [apply set_of_NoDup|done|done].
    + intros p Hp. destruct (set_mem p gone) eqn:E.
      * left. split; [done|]. rewrite elem_of_set_diff. intros [_ ?]. congruence.
      * right. split; [done|]. by apply elem_of_set_diff.
  - intros t -> Ht. unfold wait_procs.
    assert (H0 : Qle_bool 0 t = true) by (apply Qle_bool_iff; lra).
    assert (H1 : timed_out (Some t) = true) by (apply Qle_bool_iff; lra).
    rewrite H0. cbn [negb]. unfold bind at 1 2, platform, ret at 1. unfold bind at 1.
    rewrite wait_loop_timed_out by done.
    destruct (set_of procs) as [|p0 a0] eqn:Ea; [reflexivity|].
    unfold bind. cbn [snd].
    by destruct (last_sweep env callback (p0 :: a0) ([], []) (next_tick s))
      as [[acc|e] s1].
  - intros t n0 s' -> Ht Hclock Hfuel. by apply (wait_procs_ends env fuel procs t callback s n0).
Qed.

Lemma X20_witness :
  (length (fst (fst returned20)) + length (snd (fst returned20))
   = length (set_of [handle10; handle20; handle30]))%nat.
Proof.
  apply (proj1 (proj2 (X20_wait_procs_partition_on_return env_exit20 20
                  [handle10; handle20; handle30] (Some 2%Q) true st0))
           (fst (fst returned20)) (snd (fst returned20)) (snd returned20)
           (snd run20)).
  vm_compute. reflexivity.
Defined.

(** C9. Three handles and no deadline. Processes 10 and 20 have exited
    and the first sweep finds them gone; process 30 is still there and
    its wait times out. The second sweep goes through the one handle
    left with two handles in [gone]: [1.0 / (len(alive) - len(gone))] is
    [-1.0], not the division by zero that the handler next to it turns
    into [1.0] for one handle alive, and [proc.wait(timeout=-1.0)] raises
    [ValueError]. [wait_procs] returns no partition on this input,
    however many sweeps it is given, although process 30 has exited by
    then and nothing is left to wait for. *)
Theorem C9_negative_max_timeout_raises (fuel : nat) :
  (max_timeout_of [handle30] [handle10; handle20] == -1)%Q /\
  fst (wait_procs env_exit30_late (S (S fuel)) [handle10; handle20; handle30]
         None true st0)
  = Raise ValueError.
Proof. split; [reflexivity|]. vm_compute. reflexivity. Qed.

(** With the deadline 2.0 the timer, a quarter per platform call, is past
    the deadline from the ninth call on: ten sweeps are enough. *)
Example wait_procs_exit20_ends (s' : St) :
  wait_procs env_exit20 10 [handle10; handle20; handle30] (Some 2%Q) true st0
  <> (Ok None, s').
Proof.
  apply (wait_procs_ends env_exit20 10 _ 2%Q true st0 9%nat s').
  - done.
  - intros n Hn. simpl. unfold Qle, Qdiv, Qmult, Qplus, Qinv. simpl. lia.
  - lia.
Qed.

(* ================================================================== *)
(** * Signals, and the parent                                           *)
(* ================================================================== *)

(** The check [is_running] makes on a handle whose pid now belongs to a
    process with another creation time: two platform calls, the answer
    [False], and the handle left as it was. *)
Lemma is_running_reused (env : nat -> World) (p : Process) (s : St) (c' : Z) :
  _gone p = false -> 0 <= pid p ->
  w_Process (env (tick s)) (pid p) = BOk tt ->
  w_get_create_time (env (S (tick s))) (pid p) = BOk c' ->
  create_time p <> Some c' ->
  is_running env (p, s) = (Ok false, (p, next_tick (next_tick s))).
Proof.
  intros Hg Hp H1 H2 Hc. rewrite is_running_live by done.
  unfold Process_init. destruct (pid p <? 0) eqn:E; [lia|]. unmon.
  rewrite H1. simpl. rewrite H2. simpl.
  destruct (__eq__ _ _) eqn:Heq; [|reflexivity].
  apply eq_Process_spec in Heq as [_ Heq]. simpl in Heq. congruence.
Qed.

Lemma assert_pid_not_reused_false {A : Type} (env : nat -> World) (f : Method A)
    (ps ps' : Process * St) :
  is_running env ps = (Ok false, ps') ->
  _assert_pid_not_reused env f ps = (Raise NoSuchProcess, ps').
Proof. intros H. unfold _assert_pid_not_reused, bind. by rewrite H. Qed.

(** X1. When the pid of a handle has been taken over by a process with
    another creation time, every operation that pre-emptively checks the
    identity raises [NoSuchProcess] after the two platform calls of the
    check: no signal is sent, no process is enumerated, and the handle is
    left as it was. *)
Theorem X1_reused_pid_is_never_signalled
    (env : nat -> World) (plat : Platform) (hs hr : bool) (susp res : Method unit)
    (p : Process) (s : St) (c' sig : Z) (recursive : bool) :
  _gone p = false -> 0 <= pid p ->
  w_Process (env (tick s)) (pid p) = BOk tt ->
  w_get_create_time (env (S (tick s))) (pid p) = BOk c' ->
  create_time p <> Some c' ->
  send_signal env plat sig (p, s)
    = (Raise NoSuchProcess, (p, next_tick (next_tick s))) /\
  terminate env plat (p, s)
    = (Raise NoSuchProcess, (p, next_tick (next_tick s))) /\
  kill env plat (p, s)
    = (Raise NoSuchProcess, (p, next_tick (next_tick s))) /\
  suspend env plat hs susp (p, s)
    = (Raise NoSuchProcess, (p, next_tick (next_tick s))) /\
  resume env plat hr res (p, s)
    = (Raise NoSuchProcess, (p, next_tick (next_tick s))) /\
  get_children env plat recursive (p, s)
    = (Raise NoSuchProcess, (p, next_tick (next_tick s))) /\
  parent env plat (p, s)
    = (Raise NoSuchProcess, (p, next_tick (next_tick s))).
Proof.
  intros Hg Hp H1 H2 Hc.
  pose proof (is_running_reused env p s c' Hg Hp H1 H2 Hc) as Hr.
  unfold terminate, send_signal, kill, suspend, resume, get_children, parent.
  repeat split; by apply assert_pid_not_reused_false.
Qed.

Lemma X1_witness :
  kill env_reuse7 linux (handle7, next_tick st0)
    = (Raise NoSuchProcess, (handle7, next_tick (next_tick (next_tick st0)))).
Proof.
  apply (X1_reused_pid_is_never_signalled env_reuse7 linux false false
           (ret tt) (ret tt) handle7 (next_tick st0) 200 SIGTERM false);
    try reflexivity; try done.
Defined.

(** X2. On POSIX, a signal that [os.kill] refuses with [ESRCH] raises
    [NoSuchProcess] and marks the handle gone: from then on [is_running]
    answers [False] and every signal raises [NoSuchProcess], with no
    platform call at all. *)
Theorem X2_esrch_marks_the_handle_gone
    (env : nat -> World) (plat : Platform) (sig : Z) (p p1 : Process) (s s1 : St) :
  posix plat = true ->
  is_running env (p, s) = (Ok true, (p1, s1)) ->
  w_kill (env (tick s1)) (pid p) sig = ESRCH ->
  send_signal env plat sig (p, s)
    = (Raise NoSuchProcess, (set_gone p, next_tick s1)) /\
  forall (sig' : Z) (s2 : St),
    is_running env (set_gone p, s2) = (Ok false, (set_gone p, s2)) /\
    send_signal env plat sig' (set_gone p, s2)
      = (Raise NoSuchProcess, (set_gone p, s2)).
Proof.
  intros Hposix Hr Hk.
  assert (p1 = p) as ->.
  { apply is_running_self in Hr as [->|[_ ?]]; [done|discriminate]. }
  split.
  - unfold send_signal, _assert_pid_not_reused. unfold bind at 1.
    rewrite Hr. simpl. rewrite Hposix. unmon. by rewrite Hk.
  - intros sig' s2.
    assert (Hg : is_running env (set_gone p, s2) = (Ok false, (set_gone p, s2)))
      by by apply is_running_gone.
    split; [done|]. unfold send_signal. by apply assert_pid_not_reused_false.
Qed.

Lemma X2_witness :
  send_signal env_exit7_late linux SIGTERM (handle7, st0)
    = (Raise NoSuchProcess, (set_gone handle7, next_tick (next_tick (next_tick st0)))).
Proof.
  apply (X2_esrch_marks_the_handle_gone env_exit7_late linux SIGTERM handle7 handle7
           st0 (next_tick (next_tick st0))); reflexivity.
Defined.

Lemma get_create_time_frame (env : nat -> World) (p p' : Process) (s s' : St) (r : Res Z) :
  get_create_time env (p, s) = (r, (p', s')) ->
  _pmap s' = _pmap s /\ _gone p' = _gone p /\ (tick s <= tick s')%nat.
Proof.
  unfold get_create_time. unmon. destruct (create_time p).
  - intros [= _ <- <-]. auto.
  - cbn. destruct (w_get_create_time (env (tick s)) (pid p)); cbn;
      intros [= _ <- <-]; simpl; auto.
Qed.

(** What [ppid] answers is the cached value or the platform's answer of
    the moment; the registry is not touched. *)
Lemma ppid_spec (env : nat -> World) (plat : Platform) (p p' : Process) (s s' : St)
    (r : Res Z) :
  ppid env plat (p, s) = (r, (p', s')) ->
  same_handle p p' /\ _pmap s' = _pmap s /\
  forall v, r = Ok v ->
            _ppid p = Some v \/ w_get_ppid (env (tick s)) (pid p) = BOk v.
Proof.
  unfold ppid. unmon. destruct (posix plat).
  - cbn. destruct (w_get_ppid (env (tick s)) (pid p)) eqn:E; cbn;
      intros [= <- <- <-]; (split; [apply same_handle_refl|]); (split; [done|]);
      intros v' [= <-]; auto.
  - destruct (_ppid p) as [v|] eqn:Hv.
    + intros [= <- <- <-]. split; [apply same_handle_refl|]. split; [done|].
      intros v' [= <-]; auto.
    + cbn. destruct (w_get_ppid (env (tick s)) (pid p)) eqn:E; cbn;
        intros [= <- <- <-]; (split; [split; [done|by intros sc]|]);
        (split; [done|]); intros v' [= <-]; auto.
Qed.

(** X3. The handle [Process.parent] returns is a new handle, not marked
    gone, whose pid is a parent pid read for [self] and whose creation
    time is not later than that of [self]; the registry of [process_iter]
    is left as it was. *)
Theorem X3_parent_is_not_younger
    (env : nat -> World) (plat : Platform) (p p' q : Process) (s s' : St) :
  parent env plat (p, s) = (Ok (Some q), (p', s')) ->
  not_older_than q p' /\ _gone q = false /\
  (_ppid p = Some (pid q) \/ exists n, w_get_ppid (env n) (pid p) = BOk (pid q)) /\
  pid p' = pid p /\ _pmap s' = _pmap s.
Proof.
  unfold parent, _assert_pid_not_reused. unfold bind at 1.
  destruct (is_running env (p, s)) as [[[|]|e] [p1 s1]] eqn:E0; simpl;
    [|unmon; discriminate|discriminate].
  pose proof (is_running_pmap _ _ _ _ _ _ E0) as Hm0.
  apply is_running_self in E0 as [->|[_ ?]]; [|discriminate].
  unfold bind at 1.
  destruct (ppid env plat (p, s1)) as [[pp|e] [p2 s2]] eqn:E1; [|discriminate].
  apply ppid_spec in E1 as ([Hpid2 Hct2] & Hm1 & Hpp). specialize (Hpp pp eq_refl).
  intros H. apply try_except_NoSuchProcess in H as [H|(sx & _ & H)];
    [|unmon; discriminate].
  apply lift_bind_self in H as [(e & _ & ? & _)|(q0 & s3 & E2 & H)]; [discriminate|].
  pose proof (Process_init_pmap _ _ _ _ _ E2) as Hm2.
  apply Process_init_Ok in E2 as (_ & Hq0 & Hg0 & _).
  unfold bind at 1 in H.
  destruct (call_other false q0 (get_create_time env) (p2, s3))
    as [[[qc q1]|e] [p3 s4]] eqn:E3; [|discriminate].
  unfold call_other in E3. simpl in E3.
  destruct (get_create_time env (q0, s3)) as [[a|e] [q1' s4']] eqn:E4;
    [|discriminate].
  injection E3 as -> -> -> ->.
  pose proof (get_create_time_frame _ _ _ _ _ _ E4) as (Hm3 & Hg1 & _).
  apply get_create_time_spec in E4 as (Hq1 & _ & Hqc). specialize (Hqc qc eq_refl).
  unfold bind at 1 in H.
  match type of H with
  | context [get_create_time env ?x] =>
      destruct (get_create_time env x) as [[sc|e] [p4 s5]] eqn:E5; [|discriminate]
  end.
  pose proof (get_create_time_frame _ _ _ _ _ _ E5) as (Hm4 & _ & _).
  apply get_create_time_spec in E5 as (Hp4 & _ & Hsc). specialize (Hsc sc eq_refl).
  simpl in H. destruct (qc <=? sc) eqn:Hle; unmon; [|discriminate].
  injection H as <- <- <-. apply Z.leb_le in Hle.
  split; [by exists qc, sc|]. split; [congruence|].
  split; [rewrite Hq1, Hq0; destruct Hpp; eauto|].
  split; congruence.
Qed.

Lemma X3_witness :
  not_older_than handle1 handle7 /\ _gone handle1 = false /\
  (_ppid handle7 = Some (pid handle1) \/
   exists n, w_get_ppid (env_static7 n) (pid handle7) = BOk (pid handle1)) /\
  pid handle7 = pid handle7 /\
  _pmap (Nat.iter 5 next_tick st0) = _pmap st0.
Proof.
  apply (X3_parent_is_not_younger env_static7 linux handle7 handle7 handle1
           st0 (Nat.iter 5 next_tick st0)).
  reflexivity.
Defined.

(* ================================================================== *)
(** * The registry across one enumeration                               *)
(* ================================================================== *)

(** The loop body of [process_iter] for the pid [k] writes to the
    registry under [k] only, and the handle it yields is the one the
    registry holds under [k] from then on. *)
Lemma process_iter_step_registry (env : nat -> World) (k : Z) (o : option Process)
    (s s' : St) (ys : list (option Process)) :
  (forall pr, o = Some pr -> pid pr = k /\ 0 <= k) ->
  (forall p, _pmap s !! k = Some p -> pid p = k /\ 0 <= k) ->
  process_iter_step env (k, o) s = (Ok ys, s') ->
  (forall k', k' <> k -> _pmap s' !! k' = _pmap s !! k') /\
  (forall p, _pmap s' !! k = Some p -> pid p = k /\ 0 <= k) /\
  (forall h, Some h ∈ ys -> pid h = k /\ _pmap s' !! k = Some h).
Proof.
  intros Hpid Hreg. unfold process_iter_step, process_iter_check.
  assert (Hadd : forall st proc',
    (forall p, _pmap st !! k = Some p -> pid p = k /\ 0 <= k) ->
    (forall pr, proc' = Some pr -> _pmap st !! k = Some pr) ->
    try_except (let* p := add env k in ret [Some p])%mon
      (fun e => match e with
                | NoSuchProcess => Some (remove k;;; ret [])%mon
                | AccessDenied => Some (ret [proc'])
                | _ => None
                end) st = (Ok ys, s') ->
    (forall k', k' <> k -> _pmap s' !! k' = _pmap st !! k') /\
    (forall p, _pmap s' !! k = Some p -> pid p = k /\ 0 <= k) /\
    (forall h, Some h ∈ ys -> pid h = k /\ _pmap s' !! k = Some h)).
  { intros st proc' Hst Hproc'. unfold try_except, bind.
    destruct (add env k st) as [[q|e] st1] eqn:Ea.
    - apply add_Ok in Ea as (st2 & Ei & ->).
      pose proof (Process_init_pmap _ _ _ _ _ Ei) as Hm.
      apply Process_init_Ok in Ei as (Hk & Hq & _). unmon.
      intros [= <- <-]. simpl. split; [|split].
      + intros k' Hk'. by rewrite lookup_insert_ne, Hm.
      + intros p. rewrite lookup_insert_eq. by intros [= <-].
      + intros h Hh. apply list_elem_of_singleton in Hh as [= ->].
        by rewrite lookup_insert_eq.
    - apply add_Raise in Ea. pose proof (Process_init_pmap _ _ _ _ _ Ea) as Hm.
      destruct e; unmon; intros [= <- <-]; simpl.
      + split; [|split].
        * intros k' Hk'. by rewrite lookup_delete_ne, Hm.
        * intros p. by rewrite lookup_delete_eq.
        * intros h Hh. by apply elem_of_nil in Hh.
      + rewrite Hm. split; [done|]. split; [done|].
        intros h Hh. apply list_elem_of_singleton in Hh.
        specialize (Hproc' h (eq_sym Hh)). split; [|done]. by apply Hst. }
  destruct o as [pr|].
  - destruct (Hpid pr eq_refl) as [Hk0 Hk1]. unfold call.
    destruct (is_running env (pr, s)) as [r [pr' s1]] eqn:Hr.
    pose proof (is_running_pmap _ _ _ _ _ _ Hr) as Hm.
    apply is_running_pid in Hr. rewrite Hk0 in Hr.
    assert (Hfr : forall k', k' <> k ->
              _pmap (set_pmap (<[k:=pr']> (_pmap s1)) s1) !! k' = _pmap s !! k').
    { intros k' Hk'. simpl. by rewrite lookup_insert_ne, Hm. }
    assert (Hat : _pmap (set_pmap (<[k:=pr']> (_pmap s1)) s1) !! k = Some pr').
    { simpl. apply lookup_insert_eq. }
    destruct r as [[|]|e]; unfold process_iter_try.
    + unfold try_except. unmon. intros [= <- <-]. simpl.
      split; [exact Hfr|]. split.
      * intros p. rewrite lookup_insert_eq. by intros [= <-].
      * intros h Hh. apply list_elem_of_singleton in Hh as [= ->].
        by rewrite lookup_insert_eq.
    + intros H. apply Hadd in H as (H1 & H2 & H3).
      * split; [|done]. intros k' Hk'. by rewrite H1, Hfr.
      * intros p. rewrite Hat. by intros [= <-].
      * intros q [= <-]. exact Hat.
    + unfold try_except. unmon. destruct e; intros [= <- <-]; simpl.
      * split; [|split].
        -- intros k' Hk'. by rewrite lookup_delete_ne, lookup_insert_ne, Hm.
        -- intros p. by rewrite lookup_delete_eq.
        -- intros h Hh. by apply elem_of_nil in Hh.
      * split; [exact Hfr|]. split.
        -- intros p. rewrite lookup_insert_eq. by intros [= <-].
        -- intros h Hh. apply list_elem_of_singleton in Hh as [= ->].
           by rewrite lookup_insert_eq.
  - unfold process_iter_try. intros H. by apply Hadd in H.
Qed.

Lemma for_yield_registry (env : nat -> World) (l : list (Z * option Process))
    (s s' : St) (ys : list (option Process)) :
  NoDup l.*1 ->
  Forall (fun item => forall pr, snd item = Some pr -> pid pr = fst item /\ 0 <= fst item) l ->
  (forall k p, k ∈ l.*1 -> _pmap s !! k = Some p -> pid p = k /\ 0 <= k) ->
  for_yield l (process_iter_step env) s = (Ok ys, s') ->
  (forall k, k ∉ l.*1 -> _pmap s' !! k = _pmap s !! k) /\
  (forall k p, k ∈ l.*1 -> _pmap s' !! k = Some p -> pid p = k /\ 0 <= k) /\
  (forall h, Some h ∈ ys -> pid h ∈ l.*1 /\ _pmap s' !! pid h = Some h).
Proof.
  revert s s' ys. induction l as [|[k o] l IH]; intros s s' ys Hnd Hl Hreg;
    cbn [for_yield].
  - unmon. intros [= <- <-]. split; [done|]. split.
    + intros k p Hk. by apply elem_of_nil in Hk.
    + intros h Hh. by apply elem_of_nil in Hh.
  - rewrite fmap_cons in *. cbn [fst] in *.
    apply NoDup_cons in Hnd as [Hk Hnd]. apply Forall_cons in Hl as [Ho Hl].
    unfold bind at 1.
    destruct (process_iter_step env (k, o) s) as [[y1|e] s1] eqn:E1; [|discriminate].
    apply process_iter_step_registry in E1 as (F1 & R1 & Y1); [|exact Ho|].
    2:{ intros p. apply Hreg. by left. }
    unfold bind at 1.
    destruct (for_yield l (process_iter_step env) s1) as [[y2|e] s2] eqn:E2;
      [|discriminate].
    apply IH in E2 as (F2 & R2 & Y2); [|done|done|].
    2:{ intros k' p Hk' Hp. rewrite F1 in Hp by (intros ->; done).
        apply (Hreg k' p); [by right|done]. }
    unmon. intros [= <- <-]. split; [|split].
    + intros k' Hk'. apply not_elem_of_cons in Hk' as [? ?].
      by rewrite F2, F1.
    + intros k' p Hk' Hp. apply elem_of_cons in Hk' as [->|Hk'].
      * rewrite F2 in Hp by done. by apply R1.
      * by apply (R2 k' p).
    + intros h Hh. apply elem_of_app in Hh as [Hh|Hh].
      * apply Y1 in Hh as [-> Hh]. split; [by left|]. by rewrite F2.
      * apply Y2 in Hh as [? ?]. split; [by right|done].
Qed.

(** X4. One enumeration keeps the registry sound: every key is still the
    pid of the handle filed under it, every key left is a pid the platform
    listed for this run, and each handle yielded is the one the registry
    holds under its pid when the run ends. *)
Theorem X4_process_iter_keeps_the_registry
    (env : nat -> World) (s s' : St) (ys : list (option Process)) :
  registry_ok (_pmap s) ->
  process_iter env s = (Ok ys, s') ->
  registry_ok (_pmap s') /\
  (forall k, k ∈ dom (_pmap s') -> k ∈ w_get_pids (env (tick s))) /\
  (forall h, Some h ∈ ys -> _pmap s' !! pid h = Some h).
Proof.
  intros Hreg. rewrite process_iter_unfold. intros H.
  apply for_yield_registry in H as (F & R & Y).
  - assert (Hdom : forall k p, _pmap s' !! k = Some p -> k ∈ live_pids env s).
    { intros k p Hp. destruct (decide (k ∈ (items env s).*1)) as [Hk|Hk].
      - by apply elem_of_items_keys in Hk.
      - rewrite F in Hp by done. simpl in Hp. rewrite lookup_evicted in Hp.
        by case_decide. }
    split; [|split].
    + intros k p Hp. apply (R k p); [|done].
      apply elem_of_items_keys. by eapply Hdom.
    + intros k Hk. apply elem_of_dom in Hk as [p Hp].
      apply Hdom in Hp. unfold live_pids in Hp. by apply elem_of_list_to_set in Hp.
    + intros h Hh. by apply Y in Hh as [_ ?].
  - apply items_keys_NoDup.
  - apply Forall_forall. intros [k o] Hi pr E. simpl in *. subst o.
    apply elem_of_items in Hi as [_ Hi]. symmetry in Hi. by apply Hreg in Hi.
  - intros k p _. simpl. rewrite lookup_evicted. case_decide; [|done]. apply Hreg.
Qed.

Lemma X4_witness :
  registry_ok (_pmap (snd (process_iter env57_79 st0))) /\
  (forall k, k ∈ dom (_pmap (snd (process_iter env57_79 st0))) ->
             k ∈ w_get_pids (env57_79 (tick st0))) /\
  (forall h, Some h ∈ ok_list (fst (process_iter env57_79 st0)) ->
             _pmap (snd (process_iter env57_79 st0)) !! pid h = Some h).
Proof.
  apply (X4_process_iter_keeps_the_registry env57_79 st0).
  - apply registry_ok_empty.
  - by destruct (process_iter env57_79 st0) as [[ys|e] s'] eqn:E;
      [|vm_compute in E; discriminate].
Defined.

(* ================================================================== *)
(** * CPU accounting: the two windows, and the sum of the percentages   *)
(* ================================================================== *)

(** X5. [cpu_percent] and [cpu_times_percent] keep separate baselines: a
    call of one, blocking or not, raising or not, leaves the two stored
    samples of the other as they were, and a system-wide call leaves the
    per-CPU sample of its own window alone, as a per-CPU call leaves the
    system-wide one. Neither touches the registry of [process_iter]. *)
Theorem X5_cpu_windows_are_independent
    (env : nat -> World) (plat : Platform) (interval : option Q) (percpu : bool) (s : St) :
  (let s' := snd (cpu_percent env interval percpu s) in
   _last_cpu_times_2 s' = _last_cpu_times_2 s /\
   _last_per_cpu_times_2 s' = _last_per_cpu_times_2 s /\
   (if percpu then _last_cpu_times s' = _last_cpu_times s
    else _last_per_cpu_times s' = _last_per_cpu_times s) /\
   _pmap s' = _pmap s) /\
  (let s' := snd (cpu_times_percent env plat interval percpu s) in
   _last_cpu_times s' = _last_cpu_times s /\
   _last_per_cpu_times s' = _last_per_cpu_times s /\
   (if percpu then _last_cpu_times_2 s' = _last_cpu_times_2 s
    else _last_per_cpu_times_2 s' = _last_per_cpu_times_2 s) /\
   _pmap s' = _pmap s).
Proof.
  split.
  - unfold cpu_percent, cpu_times, per_cpu_times, sleep, lift_res.
    destruct percpu, (blocking interval); unmon;
      repeat case_step; simpl; auto.
  - unfold cpu_times_percent, cpu_times, per_cpu_times, sleep, lift_res.
    destruct percpu, (blocking interval); unmon;
      repeat case_step; simpl; auto.
Qed.

(** X6. A call of [cpu_percent], in either mode, stores the sample it
    read last, so that a non-blocking call made next measures from where
    that call ended: it compares the stored sample, which is the
    platform's answer to the last call before, with the platform's answer
    now. *)
Theorem X6_nonblocking_measures_since_the_last_call
    (env : nat -> World) (interval : option Q) (s : St) :
  (let s1 := snd (cpu_percent env interval false s) in
   _last_cpu_times s1 = w_get_system_cpu_times (env (pred (tick s1))) /\
   cpu_percent env None false s1
   = (match cpu_percent_calculate
              (w_get_system_cpu_times (env (pred (tick s1))))
              (w_get_system_cpu_times (env (tick s1))) with
      | Ok q => Ok (inl q)
      | Raise e => Raise e
      end,
      set_last_cpu (w_get_system_cpu_times (env (tick s1))) (next_tick s1))) /\
  (let s1 := snd (cpu_percent env interval true s) in
   _last_per_cpu_times s1 = w_get_system_per_cpu_times (env (pred (tick s1))) /\
   cpu_percent env None true s1
   = (match zip_calculate cpu_percent_calculate
              (w_get_system_per_cpu_times (env (pred (tick s1))))
              (w_get_system_per_cpu_times (env (tick s1))) with
      | Ok q => Ok (inr q)
      | Raise e => Raise e
      end,
      set_last_per_cpu (w_get_system_per_cpu_times (env (tick s1))) (next_tick s1))).
Proof.
  split.
  - assert (H : _last_cpu_times (snd (cpu_percent env interval false s))
                = w_get_system_cpu_times
                    (env (pred (tick (snd (cpu_percent env interval false s)))))).
    { unfold cpu_percent, cpu_times, sleep, lift_res.
      destruct (blocking interval); unmon; repeat case_step; reflexivity. }
    cbv zeta. split; [exact H|].
    rewrite <- H. generalize (snd (cpu_percent env interval false s)). intros s1.
    unfold cpu_percent, cpu_times, lift_res. unmon.
    by destruct (cpu_percent_calculate _ _).
  - assert (H : _last_per_cpu_times (snd (cpu_percent env interval true s))
                = w_get_system_per_cpu_times
                    (env (pred (tick (snd (cpu_percent env interval true s)))))).
    { unfold cpu_percent, per_cpu_times, sleep, lift_res.
      destruct (blocking interval); unmon; repeat case_step; reflexivity. }
    cbv zeta. split; [exact H|].
    rewrite <- H. generalize (snd (cpu_percent env interval true s)). intros s1.
    unfold cpu_percent, per_cpu_times, lift_res. unmon.
    by destruct (zip_calculate _ _ _).
Qed.

(** Rounding to one decimal moves a number by at most one twentieth. *)
Lemma round1_error (x : Q) :
  (x - (1 # 20) <= round1 x)%Q /\ (round1 x <= x + (1 # 20))%Q.
Proof.
  unfold round1. destruct (Qle_bool 0 x) eqn:E.
  - pose proof (Qfloor_le (x * 10 + (1 # 2))) as H1.
    pose proof (Qlt_floor (x * 10 + (1 # 2))) as H2.
    rewrite inject_Z_plus in H2. change (inject_Z 1) with 1%Q in H2.
    set (f := inject_Z (Qfloor (x * 10 + (1 # 2)))) in *. split.
    + apply Qle_shift_div_l; lra.
    + apply Qle_shift_div_r; lra.
  - pose proof (Qfloor_le (- x * 10 + (1 # 2))) as H1.
    pose proof (Qlt_floor (- x * 10 + (1 # 2))) as H2.
    rewrite inject_Z_plus in H2. change (inject_Z 1) with 1%Q in H2.
    set (f := inject_Z (Qfloor (- x * 10 + (1 # 2)))) in *.
    assert (H3 : (f / 10 <= - x + (1 # 20))%Q)
      by (apply Qle_shift_div_r; lra).
    assert (H4 : (- x - (1 # 20) <= f / 10)%Q)
      by (apply Qle_shift_div_l; lra).
    split; lra.
Qed.

Lemma sum_floats_foldl (a : Q) (l : list Q) :
  (foldl Qplus a l == a + sum_floats l)%Q.
Proof.
  unfold sum_floats. revert a. induction l as [|x l IH]; intros a; simpl.
  - lra.
  - rewrite IH, (IH (0 + x)%Q). lra.
Qed.

Lemma sum_floats_cons (x : Q) (l : list Q) :
  (sum_floats (x :: l) == x + sum_floats l)%Q.
Proof. unfold sum_floats at 1. simpl. rewrite sum_floats_foldl. lra. Qed.

(** Off Windows, with a time that moved, the percentages of the fields
    add up to the percentage of the sum of the field deltas, up to the
    rounding of each. *)
Lemma sum_field_percent (plat : Platform) (d : Q) (l1 l2 : list Q) :
  WINDOWS plat = false -> ~ (d == 0)%Q -> length l1 = length l2 ->
  let n := inject_Z (Z.of_nat (length l1)) in
  let x := ((100 * (sum_floats l2 - sum_floats l1)) / d)%Q in
  (x - n / 20 <= sum_floats (zip_with (field_percent plat d) l1 l2))%Q /\
  (sum_floats (zip_with (field_percent plat d) l1 l2) <= x + n / 20)%Q.
Proof.
  intros Hw Hd. revert l2. induction l1 as [|a l1 IH]; intros [|b l2] Hlen;
    try discriminate; cbv zeta.
  - simpl. change (sum_floats []) with 0%Q.
    change (inject_Z (Z.of_nat 0)) with 0%Q.
    assert (E : ((100 * (0 - 0)) / d == 0)%Q) by (field; exact Hd).
    rewrite E. clear E. split; unfold Qle; simpl; lia.
  - injection Hlen as Hlen. specialize (IH l2 Hlen). cbv zeta in IH.
    cbn [zip_with length]. rewrite !sum_floats_cons.
    rewrite Nat2Z.inj_succ. unfold Z.succ. rewrite inject_Z_plus.
    change (inject_Z 1) with 1%Q.
    set (n := inject_Z (Z.of_nat (length l1))) in *.
    set (r := sum_floats (zip_with (field_percent plat d) l1 l2)) in *.
    assert (E : ((100 * (b + sum_floats l2 - (a + sum_floats l1))) / d
                 == (100 * (b - a)) / d
                    + (100 * (sum_floats l2 - sum_floats l1)) / d)%Q)
      by (field; exact Hd).
    rewrite E. clear E.
    set (x := ((100 * (sum_floats l2 - sum_floats l1)) / d)%Q) in *.
    assert (F : field_percent plat d a b = round1 ((100 * (b - a)) / d)).
    { unfold field_percent, py_div. rewrite Hw.
      destruct (Qeq_bool d 0) eqn:Eq; [|reflexivity].
      by apply Qeq_bool_iff in Eq. }
    rewrite F. clear F. set (y := ((100 * (b - a)) / d)%Q).
    destruct (round1_error y) as [R1 R2].
    assert (N : ((n + 1) / 20 == n / 20 + (1 # 20))%Q) by field.
    rewrite N. clearbody x y. split; lra.
Qed.

(** X7. Off Windows, when the total of the system times moved between
    the two samples, the percentages [cpu_times_percent] computes for the
    fields add up to 100, up to the rounding of each field to one decimal:
    the sum lies within one twentieth per field of 100. *)
Theorem X7_cpu_times_percent_adds_up_to_100
    (plat : Platform) (t1 t2 r : cputimes) :
  WINDOWS plat = false ->
  length (others t1) = length (others t2) ->
  ~ (sum_floats (fields t2) == sum_floats (fields t1))%Q ->
  cpu_times_percent_calculate plat t1 t2 = Ok r ->
  let n := inject_Z (Z.of_nat (length (fields t1))) in
  (100 - n / 20 <= sum_floats (fields r))%Q /\
  (sum_floats (fields r) <= 100 + n / 20)%Q.
Proof.
  intros Hw Hlen Hd. unfold cpu_times_percent_calculate. intros [= <-].
  set (d := (sum_floats (fields t2) - sum_floats (fields t1))%Q).
  assert (Hd' : ~ (d == 0)%Q) by (unfold d; lra).
  assert (Hl : length (fields t1) = length (fields t2))
    by (unfold fields; simpl; congruence).
  pose proof (sum_field_percent plat d (fields t1) (fields t2) Hw Hd' Hl) as H.
  cbv zeta in *.
  assert (E : ((100 * (sum_floats (fields t2) - sum_floats (fields t1))) / d
               == 100)%Q) by (unfold d; field; exact Hd').
  rewrite E in H. exact H.
Qed.

Lemma X7_witness :
  (100 - inject_Z 4 / 20
   <= sum_floats [round1 (100 * 1 / 3); round1 (100 * 1 / 3);
                  round1 (100 * 1 / 3); round1 (100 * 0 / 3)])%Q /\
  (sum_floats [round1 (100 * 1 / 3); round1 (100 * 1 / 3);
               round1 (100 * 1 / 3); round1 (100 * 0 / 3)]
   <= 100 + inject_Z 4 / 20)%Q.
Proof.
  apply (X7_cpu_times_percent_adds_up_to_100 linux
           (mkCpuTimes 0 0 0 [0%Q]) (mkCpuTimes 1 1 1 [0%Q])
           (mkCpuTimes (round1 (100 * 1 / 3)) (round1 (100 * 1 / 3))
                       (round1 (100 * 1 / 3)) [round1 (100 * 0 / 3)])).
  - reflexivity.
  - reflexivity.
  - intros H. vm_compute in H. discriminate.
  - vm_compute. reflexivity.
Defined.

(* ================================================================== *)
(** * [wait_procs]: the calls of the callback                           *)
(* ================================================================== *)

(** [assert_gone] on a handle that [gone] does not hold yet adds it to
    [gone] and to the calls at once, or to neither. *)
Lemma assert_gone_calls (env : nat -> World) (callback : bool) (proc : Process)
    (t : Q) (acc acc' : list Process * list Process) (s s' : St) :
  assert_gone env callback proc t acc s = (Ok acc', s') ->
  key proc ∉ key <$> fst acc ->
  snd acc = (if callback then fst acc else []) ->
  snd acc' = (if callback then fst acc' else []) /\
  (forall k, k ∈ key <$> fst acc' -> k ∈ key <$> fst acc \/ k = key proc).
Proof.
  intros H Hk Hc. apply assert_gone_Ok in H as [_ [->|(q & Hq & _ & ->)]].
  - split; [done|auto].
  - simpl. unfold set_add.
    rewrite (proj2 (set_mem_false_key q (fst acc))) by by rewrite Hq.
    split.
    + rewrite Hc. by destruct callback.
    + intros k. rewrite fmap_app, elem_of_app. cbn.
      rewrite list_elem_of_singleton, Hq. tauto.
Qed.

(** One sweep over handles that differ from each other and from those of
    [gone]. *)
Lemma sweep_calls (env : nat -> World) (callback : bool) (deadline : Q)
    (alive rest : list Process) (st st' : WaitSt) (s s' : St) :
  sweep env callback deadline alive rest st s = (Ok st', s') ->
  NoDup (key <$> rest) ->
  (forall p, p ∈ rest -> key p ∉ key <$> fst (snd st)) ->
  snd (snd st) = (if callback then fst (snd st) else []) ->
  snd (snd st') = (if callback then fst (snd st') else []).
Proof.
  revert st s. induction rest as [|proc rest IH]; intros [timeout acc] s H Hnd Hdis Hc;
    simpl in H.
  - unmon. by inversion H; subst.
  - rewrite fmap_cons in Hnd. apply NoDup_cons in Hnd as [Hp Hnd].
    assert (Hstep : forall t acc1 s0 s1 tm,
      assert_gone env callback proc t acc s0 = (Ok acc1, s1) ->
      sweep env callback deadline alive rest (tm, acc1) s1 = (Ok st', s') ->
      snd (snd st') = (if callback then fst (snd st') else [])).
    { intros t acc1 s0 s1 tm Ea Hs.
      apply assert_gone_calls in Ea as [Hc1 Hk1]; [|apply Hdis; by left|done].
      apply (IH (tm, acc1) s1 Hs Hnd); [|done].
      intros p Hin Hk. apply Hk1 in Hk as [Hk|Hk].
      - apply (Hdis p); [by right|done].
      - apply Hp. rewrite <- Hk. by apply list_elem_of_fmap_2. }
    destruct timeout as [t0|]; simpl in H.
    + unfold bind at 1, platform in H.
      set (t := py_min _ _) in H. destruct (Qle_bool t 0).
      * unfold ret in H. by inversion H; subst.
      * unfold bind at 1 in H.
        destruct (assert_gone env callback proc t acc (next_tick s))
          as [[acc1|e] s1] eqn:Ea; [|discriminate].
        by eapply Hstep.
    + unfold bind at 1 in H.
      destruct (assert_gone env callback proc _ acc s) as [[acc1|e] s1] eqn:Ea;
        [|discriminate].
      by eapply Hstep.
Qed.

Lemma last_sweep_calls (env : nat -> World) (callback : bool) (alive : list Process)
    (acc acc' : list Process * list Process) (s s' : St) :
  last_sweep env callback alive acc s = (Ok acc', s') ->
  NoDup (key <$> alive) ->
  (forall p, p ∈ alive -> key p ∉ key <$> fst acc) ->
  snd acc = (if callback then fst acc else []) ->
  snd acc' = (if callback then fst acc' else []).
Proof.
  unfold last_sweep. revert acc s.
  induction alive as [|proc alive IH]; intros acc s H Hnd Hdis Hc; simpl in H.
  - unmon. by inversion H; subst.
  - rewrite fmap_cons in Hnd. apply NoDup_cons in Hnd as [Hp Hnd].
    unfold bind at 1 in H.
    destruct (assert_gone env callback proc 0 acc s) as [[acc1|e] s1] eqn:Ea;
      [|discriminate].
    apply assert_gone_calls in Ea as [Hc1 Hk1]; [|apply Hdis; by left|done].
    apply (IH acc1 s1 H Hnd); [|done].
    intros p Hin Hk. apply Hk1 in Hk as [Hk|Hk].
    + apply (Hdis p); [by right|done].
    + apply Hp. rewrite <- Hk. by apply list_elem_of_fmap_2.
Qed.

Lemma set_diff_NoDup (a g : list Process) :
  NoDup (key <$> a) -> NoDup (key <$> set_diff a g).
Proof.
  intros H. eapply sublist_NoDup; [exact H|].
  apply fmap_sublist, sublist_filter.
Qed.

Lemma set_diff_disjoint (a g : list Process) (p : Process) :
  p ∈ set_diff a g -> key p ∉ key <$> g.
Proof. intros H. apply elem_of_set_diff in H as [_ H]. by apply set_mem_false_key. Qed.

Lemma wait_loop_calls (env : nat -> World) (callback : bool) (deadline : Q) (fuel : nat) :
  forall (alive alive' : list Process) (st st' : WaitSt) (s s' : St),
    wait_loop env fuel callback deadline alive st s = (Ok (Some (alive', st')), s') ->
    NoDup (key <$> alive) ->
    (forall p, p ∈ alive -> key p ∉ key <$> fst (snd st)) ->
    snd (snd st) = (if callback then fst (snd st) else []) ->
    NoDup (key <$> alive') /\
    (forall p, p ∈ alive' -> key p ∉ key <$> fst (snd st')) /\
    snd (snd st') = (if callback then fst (snd st') else []).
Proof.
  induction fuel as [|fuel IH]; intros alive alive' st st' s s' H Hnd Hdis Hc;
    simpl in H; destruct alive as [|p0 alive0] eqn:Ea.
  - unmon. by inversion H; subst.
  - destruct (timed_out (fst st)); unmon; [|discriminate]. by inversion H; subst.
  - unmon. by inversion H; subst.
  - destruct (timed_out (fst st)).
    { unmon. by inversion H; subst. }
    unfold bind at 1 in H. rewrite <- Ea in *.
    destruct (sweep env callback deadline alive alive st s) as [[st1|e] s1] eqn:Es;
      [|discriminate].
    apply sweep_calls in Es; [|done..].
    apply IH in H; [done| | |done].
    + by apply set_diff_NoDup.
    + intros p. apply set_diff_disjoint.
Qed.

(** X8. When a callback is passed to [wait_procs], it has been called,
    by the time the function returns, once on each handle of the list
    [gone] and on no other, in the order in which the handles entered
    [gone]; with no callback nothing is called. *)
Theorem X8_wait_procs_callback_once_per_gone
    (env : nat -> World) (fuel : nat) (procs : list Process) (timeout : option Q)
    (callback : bool) (s s' : St) (gone alive calls : list Process) :
  wait_procs env fuel procs timeout callback s = (Ok (Some (gone, alive, calls)), s') ->
  calls = (if callback then gone else []).
Proof.
  unfold wait_procs.
  destruct (match timeout with Some t => negb (Qle_bool 0 t) | None => false end);
    [discriminate|].
  unfold bind at 1.
  destruct ((match timeout with
             | Some t => (let* now := platform env w_timer in ret (now + t)%Q)%mon
             | None => ret 0%Q
             end) s) as [[deadline|e] s0]; [|discriminate].
  unfold bind at 1.
  destruct (wait_loop env fuel callback deadline (set_of procs) (timeout, ([], [])) s0)
    as [[[[alive1 st1]|]|e] s1] eqn:El; [|discriminate|discriminate].
  apply wait_loop_calls in El as (Hnd & Hdis & Hc);
    [|apply set_of_NoDup|intros p _ Hk; by apply elem_of_nil in Hk
     |by destruct callback].
  destruct alive1 as [|p0 alive0] eqn:Ea.
  - unfold ret. by intros [= <- <- <- <-].
  - rewrite <- Ea in *. unfold bind at 1.
    destruct (last_sweep env callback alive1 (snd st1) s1) as [[acc|e] s2] eqn:Es;
      [|discriminate].
    apply last_sweep_calls in Es; [|done..].
    unfold ret. by intros [= <- <- <- <-].
Qed.

Lemma X8_witness : snd returned20 = fst (fst returned20).
Proof.
  apply (X8_wait_procs_callback_once_per_gone env_exit20 20
           [handle10; handle20; handle30] (Some 2%Q) true st0 (snd run20)
           (fst (fst returned20)) (snd (fst returned20)) (snd returned20)).
  vm_compute. reflexivity.
Defined.

(* ================================================================== *)
(** * [get_children]: every process at most once                        *)
(* ================================================================== *)

Lemma ppid_pid (env : nat -> World) (plat : Platform) (c c' : Process) (s s' : St)
    (r : Res Z) :
  ppid env plat (c, s) = (r, (c', s')) -> pid c' = pid c.
Proof. intros H. by apply ppid_spec in H as [[? _] _]. Qed.

Lemma children_slow_pid (env : nat -> World) (plat : Platform) (o : option Process)
    (ps ps' : Process * St) (cs : list Process) :
  children_slow env plat o ps = (Ok cs, ps') ->
  omap (fun c => Some (pid c)) cs `sublist_of` omap (fmap pid) [o].
Proof.
  destruct ps as [p s], ps' as [p' s']. unfold children_slow.
  destruct o as [c|]; [|unmon; discriminate].
  intros H. apply try_except_NoSuchProcess in H as [H|([p1 s1] & _ & Hh)].
  - unfold bind at 1 in H.
    destruct (call_other true c (ppid env plat) (p, s)) as [[[pp c1]|e] [p2 s2]] eqn:E1;
      [|discriminate].
    apply call_other_spec in E1 as [-> Hc]. destruct (Hc pp c1 eq_refl) as (s3 & E3).
    apply ppid_pid in E3. unfold self, bind at 1 in H. simpl in H.
    destruct (pp =? pid p).
    2:{ unmon. inversion H; subst. apply sublist_nil_l. }
    unfold bind at 1 in H.
    destruct (not_older env true c1 (p, s2)) as [[[b c2]|e] [p3 s4]] eqn:E2;
      [|discriminate].
    apply not_older_spec in E2 as (_ & _ & Hc2).
    destruct (Hc2 b c2 eq_refl) as [Hp2 _]. simpl in H.
    destruct b; unmon; inversion H; subst; cbn; [|apply sublist_nil_l].
    by rewrite Hp2, E3.
  - unmon. inversion Hh; subst. apply sublist_nil_l.
Qed.

Lemma children_fast_pid (env : nat -> World) (item : Z * Z)
    (ps ps' : Process * St) (cs : list Process) :
  children_fast env item ps = (Ok cs, ps') ->
  omap (fun c => Some (pid c)) cs `sublist_of` omap (fun i => Some (fst i)) [item].
Proof.
  destruct ps as [p s], ps' as [p' s']. unfold children_fast.
  unfold self, bind at 1. simpl. destruct (snd item =? pid p).
  2:{ unmon. intros H; inversion H; subst. apply sublist_nil_l. }
  intros H. apply try_except_NoSuchProcess in H as [H|([p1 s1] & _ & Hh)].
  - apply lift_bind_self in H as [(e & _ & ? & _)|(c & s1 & Ei & H)]; [discriminate|].
    apply Process_init_Ok in Ei as (_ & Hp & _).
    unfold bind at 1 in H.
    destruct (not_older env false c (p, s1)) as [[[b c2]|e] [p3 s4]] eqn:E2;
      [|discriminate].
    apply not_older_spec in E2 as (_ & _ & Hc2).
    destruct (Hc2 b c2 eq_refl) as [Hp2 _]. simpl in H.
    destruct b; unmon; inversion H; subst; cbn; [|apply sublist_nil_l].
    by rewrite Hp2, Hp.
  - unmon. inversion Hh; subst. apply sublist_nil_l.
Qed.

(** What one visit does to [(ret, checkpids)]: nothing, or the child is
    appended to [ret] and its pid to [checkpids] unless it is there. *)
Lemma visit_shape (env : nat -> World) (cached : bool) (child : Process)
    (acc acc' : list Process * list Z) (ps ps' : Process * St) :
  visit env cached child acc ps = (Ok acc', ps') ->
  acc' = acc \/
  exists c', pid c' = pid child /\
             acc' = (fst acc ++ [c'],
                     if bool_decide (pid c' ∈ snd acc) then snd acc
                     else snd acc ++ [pid c']).
Proof.
  destruct ps as [p s], ps' as [p' s']. intros H.
  unfold visit in H. unfold bind at 1 in H.
  destruct (try_except _ _ (p, s)) as [[o|e] [p1 s1]] eqn:E; [|discriminate].
  apply try_except_NoSuchProcess in E.
  assert (Ho : forall b c', o = Some (b, c') -> pid c' = pid child).
  { destruct E as [E|([p2 s2] & E & Eh)].
    - unfold bind at 1 in E.
      destruct (not_older env cached child (p, s)) as [[[b c']|e] [p2 s2]] eqn:E2;
        [|discriminate].
      apply not_older_spec in E2 as (_ & _ & Hc). unmon. inversion E; subst.
      intros b0 c0 Eo; inversion Eo; subst. by apply (Hc b0 c0).
    - unmon. by inversion Eh; subst. }
  destruct o as [[[|] c']|]; unmon; inversion H; subst; auto.
  right. exists c'. split; [by eapply Ho|done].
Qed.

(** The children filed under one pid, visited in turn. *)
Lemma for_fold_visit_once (env : nat -> World) (cached : bool) (cs : list Process) :
  forall (acc acc' : list Process * list Z) (ps ps' : Process * St),
    for_fold cs (visit env cached) acc ps = (Ok acc', ps') ->
    NoDup (pid <$> cs) -> NoDup (snd acc) -> NoDup (pid <$> fst acc) ->
    (forall c, c ∈ cs -> pid c ∉ pid <$> fst acc) ->
    NoDup (snd acc') /\ snd acc `prefix_of` snd acc' /\
    NoDup (pid <$> fst acc') /\
    (forall x, x ∈ pid <$> fst acc' -> x ∈ pid <$> fst acc \/ x ∈ pid <$> cs).
Proof.
  induction cs as [|c cs IH]; intros acc acc' ps ps' H Hcs Hcp Hret Hdis; simpl in H.
  - unmon. inversion H; subst. by auto.
  - rewrite fmap_cons in Hcs. apply NoDup_cons in Hcs as [Hc Hcs].
    unfold bind at 1 in H.
    destruct (visit env cached c acc ps) as [[acc1|e] ps1] eqn:E1; [|discriminate].
    apply visit_shape in E1 as [->|(c' & Hp & ->)].
    + apply IH in H as (N1 & P1 & N2 & S2); [|done|done|done|].
      2:{ intros c0 Hc0. apply Hdis. by right. }
      split; [done|]. split; [done|]. split; [done|].
      intros x Hx. apply S2 in Hx as [?|?]; [by left|]. right. by right.
    + apply IH in H as (N1 & P1 & N2 & S2); simpl; [|done| | |].
      * split; [done|]. split.
        { etrans; [|exact P1]. simpl. case_bool_decide; [done|by apply prefix_app_r]. }
        split; [done|]. intros x Hx. apply S2 in Hx as [Hx|Hx]; [|right; by right].
        simpl in Hx. rewrite fmap_app, elem_of_app in Hx. destruct Hx as [?|Hx]; [by left|].
        cbn in Hx. apply list_elem_of_singleton in Hx as ->. right. rewrite Hp. by left.
      * case_bool_decide; [done|]. apply NoDup_app. split; [done|].
        split; [|apply NoDup_singleton].
        intros x Hx Hx'. apply list_elem_of_singleton in Hx' as ->. done.
      * rewrite fmap_app. cbn. apply NoDup_app. split; [done|].
        split; [|apply NoDup_singleton].
        intros x Hx Hx'. apply list_elem_of_singleton in Hx' as ->.
        rewrite Hp in Hx. by apply (Hdis c); [left|].
      * intros c0 Hc0 Hx. rewrite fmap_app, elem_of_app in Hx. destruct Hx as [Hx|Hx].
        -- by apply (Hdis c0); [right|].
        -- cbn in Hx. apply list_elem_of_singleton in Hx. rewrite Hp in Hx.
           apply Hc. rewrite <- Hx. by apply list_elem_of_fmap_2.
Qed.

Lemma table_get_NoDup (table : list (Z * Process)) (k : Z) :
  NoDup ((fun e => pid (snd e)) <$> table) -> NoDup (pid <$> table_get table k).
Proof.
  intros H. unfold table_get. rewrite <- list_fmap_compose.
  eapply sublist_NoDup; [exact H|]. apply fmap_sublist, sublist_filter.
Qed.

(** The breadth-first loop appends a handle for a pid once: the pids of
    [ret] are filed under pids of [checkpids] the loop is past, and a pid
    is filed once. *)
Lemma traverse_once (env : nat -> World) (cached : bool) (table : list (Z * Process))
    (fuel : nat) :
  NoDup ((fun e => pid (snd e)) <$> table) ->
  forall (i : nat) (acc acc' : list Process * list Z) (fin : bool)
         (ps ps' : Process * St),
    traverse env cached table fuel i acc ps = (Ok (acc', fin), ps') ->
    NoDup (snd acc) -> NoDup (pid <$> fst acc) ->
    (forall x, x ∈ pid <$> fst acc ->
               exists k c0 j, (k, c0) ∈ table /\ pid c0 = x /\
                              (j < i)%nat /\ snd acc !! j = Some k) ->
    NoDup (pid <$> fst acc').
Proof.
  intros Htab. induction fuel as [|fuel IH];
    intros i acc acc' fin ps ps' H Hcp Hret Hfiled;
    unfold traverse in H; fold traverse in H;
    destruct (snd acc !! i) as [k0|] eqn:Ei.
  - unmon. by inversion H; subst.
  - unmon. by inversion H; subst.
  - unfold bind at 1 in H.
    destruct (for_fold _ _ acc ps) as [[acc1|e] ps1] eqn:E1; [|discriminate].
    apply for_fold_visit_once in E1 as (N1 & P1 & N2 & S2);
      [|by apply table_get_NoDup|done|done|].
    + apply IH in H; [done|done|done|].
      intros x Hx. apply S2 in Hx as [Hx|Hx].
      * destruct (Hfiled x Hx) as (k & c0 & j & H1 & H2 & H3 & H4).
        exists k, c0, j. repeat split; [done|done|lia|].
        by eapply prefix_lookup_Some.
      * apply list_elem_of_fmap in Hx as (c & -> & Hc).
        apply elem_of_table_get in Hc. exists k0, c, i.
        repeat split; [done|lia|]. by eapply prefix_lookup_Some.
    + intros c Hc Hx. apply elem_of_table_get in Hc.
      destruct (Hfiled _ Hx) as (k & c0 & j & H1 & H2 & H3 & H4).
      assert (E : (k, c0) = (k0, c)).
      { apply (NoDup_fmap_inj (fun e => pid (snd e)) table); done. }
      injection E as -> ->.
      pose proof (NoDup_lookup _ _ _ _ Hcp H4 Ei). lia.
  - unmon. by inversion H; subst.
Qed.

(** X9. [get_children], recursive or not, returns no two handles of one
    pid, as long as the registry of [process_iter] is sound and the
    platform's map of parents has every pid once: the set of pids already
    queued keeps the breadth-first search from entering a pid twice. *)
Theorem X9_get_children_returns_each_pid_once
    (env : nat -> World) (plat : Platform) (recursive : bool)
    (p p' : Process) (s s' : St) (ret : list Process) :
  registry_ok (_pmap s) ->
  (forall t, NoDup (w_get_ppid_map (env t)).*1) ->
  get_children env plat recursive (p, s) = (Ok ret, (p', s')) ->
  NoDup (pid <$> ret).
Proof.
  intros Hreg Hmap H. unfold get_children, _assert_pid_not_reused in H.
  unfold bind at 1 in H.
  destruct (is_running env (p, s)) as [[[|]|e] [p1 s1]] eqn:Er; simpl in H;
    [|unmon; discriminate|discriminate].
  apply is_running_pmap in Er. rewrite <- Er in Hreg.
  destruct recursive; simpl in H.
  - unfold bind at 1 in H.
    destruct (build_table env plat (p1, s1)) as [[table|e] [p2 s2]] eqn:Et;
      [|discriminate].
    apply build_table_NoDup in Et; [|done|done].
    unfold descendants in H. unfold self, bind at 1 in H. simpl in H.
    unfold bind at 1 in H.
    destruct (traverse env _ table _ 0 _ (p2, s2)) as [[[acc fin]|e] ps3] eqn:E;
      [|discriminate].
    apply (traverse_once env _ table _ Et) in E.
    + unmon. by inversion H; subst.
    + apply NoDup_singleton.
    + constructor.
    + intros x Hx. by apply elem_of_nil in Hx.
  - destruct (negb (has_ppid_map plat));
      apply lift_bind_self in H as [(e & _ & ? & _)|(x & s2 & Hx & H)];
      try discriminate.
    + apply (for_yield_sublist _ (fmap pid) (fun c => Some (pid c))) in H.
      * rewrite omap_Some_fmap in H. eapply sublist_NoDup; [|exact H].
        eapply sublist_NoDup; [apply (items_keys_NoDup env s1)|].
        by eapply process_iter_pids.
      * apply Forall_forall. intros o _ st es st'. apply children_slow_pid.
    + unfold platform in Hx. inversion Hx; subst.
      apply (for_yield_sublist _ (fun i => Some (fst i)) (fun c => Some (pid c))) in H.
      * rewrite !omap_Some_fmap in H. by eapply sublist_NoDup.
      * apply Forall_forall. intros o _ st es st'. apply children_fast_pid.
Qed.

Lemma X9_witness : NoDup (pid <$> ok_list (fst children_of_1)).
Proof.
  apply (X9_get_children_returns_each_pid_once (fun _ => world_lost5) linux true
           handle1 (fst (snd children_of_1)) st0 (snd (snd children_of_1))).
  - apply registry_ok_empty.
  - intros t. by apply (bool_decide_unpack (NoDup (w_get_ppid_map world_lost5).*1)).
  - vm_compute. reflexivity.
Defined.

(* ================================================================== *)
(** * [as_dict]                                                         *)
(* ================================================================== *)

Lemma as_dict_loop_ext {V State : Type} (g g' : string -> State -> Outcome V * State)
    (attrs_given : bool) (ad_value : V) (names : list string) :
  (forall name st, skipped name = false -> g name st = g' name st) ->
  forall retdict st,
    as_dict_loop g attrs_given ad_value names retdict st
    = as_dict_loop g' attrs_given ad_value names retdict st.
Proof.
  intros Hg. induction names as [|name names IH]; intros retdict st; simpl; [done|].
  destruct (skipped name) eqn:E; [apply IH|].
  rewrite <- (Hg name st E). destruct (g name st) as [[v|e] st1].
  - destruct (dict_key name); [apply IH|done].
  - destruct e as [[]| |]; try done.
    + destruct (dict_key name); [apply IH|done].
    + destruct attrs_given; [done|apply IH].
Qed.

(** X10. [as_dict] retrieves no attribute whose name starts with ['_'] or
    with ['set_'], and none of the thirteen excluded names ([kill],
    [terminate], [suspend], [wait], ...), even when [attrs] asks for it:
    what the retrieval of such a name would do has no part in the result
    nor in the state the call leaves. *)
Theorem X10_as_dict_skips_private_setters_and_excluded
    {V State : Type} (g g' : string -> State -> Outcome V * State)
    (iter_set : list string -> list string) (dir_self attrs : list string)
    (ad_value : V) (st : State) :
  (forall name st,
      String.prefix "_" name = false -> String.prefix "set_" name = false ->
      name ∉ excluded_names -> g name st = g' name st) ->
  as_dict g iter_set dir_self attrs ad_value st
  = as_dict g' iter_set dir_self attrs ad_value st.
Proof.
  intros Hg. unfold as_dict. apply as_dict_loop_ext.
  intros name st0 Hs. unfold skipped in Hs.
  apply orb_false_elim in Hs as [Hs H3]. apply orb_false_elim in Hs as [H1 H2].
  apply Hg; [done|done|]. by apply bool_decide_eq_false in H3.
Qed.

Lemma X10_witness :
  as_dict (fun name (st : list string) => (Returned 1, name :: st))
          (fun l => l) ["kill"; "pid"; "_gone"; "set_nice"]%string [] 0 []
  = as_dict (fun name (st : list string) =>
               if skipped name then (Raised (Psutil ValueError), st)
               else (Returned 1, name :: st))
            (fun l => l) ["kill"; "pid"; "_gone"; "set_nice"]%string [] 0 [].
Proof.
  apply (X10_as_dict_skips_private_setters_and_excluded
           (fun name (st : list string) => (Returned 1, name :: st))
           (fun name (st : list string) =>
              if skipped name then (Raised (Psutil ValueError), st)
              else (Returned 1, name :: st))).
  intros name st H1 H2 H3. unfold skipped. rewrite H1, H2. simpl.
  by rewrite bool_decide_eq_false_2.
Defined.

(** X11. [as_dict] lets no [AccessDenied] through: the key of an
    attribute whose retrieval raised it holds [ad_value]. It lets a
    [NotImplementedError] through only when [attrs] was given. Every
    entry of the dictionary returned is filed under the key of a name gone
    through and not skipped, and holds a value the retrieval of that name
    returned, or [ad_value] after an [AccessDenied]. *)
Theorem X11_as_dict_contains_access_denied
    {V State : Type} (retrieve : string -> State -> Outcome V * State)
    (attrs_given : bool) (ad_value : V) (names : list string) (st : State) :
  match fst (as_dict_loop retrieve attrs_given ad_value names ∅ st) with
  | Raised e =>
      e <> Psutil AccessDenied /\ (e = NotImplementedError -> attrs_given = true)
  | Returned d =>
      forall k v, d !! k = Some v ->
        exists name st0 st1,
          name ∈ names /\ skipped name = false /\ dict_key name = Returned k /\
          (retrieve name st0 = (Returned v, st1) \/
           (retrieve name st0 = (Raised (Psutil AccessDenied), st1) /\ v = ad_value))
  end.
Proof.
  assert (H : forall (d0 : gmap string V),
    match fst (as_dict_loop retrieve attrs_given ad_value names d0 st) with
    | Raised e =>
        e <> Psutil AccessDenied /\ (e = NotImplementedError -> attrs_given = true)
    | Returned d =>
        forall k v, d !! k = Some v ->
          d0 !! k = Some v \/
          exists name st0 st1,
            name ∈ names /\ skipped name = false /\ dict_key name = Returned k /\
            (retrieve name st0 = (Returned v, st1) \/
             (retrieve name st0 = (Raised (Psutil AccessDenied), st1) /\ v = ad_value))
    end).
  { revert st. induction names as [|name names IH]; intros st d0; simpl; [auto|].
    assert (Hnext : forall d1 st1,
      (forall k v, d1 !! k = Some v ->
         d0 !! k = Some v \/
         exists name' st0 st2,
           name' ∈ name :: names /\ skipped name' = false /\
           dict_key name' = Returned k /\
           (retrieve name' st0 = (Returned v, st2) \/
            (retrieve name' st0 = (Raised (Psutil AccessDenied), st2) /\
             v = ad_value))) ->
      match fst (as_dict_loop retrieve attrs_given ad_value names d1 st1) with
      | Raised e =>
          e <> Psutil AccessDenied /\ (e = NotImplementedError -> attrs_given = true)
      | Returned d =>
          forall k v, d !! k = Some v ->
            d0 !! k = Some v \/
            exists name' st0 st2,
              name' ∈ name :: names /\ skipped name' = false /\
              dict_key name' = Returned k /\
              (retrieve name' st0 = (Returned v, st2) \/
               (retrieve name' st0 = (Raised (Psutil AccessDenied), st2) /\
                v = ad_value))
      end).
    { intros d1 st1 Hd1. specialize (IH st1 d1).
      destruct (fst (as_dict_loop retrieve attrs_given ad_value names d1 st1));
        [|done].
      intros k v Hk. apply IH in Hk as [Hk|(n & s0 & s1 & Hn & Hrest)]; [auto|].
      right. exists n, s0, s1. split; [by right|done]. }
    destruct (skipped name) eqn:Es; [by apply Hnext; auto|].
    destruct (retrieve name st) as [[v|e] st1] eqn:Er.
    - destruct (dict_key name) as [k0|e0] eqn:Ek.
      + apply Hnext. intros k v' Hk.
        destruct (decide (k = k0)) as [->|Hne].
        * rewrite lookup_insert_eq in Hk. injection Hk as <-.
          right. exists name, st, st1. split; [by left|]. auto.
        * rewrite lookup_insert_ne in Hk by done. auto.
      + simpl. unfold dict_key in Ek.
        destruct (String.prefix "get" name); [|discriminate].
        destruct (String.get 3 name); [|by injection Ek as <-].
        destruct (Ascii.eqb _ _); [discriminate|].
        by destruct (String.eqb _ _).
    - destruct e as [[]| |]; simpl; try done.
      + destruct (dict_key name) as [k0|e0] eqn:Ek.
        * apply Hnext. intros k v' Hk.
          destruct (decide (k = k0)) as [->|Hne].
          -- rewrite lookup_insert_eq in Hk. injection Hk as <-.
             right. exists name, st, st1. split; [by left|]. auto 6.
          -- rewrite lookup_insert_ne in Hk by done. auto.
        * simpl. unfold dict_key in Ek.
          destruct (String.prefix "get" name); [|discriminate].
          destruct (String.get 3 name); [|by injection Ek as <-].
          destruct (Ascii.eqb _ _); [discriminate|].
          by destruct (String.eqb _ _).
      + destruct attrs_given; simpl; [done|]. by apply Hnext; auto. }
  specialize (H ∅).
  destruct (fst (as_dict_loop retrieve attrs_given ad_value names ∅ st)); [|done].
  intros k v Hk. apply H in Hk as [Hk|Hk]; [|done]. by rewrite lookup_empty in Hk.
Qed.

(* ================================================================== *)
(** * Sums over the tuples of a dictionary                              *)
(* ================================================================== *)

Lemma foldl_Zadd (a : Z) (l : list Z) : foldl Z.add a l = a + foldl Z.add 0 l.
Proof.
  revert a. induction l as [|x l IH]; intros a; simpl; [lia|].
  rewrite (IH (a + x)), (IH (0 + x)). lia.
Qed.

Lemma py_sum_cons (x : Z) (l : list Z) : py_sum (x :: l) = x + py_sum l.
Proof. unfold py_sum. simpl. apply foldl_Zadd. Qed.

Lemma py_sum_Permutation (l1 l2 : list Z) : l1 ≡ₚ l2 -> py_sum l1 = py_sum l2.
Proof.
  induction 1 as [|x l1 l2 _ IH|x y l|l1 l2 l3 _ IH1 _ IH2].
  - done.
  - by rewrite !py_sum_cons, IH.
  - rewrite !py_sum_cons. lia.
  - congruence.
Qed.

Lemma field_total_insert (i : nat) (d : gmap string (list Z)) (k : string) (t : list Z) :
  d !! k = None -> field_total i (<[k := t]> d) = field i t + field_total i d.
Proof.
  intros H. unfold field_total.
  rewrite (py_sum_Permutation _ (field i <$> ((k, t) :: map_to_list d).*2)).
  - by rewrite !fmap_cons, py_sum_cons.
  - by rewrite (map_to_list_insert _ _ _ H).
Qed.

Lemma field_total_delete (i : nat) (d : gmap string (list Z)) (k : string) (t : list Z) :
  d !! k = Some t -> field_total i d = field i t + field_total i (delete k d).
Proof.
  intros H. unfold field_total.
  rewrite (py_sum_Permutation _ (field i <$> ((k, t) :: map_to_list (delete k d)).*2)).
  - by rewrite !fmap_cons, py_sum_cons.
  - by rewrite (map_to_list_delete _ _ _ H).
Qed.

(** The columns of rows that have [n] fields each. *)
Lemma zip_star_lookup (n i : nat) (rows : list (list Z)) :
  rows <> [] -> Forall (fun r => length r = n) rows -> (i < n)%nat ->
  length (zip_star rows) = n /\ zip_star rows !! i = Some (field i <$> rows).
Proof.
  intros Hne Hall Hi. induction rows as [|r rows IH]; [done|].
  apply Forall_cons in Hall as [Hr Hall].
  destruct (lookup_lt_is_Some_2 r i) as [x Hx]; [lia|].
  assert (Hf : field i r = x) by (unfold field; by rewrite Hx).
  destruct rows as [|r' rows'].
  - simpl. rewrite length_fmap, list_lookup_fmap, Hx. cbn. by rewrite Hf.
  - destruct IH as [IH1 IH2]; [done|done|].
    change (zip_star (r :: r' :: rows'))
      with (zip_with cons r (zip_star (r' :: rows'))).
    split.
    + rewrite length_zip_with. lia.
    + rewrite lookup_zip_with, Hx, IH2. cbn. by rewrite Hf.
Qed.

Lemma io_counters_each_id (n : nat) (rawdict : gmap string (list Z))
    (items : list (string * list Z)) :
  (forall k t, (k, t) ∈ items -> rawdict !! k = Some t /\ length t = n) ->
  io_counters_each n items rawdict = inr rawdict.
Proof.
  induction items as [|[k t] items IH]; intros H; simpl; [done|].
  destruct (H k t) as [Hk Ht]; [by left|].
  unfold namedtuple. rewrite bool_decide_eq_true_2 by done.
  rewrite insert_id by done. apply IH. intros k' t' Hin. apply H. by right.
Qed.

(** X12. [disk_io_counters] and [net_io_counters] raise [RuntimeError]
    when the platform lists nothing. When every tuple the platform gives
    has the fields of the namedtuple, the per-disk (per-interface) mode
    returns the platform's dictionary as it is, and each field of the
    system-wide answer is the sum of that field over the disks
    (interfaces). *)
Theorem X12_io_counters_are_the_sums_per_field
    (n : nat) (rawdict : gmap string (list Z)) :
  (forall k t, rawdict !! k = Some t -> length t = n) ->
  (rawdict = ∅ -> forall per, io_counters n rawdict per = inl RuntimeError) /\
  (rawdict <> ∅ ->
   io_counters n rawdict true = inr (inr rawdict) /\
   exists total, io_counters n rawdict false = inr (inl total) /\
                 length total = n /\
                 forall i, (i < n)%nat -> field i total = field_total i rawdict).
Proof.
  intros Hlen. split.
  - intros -> per. reflexivity.
  - intros Hne. unfold io_counters. rewrite bool_decide_eq_false_2 by done. split.
    + rewrite io_counters_each_id; [done|].
      intros k t Hin. apply elem_of_map_to_list in Hin. split; [done|]. by eapply Hlen.
    + set (rows := (map_to_list rawdict).*2).
      assert (Hrows : rows <> []).
      { unfold rows. intros E. apply fmap_nil_inv in E.
        by apply map_to_list_empty_iff in E. }
      assert (Hall : Forall (fun r => length r = n) rows).
      { apply Forall_forall. intros r Hr. unfold rows in Hr.
        apply list_elem_of_fmap in Hr as ([k t] & -> & Hin).
        apply elem_of_map_to_list in Hin. by eapply Hlen. }
      assert (Hn : length (py_sum <$> zip_star rows) = n).
      { rewrite length_fmap. destruct n as [|n'].
        - destruct rows as [|r rows']; [done|].
          apply Forall_cons in Hall as [Hr _]. apply nil_length_inv in Hr as ->.
          by destruct rows'.
        - by apply (zip_star_lookup (S n') 0 rows); [..|lia]. }
      unfold namedtuple. rewrite bool_decide_eq_true_2 by done.
      eexists. split; [reflexivity|]. split; [done|].
      intros i Hi. unfold field at 1. rewrite list_lookup_fmap.
      by destruct (zip_star_lookup n i rows Hrows Hall Hi) as [_ ->].
Qed.

Lemma X12_witness :
  disk_io_counters
    {["sda" := [1; 2; 3; 4; 5; 6]]} true
  = inr (inr ({["sda" := [1; 2; 3; 4; 5; 6]]} : gmap string (list Z))).
Proof.
  apply (X12_io_counters_are_the_sums_per_field 6 {["sda" := [1; 2; 3; 4; 5; 6]]}).
  - intros k t H. apply lookup_singleton_Some in H as [_ <-]. reflexivity.
  - apply insert_non_empty.
Defined.

(* ================================================================== *)
(** * [get_memory_maps]: grouping by path                               *)
(* ================================================================== *)

Lemma field_zip_with_add (i : nat) (l1 l2 : list Z) :
  length l1 = length l2 ->
  field i (zip_with Z.add l1 l2) = field i l1 + field i l2.
Proof.
  intros Hlen. unfold field. rewrite lookup_zip_with.
  destruct (l1 !! i) as [x|] eqn:E1; simpl.
  - destruct (lookup_lt_is_Some_2 l2 i) as [y ->]; [|done].
    apply lookup_lt_Some in E1. lia.
  - rewrite (lookup_ge_None_2 l2); [done|]. apply lookup_ge_None in E1. lia.
Qed.

(** One region more: its path is a key from then on, every tuple keeps
    its [n] fields, and the total of each field grows by the field of the
    region. *)
Lemma group_region_spec (n i : nat) (d : gmap string (list Z)) (r : region) :
  (forall k t, d !! k = Some t -> length t = n) -> length (nums r) = n ->
  (forall k t, group_region d r !! k = Some t -> length t = n) /\
  dom (group_region d r) = {[path r]} ∪ dom d /\
  field_total i (group_region d r) = field_total i d + field i (nums r).
Proof.
  intros Hd Hr. unfold group_region. destruct (d !! path r) as [old|] eqn:E.
  - pose proof (Hd _ _ E) as Hold. split; [|split].
    + intros k t. destruct (decide (k = path r)) as [->|Hne].
      * rewrite lookup_insert_eq. intros [= <-]. rewrite length_zip_with. lia.
      * rewrite lookup_insert_ne by done. apply Hd.
    + by rewrite dom_insert_L.
    + rewrite <- insert_delete_eq.
      rewrite field_total_insert by apply lookup_delete_eq.
      rewrite (field_total_delete i d _ _ E).
      rewrite field_zip_with_add by lia. lia.
  - split; [|split].
    + intros k t. destruct (decide (k = path r)) as [->|Hne].
      * rewrite lookup_insert_eq. by intros [= <-].
      * rewrite lookup_insert_ne by done. apply Hd.
    + by rewrite dom_insert_L.
    + rewrite field_total_insert by done. lia.
Qed.

Lemma foldl_group_region (n i : nat) (it : list region) :
  Forall (fun r => length (nums r) = n) it ->
  forall d : gmap string (list Z),
    (forall k t, d !! k = Some t -> length t = n) ->
    (forall k t, foldl group_region d it !! k = Some t -> length t = n) /\
    dom (foldl group_region d it) = list_to_set (path <$> it) ∪ dom d /\
    field_total i (foldl group_region d it)
    = field_total i d + py_sum ((fun r => field i (nums r)) <$> it).
Proof.
  induction 1 as [|r it Hr _ IH]; intros d Hd; cbn [foldl].
  - rewrite !fmap_nil, list_to_set_nil, (left_id_L ∅ (∪)).
    split; [done|]. split; [done|]. unfold py_sum. simpl. lia.
  - rewrite !fmap_cons, list_to_set_cons, py_sum_cons.
    destruct (group_region_spec n i d r Hd Hr) as (H1 & H2 & H3).
    destruct (IH _ H1) as (I1 & I2 & I3). split; [done|]. split.
    + rewrite I2, H2, (assoc_L (∪)).
      by rewrite (comm_L (∪) _ {[path r]}).
    + rewrite I3, H3. lia.
Qed.

(** X13. Grouping the mapped regions by path loses nothing: when every
    region has the same number of fields, the paths of the groups are the
    paths of the regions, every group has that number of fields, and each
    field summed over the groups is that field summed over the regions. *)
Theorem X13_memory_maps_grouping_keeps_the_totals
    (n : nat) (it : list region) :
  Forall (fun r => length (nums r) = n) it ->
  (forall p, p ∈ dom (get_memory_maps_grouped it) <-> p ∈ path <$> it) /\
  (forall p t, get_memory_maps_grouped it !! p = Some t -> length t = n) /\
  (forall i, field_total i (get_memory_maps_grouped it)
             = py_sum ((fun r => field i (nums r)) <$> it)).
Proof.
  intros H. unfold get_memory_maps_grouped. split; [|split].
  - intros p. destruct (foldl_group_region n 0 it H ∅) as (_ & -> & _); [done|].
    by rewrite dom_empty_L, (right_id_L ∅ (∪)), elem_of_list_to_set.
  - by destruct (foldl_group_region n 0 it H ∅) as (? & _ & _).
  - intros i. destruct (foldl_group_region n i it H ∅) as (_ & _ & ->); [done|].
    unfold field_total. rewrite map_to_list_empty. unfold py_sum at 1. simpl. lia.
Qed.

Lemma X13_witness :
  field_total 0 (get_memory_maps_grouped
                   [mkRegion "a" "r-x" "/lib/libc.so" [4096; 0];
                    mkRegion "b" "rw-" "/lib/libc.so" [8192; 4096];
                    mkRegion "c" "rw-" "[heap]" [100; 100]])
  = py_sum ((fun r => field 0 (nums r)) <$>
              [mkRegion "a" "r-x" "/lib/libc.so" [4096; 0];
               mkRegion "b" "rw-" "/lib/libc.so" [8192; 4096];
               mkRegion "c" "rw-" "[heap]" [100; 100]]).
Proof.
  apply (X13_memory_maps_grouping_keeps_the_totals 2).
  repeat constructor.
Defined.

(* ================================================================== *)
(** * [Process.name] and [Process.get_memory_percent]                   *)
(* ================================================================== *)

Lemma prefix_refl (s : string) : String.prefix s s = true.
Proof.
  induction s as [|a s IH]; simpl; [done|].
  by destruct (Ascii.ascii_dec a a).
Qed.

(** X14. The name [Process.name] returns starts with the name the
    platform gave; it is that very name off POSIX, when it is shorter
    than 15 characters, when the command line is denied or empty, and
    otherwise it is that name or the base name of the first argument. An
    [AccessDenied] of the command line is never let through. *)
Theorem X14_name_extends_the_platform_name
    (posix : bool) (basename : string -> string) (get_name : string)
    (cmdline : Backend (list string)) :
  match process_name posix basename get_name cmdline with
  | Ok n =>
      String.prefix get_name n = true /\
      (n = get_name \/
       exists arg0 rest, cmdline = BOk (arg0 :: rest) /\ n = basename arg0 /\
                         posix = true /\ (15 <= String.length get_name)%nat)
  | Raise e =>
      e = NoSuchProcess /\ cmdline = BNoSuchProcess /\
      posix = true /\ (15 <= String.length get_name)%nat
  end.
Proof.
  unfold process_name. destruct posix; simpl.
  2:{ split; [apply prefix_refl|by left]. }
  case_bool_decide as Hlen.
  2:{ split; [apply prefix_refl|by left]. }
  destruct cmdline as [[|arg0 rest]| |].
  - split; [apply prefix_refl|by left].
  - destruct (String.prefix get_name (basename arg0)) eqn:E.
    + split; [done|]. right. by exists arg0, rest.
    + split; [apply prefix_refl|by left].
  - done.
  - split; [apply prefix_refl|by left].
Qed.

(** X15. [get_memory_percent] divides by the cached total unless none
    is cached or it is zero, in which case the total is read anew and
    cached. The answer is [0.0] when that total is zero, and a number
    from 0 to 100 when the resident set size is at most the total. *)
Theorem X15_memory_percent_is_a_percentage
    (rss : Z) (cached : option Z) (vm_total : Z) :
  let total := fst (total_phymem cached vm_total) in
  snd (get_memory_percent rss cached vm_total) = Some total /\
  (total = match cached with
           | Some t => if t =? 0 then vm_total else t
           | None => vm_total
           end) /\
  (total = 0 -> fst (get_memory_percent rss cached vm_total) = 0%Q) /\
  (0 <= rss <= total ->
   (0 <= fst (get_memory_percent rss cached vm_total))%Q /\
   (fst (get_memory_percent rss cached vm_total) <= 100)%Q).
Proof.
  cbv zeta. unfold get_memory_percent.
  destruct (total_phymem cached vm_total) as [total cache] eqn:E. simpl.
  assert (Hc : cache = Some total /\
               total = match cached with
                       | Some t => if t =? 0 then vm_total else t
                       | None => vm_total
                       end).
  { unfold total_phymem in E. destruct cached as [t|]; [destruct (t =? 0)|];
      by injection E as <- <-. }
  destruct Hc as [-> Ht]. split; [done|]. split; [done|]. split.
  - intros ->. by rewrite py_div_zero.
  - intros [H0 H1]. destruct (py_div (inject_Z rss) (inject_Z total)) as [q|e] eqn:Ed.
    2:{ split; [apply Qle_refl|discriminate]. }
    apply py_div_Ok in Ed as [Hnz ->].
    assert (Hpos : (0 < inject_Z total)%Q).
    { assert (total <> 0).
      { intros ->. by apply Hnz. }
      change 0%Q with (inject_Z 0). rewrite <- Zlt_Qlt. lia. }
    assert (Hr0 : (0 <= inject_Z rss)%Q).
    { change 0%Q with (inject_Z 0). by rewrite <- Zle_Qle. }
    assert (Hr1 : (inject_Z rss <= inject_Z total)%Q) by by rewrite <- Zle_Qle.
    assert (Hq0 : (0 <= inject_Z rss / inject_Z total)%Q)
      by (apply Qle_shift_div_l; [done|lra]).
    assert (Hq1 : (inject_Z rss / inject_Z total <= 1)%Q)
      by (apply Qle_shift_div_r; [done|lra]).
    clear Hnz. set (q := (inject_Z rss / inject_Z total)%Q) in *.
    clearbody q. split; lra.
Qed.

(* ================================================================== *)
(** * Signals off POSIX                                                 *)
(* ================================================================== *)

(** X16. Off POSIX, [terminate()] does what [kill()] does, and
    [send_signal] takes no signal but [SIGTERM]: for a handle found
    running, any other signal raises [ValueError] after the platform
    calls of the identity check and no other. *)
Theorem X16_off_posix_only_sigterm
    (env : nat -> World) (plat : Platform) (sig : Z) (p p1 : Process) (s s1 : St) :
  posix plat = false ->
  terminate env plat (p, s) = kill env plat (p, s) /\
  (sig <> SIGTERM ->
   is_running env (p, s) = (Ok true, (p1, s1)) ->
   send_signal env plat sig (p, s) = (Raise ValueError, (p1, s1))).
Proof.
  intros Hposix. split.
  - unfold terminate, kill, send_signal, kill_process. rewrite Hposix. reflexivity.
  - intros Hsig Hr. unfold send_signal, _assert_pid_not_reused. unfold bind.
    rewrite Hr. simpl. rewrite Hposix.
    by rewrite (proj2 (Z.eqb_neq sig SIGTERM) Hsig).
Qed.

Lemma X16_witness :
  send_signal env_static7 windows SIGKILL (handle7, st0)
  = (Raise ValueError, (handle7, next_tick (next_tick st0))).
Proof.
  apply (X16_off_posix_only_sigterm env_static7 windows SIGKILL handle7 handle7
           st0 (next_tick (next_tick st0))); [reflexivity|done|reflexivity].
Defined.

(* ================================================================== *)
(** * [get_children(recursive=False)]: children only                    *)
(* ================================================================== *)

Lemma get_create_time_ppid (env : nat -> World) (c c' : Process) (s s' : St) (r : Res Z) :
  get_create_time env (c, s) = (r, (c', s')) -> _ppid c' = _ppid c.
Proof.
  unfold get_create_time. unmon. destruct (create_time c).
  - by intros [= _ <- _].
  - cbn. destruct (w_get_create_time (env (tick s)) (pid c)); cbn;
      by intros [= _ <- _].
Qed.

Lemma ppid_evidence (env : nat -> World) (plat : Platform) (c c' : Process)
    (s s' : St) (v : Z) :
  ppid env plat (c, s) = (Ok v, (c', s')) ->
  pid c' = pid c /\
  ((exists n, w_get_ppid (env n) (pid c) = BOk v) \/ _ppid c' = Some v).
Proof.
  unfold ppid. unmon. destruct (posix plat).
  - cbn. destruct (w_get_ppid (env (tick s)) (pid c)) eqn:E; cbn;
      intros [= <- <- <-]. split; [done|]. left. eauto.
  - destruct (_ppid c) as [v0|] eqn:Hv.
    + intros [= <- <- <-]. auto.
    + cbn. destruct (w_get_ppid (env (tick s)) (pid c)) eqn:E; cbn;
        intros [= <- <- <-]. split; [done|]. by right.
Qed.

(** The child that the comparison of the creation times hands back is
    the child it was given, but for its cached creation time. *)
Lemma not_older_child (env : nat -> World) (cached : bool) (child child' : Process)
    (ps ps' : Process * St) (b : bool) :
  not_older env cached child ps = (Ok (b, child'), ps') ->
  pid child' = pid child /\ _ppid child' = _ppid child.
Proof.
  destruct ps as [p s]. unfold not_older. unfold bind at 1.
  destruct (get_create_time env (p, s)) as [[sc|e] [p1 s1]]; [|discriminate].
  unfold bind at 1.
  destruct (call_other cached child (get_create_time env) (p1, s1))
    as [[[cc child1]|e] [p2 s2]] eqn:E2; [|discriminate].
  apply call_other_spec in E2 as [_ Hc]. destruct (Hc cc child1 eq_refl) as (s3 & E3).
  unmon. intros [= _ <- _].
  split; [by apply get_create_time_spec in E3 as [? _]|].
  by apply get_create_time_ppid in E3.
Qed.

Lemma children_slow_child_of (env : nat -> World) (plat : Platform)
    (o : option Process) (p p' : Process) (s s' : St) (ys : list Process) :
  children_slow env plat o (p, s) = (Ok ys, (p', s')) ->
  Forall (child_of env (pid p)) ys.
Proof.
  unfold children_slow. destruct o as [c|]; [|unmon; discriminate].
  intros H. apply try_except_NoSuchProcess in H as [H|([p1 s1] & _ & Hh)].
  2:{ unmon. inversion Hh; subst. constructor. }
  unfold bind at 1 in H.
  destruct (call_other true c (ppid env plat) (p, s)) as [[[pp c1]|e] [p2 s2]] eqn:E1;
    [|discriminate].
  apply call_other_spec in E1 as [-> Hc]. destruct (Hc pp c1 eq_refl) as (s3 & E3).
  apply ppid_evidence in E3 as [Hp1 Hev]. unfold self, bind at 1 in H. simpl in H.
  destruct (pp =? pid p) eqn:Epp.
  2:{ unmon. inversion H; subst. constructor. }
  apply Z.eqb_eq in Epp as ->. unfold bind at 1 in H.
  destruct (not_older env true c1 (p, s2)) as [[[b c2]|e] [p3 s4]] eqn:E2;
    [|discriminate].
  apply not_older_child in E2 as [Hp2 Hpp2]. simpl in H.
  destruct b; unmon; inversion H; subst; [|constructor].
  constructor; [|constructor].
  unfold child_of. rewrite Hp2, Hp1, Hpp2. tauto.
Qed.

Lemma children_fast_child_of (env : nat -> World) (item : Z * Z) (n : nat)
    (p p' : Process) (s s' : St) (ys : list Process) :
  item ∈ w_get_ppid_map (env n) ->
  children_fast env item (p, s) = (Ok ys, (p', s')) ->
  Forall (child_of env (pid p)) ys.
Proof.
  intros Hin. unfold children_fast. unfold self, bind at 1. simpl.
  destruct (snd item =? pid p) eqn:Epp.
  2:{ unmon. intros H; inversion H; subst. constructor. }
  apply Z.eqb_eq in Epp.
  intros H. apply try_except_NoSuchProcess in H as [H|([p1 s1] & _ & Hh)].
  2:{ unmon. inversion Hh; subst. constructor. }
  apply lift_bind_self in H as [(e & _ & ? & _)|(c & s1 & Ei & H)]; [discriminate|].
  apply Process_init_Ok in Ei as (_ & Hp & _).
  unfold bind at 1 in H.
  destruct (not_older env false c (p, s1)) as [[[b c2]|e] [p3 s4]] eqn:E2;
    [|discriminate].
  apply not_older_child in E2 as [Hp2 _]. simpl in H.
  destruct b; unmon; inversion H; subst; [|constructor].
  constructor; [|constructor].
  right. left. exists n. rewrite Hp2, Hp, <- Epp. by destruct item.
Qed.

Lemma for_yield_root {A B : Type} (body : A -> Method (list B)) (root : Z)
    (P : B -> Prop) (l : list A) :
  (forall x p s r p' s',
      x ∈ l -> pid p = root -> body x (p, s) = (r, (p', s')) ->
      pid p' = root /\ forall ys, r = Ok ys -> Forall P ys) ->
  forall p s ys p' s',
    pid p = root -> for_yield l body (p, s) = (Ok ys, (p', s')) -> Forall P ys.
Proof.
  induction l as [|x l IH]; intros Hbody p s ys p' s' Hp; simpl.
  - unmon. intros [= <- _ _]. constructor.
  - unfold bind at 1. destruct (body x (p, s)) as [[ys1|e] [p1 s1]] eqn:E1;
      [|discriminate].
    apply Hbody in E1 as [Hp1 Hys]; [|by left|done]. specialize (Hys ys1 eq_refl).
    unfold bind at 1.
    destruct (for_yield l body (p1, s1)) as [[zs|e] [p2 s2]] eqn:E2; [|discriminate].
    apply IH in E2; [|intros; eapply Hbody; eauto; by right|done].
    unmon. intros [= <- _ _]. by apply Forall_app.
Qed.

(** X17. Every handle [get_children()] returns in its default mode is a
    child of the target by the platform's word: the platform answered the
    pid of the target when asked for the parent of the child's pid, or
    listed the pair in its map of parents, or the child's handle holds
    the pid of the target as its cached parent pid. *)
Theorem X17_get_children_returns_children
    (env : nat -> World) (plat : Platform) (p p' : Process) (s s' : St)
    (ret : list Process) :
  get_children env plat false (p, s) = (Ok ret, (p', s')) ->
  Forall (child_of env (pid p)) ret.
Proof.
  unfold get_children. intros H.
  apply assert_pid_not_reused_Ok in H as (p1 & s1 & [Hp1 _] & H). simpl in H.
  rewrite <- Hp1.
  destruct (negb (has_ppid_map plat));
    apply lift_bind_self in H as [(e & _ & ? & _)|(x & s2 & Hx & H)]; try discriminate.
  - apply (for_yield_root (children_slow env plat) (pid p1)
             (child_of env (pid p1)) x) in H; [done| |done].
    intros o q t r q' t' _ Hq Hb. split.
    + apply children_slow_spec in Hb as [[? _] _]. congruence.
    + intros ys ->. rewrite <- Hq. by eapply children_slow_child_of.
  - unfold platform in Hx. injection Hx as <- <-.
    apply (for_yield_root (children_fast env) (pid p1)
             (child_of env (pid p1)) (w_get_ppid_map (env (tick s1)))) in H;
      [done| |done].
    intros item q t r q' t' Hin Hq Hb. split.
    + apply children_fast_spec in Hb as [[? _] _]. congruence.
    + intros ys ->. rewrite <- Hq. by eapply children_fast_child_of.
Qed.

Lemma X17_witness :
  Forall (child_of (fun _ => world_lost5) (pid handle1))
         (ok_list (fst (get_children (fun _ => world_lost5) linux false (handle1, st0)))).
Proof.
  apply (X17_get_children_returns_children (fun _ => world_lost5) linux handle1
           (fst (snd (get_children (fun _ => world_lost5) linux false (handle1, st0))))
           st0
           (snd (snd (get_children (fun _ => world_lost5) linux false (handle1, st0))))).
  vm_compute. reflexivity.
Defined.

(* ================================================================== *)
(** * What [is_running] may raise                                       *)
(* ================================================================== *)

(** X18. [is_running] raises nothing but [AccessDenied], and this when
    the platform denies opening the process of the pid: the handle is
    then left as it was, not marked gone, after one platform call. *)
Theorem X18_is_running_raises_access_denied_only
    (env : nat -> World) (p p' : Process) (s s' : St) (e : Exn) :
  0 <= pid p ->
  is_running env (p, s) = (Raise e, (p', s')) ->
  e = AccessDenied /\ p' = p /\ _gone p = false /\
  w_Process (env (tick s)) (pid p) = BAccessDenied /\ s' = next_tick s.
Proof.
  intros Hp H. destruct (_gone p) eqn:Hg.
  { rewrite is_running_gone in H by done. discriminate. }
  rewrite is_running_live in H by done.
  unfold Process_init in H. destruct (pid p <? 0) eqn:E; [lia|]. unmon.
  destruct (w_Process (env (tick s)) (pid p)) as [[]| |] eqn:E1; simpl in H.
  - destruct (w_get_create_time (env (S (tick s))) (pid p)); simpl in H; discriminate.
  - discriminate.
  - by injection H as <- <- <-.
Qed.

Lemma X18_witness :
  AccessDenied = AccessDenied /\ handle7 = handle7 /\ _gone handle7 = false /\
  w_Process world_denied7 (pid handle7) = BAccessDenied /\
  next_tick st0 = next_tick st0.
Proof.
  apply (X18_is_running_raises_access_denied_only (fun _ => world_denied7)
           handle7 handle7 st0 (next_tick st0) AccessDenied); [done|reflexivity].
Defined.

(* ================================================================== *)
(** * The per-CPU modes                                                 *)
(* ================================================================== *)

Lemma zip_calculate_length {A : Type} (calculate : cputimes -> cputimes -> Res A)
    (tot1 tot2 : list cputimes) (xs : list A) :
  zip_calculate calculate tot1 tot2 = Ok xs ->
  length xs = Nat.min (length tot1) (length tot2).
Proof.
  revert tot2 xs. induction tot1 as [|t1 tot1 IH]; intros [|t2 tot2] xs; simpl;
    try by intros [= <-].
  destruct (calculate t1 t2); [|discriminate].
  destruct (zip_calculate calculate tot1 tot2) as [ys|] eqn:E; [|discriminate].
  intros [= <-]. simpl. by rewrite (IH _ _ E).
Qed.

Lemma zip_calculate_Raise {A : Type} (calculate : cputimes -> cputimes -> Res A)
    (P : Exn -> Prop) (tot1 tot2 : list cputimes) (e : Exn) :
  (forall t1 t2 e, calculate t1 t2 = Raise e -> P e) ->
  zip_calculate calculate tot1 tot2 = Raise e -> P e.
Proof.
  intros Hc. revert tot2. induction tot1 as [|t1 tot1 IH]; intros [|t2 tot2]; simpl;
    try discriminate.
  destruct (calculate t1 t2) as [x|e1] eqn:E1.
  - destruct (zip_calculate calculate tot1 tot2) as [ys|e2] eqn:E2; [discriminate|].
    intros [= <-]. by eapply IH.
  - intros [= <-]. by eapply Hc.
Qed.

Lemma cpu_percent_calculate_Raise (t1 t2 : cputimes) (e : Exn) :
  cpu_percent_calculate t1 t2 = Raise e -> e = ZeroDivisionError.
Proof.
  unfold cpu_percent_calculate, py_div. destruct (Qle_bool _ _); [discriminate|].
  destruct (Qeq_bool _ 0); [by intros [= <-]|discriminate].
Qed.

(** X19. With [percpu=True], [cpu_percent] and [cpu_times_percent]
    return one entry for each CPU that both samples list, and drop the
    others without a word: the list is as long as the shorter sample. The
    samples are the stored one and the platform's answer now or, for a
    blocking call, the platform's answers before and after the sleep. *)
Theorem X19_per_cpu_result_is_as_long_as_the_shorter_sample
    (env : nat -> World) (plat : Platform) (interval : option Q) (s : St) :
  let before :=
    if blocking interval then w_get_system_per_cpu_times (env (tick s))
    else _last_per_cpu_times s in
  let before_2 :=
    if blocking interval then w_get_system_per_cpu_times (env (tick s))
    else _last_per_cpu_times_2 s in
  let now :=
    w_get_system_per_cpu_times
      (env (if blocking interval then S (S (tick s)) else tick s)) in
  match fst (cpu_percent env interval true s) with
  | Ok (inr xs) => length xs = Nat.min (length before) (length now)
  | Ok (inl _) => False
  | Raise e => e = ZeroDivisionError
  end /\
  match fst (cpu_times_percent env plat interval true s) with
  | Ok (inr xs) => length xs = Nat.min (length before_2) (length now)
  | Ok (inl _) => False
  | Raise _ => False
  end.
Proof.
  cbv zeta. split.
  - unfold cpu_percent, per_cpu_times, sleep, lift_res.
    destruct (blocking interval); unmon;
      (destruct (zip_calculate cpu_percent_calculate _ _) as [xs|e] eqn:E; simpl;
       [by apply zip_calculate_length in E|]);
      apply (zip_calculate_Raise _ (fun e => e = ZeroDivisionError)) in E; try done;
      apply cpu_percent_calculate_Raise.
  - unfold cpu_times_percent, per_cpu_times, sleep, lift_res.
    destruct (blocking interval); unmon;
      (destruct (zip_calculate (cpu_times_percent_calculate plat) _ _)
         as [xs|e] eqn:E; simpl;
       [by apply zip_calculate_length in E|]);
      by apply (zip_calculate_Raise _ (fun _ => False)) in E.
Qed.
